(** * Wallet ledger and settlement logic of the casino bot (src/bot.py)

    A shallow embedding of the parts of [CasinoBot] that decide the ledger
    properties: credential validation, the two games, the MongoDB
    collections with their unique indexes, and the bet, deposit and
    withdrawal handlers.

    Conventions of the model.
    - A Python [str] is modelled by the byte sequence of its UTF-8 encoding
      (a Rocq [string]); [.encode()] is then the identity, and comparing two
      strings by code point is comparing them byte by byte.
    - A Python [float] amount is modelled by an exact rational ([Q]); the
      decimal literals [0.1] and [1.5] that amounts are compared with or
      multiplied by denote their decimal values.  Rounding of amounts,
      infinities and NaN are outside the model.  The draw of
      [random.random()] and the literal [0.48] it is compared with are
      the exact binary values.
    - Calls to the payment gateway and to the random module are inputs of
      the handlers: the gateway's reply is an argument, the random module is
      an explicit stream that the games thread through.
    - An exception that leaves a handler is an outcome of its own, returned
      together with the database as it stands at that point.
    - Each handler is given twice: as a function from the database before
      to the database after, which is the handler run with no other in
      between, and as a task cut at its awaits, which the event loop
      interleaves with the tasks of other handlers.  The two agree when
      the task runs alone. *)

From Stdlib Require Import ZArith QArith List String Ascii Bool Lia Lqa DecimalString.
From Stdlib Require Import Sorted Permutation.
Import ListNotations.

Local Open Scope string_scope.
Local Open Scope list_scope.
Local Open Scope Z_scope.

(** ** Bytes and text *)

Definition byte_of_ascii (c : ascii) : Z := Z.of_N (N_of_ascii c).

Definition ascii_of_byte (b : Z) : ascii := ascii_of_N (Z.to_N (b mod 256)).

Definition bytes_of_string (s : string) : list Z :=
  map byte_of_ascii (list_ascii_of_string s).

Definition string_of_bytes (bs : list Z) : string :=
  string_of_list_ascii (map ascii_of_byte bs).

(** Lower-case hexadecimal digit of a value below sixteen. *)
Definition hex_digit (d : Z) : ascii :=
  if d <? 10 then ascii_of_byte (48 + d) else ascii_of_byte (87 + d).

Fixpoint hex_of_bytes (bs : list Z) : string :=
  match bs with
  | [] => EmptyString
  | b :: bs' => String (hex_digit (b / 16)) (String (hex_digit (b mod 16)) (hex_of_bytes bs'))
  end.

(** ** SHA-256 (hashlib.sha256), on 32-bit words held in [Z] *)

Module Sha256.

Definition mask32 : Z := 4294967295.

Definition add32 (x y : Z) : Z := Z.land (x + y) mask32.

Definition rotr (n x : Z) : Z :=
  Z.lor (Z.shiftr x n) (Z.land (Z.shiftl x (32 - n)) mask32).

Definition not32 (x : Z) : Z := Z.lxor x mask32.

Definition ch (x y z : Z) : Z := Z.lxor (Z.land x y) (Z.land (not32 x) z).

Definition maj (x y z : Z) : Z :=
  Z.lxor (Z.lxor (Z.land x y) (Z.land x z)) (Z.land y z).

Definition bsig0 (x : Z) : Z := Z.lxor (Z.lxor (rotr 2 x) (rotr 13 x)) (rotr 22 x).
Definition bsig1 (x : Z) : Z := Z.lxor (Z.lxor (rotr 6 x) (rotr 11 x)) (rotr 25 x).
Definition ssig0 (x : Z) : Z := Z.lxor (Z.lxor (rotr 7 x) (rotr 18 x)) (Z.shiftr x 3).
Definition ssig1 (x : Z) : Z := Z.lxor (Z.lxor (rotr 17 x) (rotr 19 x)) (Z.shiftr x 10).

(** Round constants: fractional parts of the cube roots of the first
    sixty-four primes, in decimal. *)
Definition round_constants : list Z :=
  [ 1116352408; 1899447441; 3049323471; 3921009573; 961987163; 1508970993;
    2453635748; 2870763221; 3624381080; 310598401; 607225278; 1426881987;
    1925078388; 2162078206; 2614888103; 3248222580; 3835390401; 4022224774;
    264347078; 604807628; 770255983; 1249150122; 1555081692; 1996064986;
    2554220882; 2821834349; 2952996808; 3210313671; 3336571891; 3584528711;
    113926993; 338241895; 666307205; 773529912; 1294757372; 1396182291;
    1695183700; 1986661051; 2177026350; 2456956037; 2730485921; 2820302411;
    3259730800; 3345764771; 3516065817; 3600352804; 4094571909; 275423344;
    430227734; 506948616; 659060556; 883997877; 958139571; 1322822218;
    1537002063; 1747873779; 1955562222; 2024104815; 2227730452; 2361852424;
    2428436474; 2756734187; 3204031479; 3329325298 ].

Definition initial_state : list Z :=
  [ 1779033703; 3144134277; 1013904242; 2773480762;
    1359893119; 2600822924; 528734635; 1541459225 ].

(** Padding: one 0x80 byte, zeros up to 56 modulo 64, then the bit length
    as eight big-endian bytes. *)
Definition be_bytes (width : nat) (v : Z) : list Z :=
  map (fun i => Z.land (Z.shiftr v (8 * Z.of_nat i)) 255) (rev (seq 0 width)).

Definition pad (msg : list Z) : list Z :=
  let len := Z.of_nat (List.length msg) in
  let zeros := Z.to_nat ((55 - len) mod 64) in
  msg ++ [128] ++ repeat 0 zeros ++ be_bytes 8 (8 * len).

Fixpoint words_of_bytes (bs : list Z) : list Z :=
  match bs with
  | a :: b :: c :: d :: rest =>
      (Z.shiftl a 24 + Z.shiftl b 16 + Z.shiftl c 8 + d) :: words_of_bytes rest
  | _ => []
  end.

(** Message schedule: the sixteen block words followed by forty-eight
    derived ones.  [recent] holds the last sixteen words, oldest first. *)
Fixpoint schedule_from (n : nat) (recent : list Z) : list Z :=
  match n with
  | O => []
  | S n' =>
      let w := add32 (add32 (ssig1 (nth 14 recent 0)) (nth 9 recent 0))
                     (add32 (ssig0 (nth 1 recent 0)) (nth 0 recent 0)) in
      w :: schedule_from n' (tl recent ++ [w])
  end.

Definition schedule (block : list Z) : list Z := block ++ schedule_from 48 block.

Definition round (st : list Z) (kw : Z * Z) : list Z :=
  match st with
  | [a; b; c; d; e; f; g; h] =>
      let t1 := add32 (add32 (add32 h (bsig1 e)) (add32 (ch e f g) (fst kw))) (snd kw) in
      let t2 := add32 (bsig0 a) (maj a b c) in
      [add32 t1 t2; a; b; c; add32 d t1; e; f; g]
  | _ => st
  end.

Definition compress (st block : list Z) : list Z :=
  let st' := fold_left round (combine round_constants (schedule block)) st in
  map (fun p => add32 (fst p) (snd p)) (combine st st').

Fixpoint blocks (n : nat) (ws : list Z) : list (list Z) :=
  match n with
  | O => []
  | S n' => firstn 16 ws :: blocks n' (skipn 16 ws)
  end.

Definition sha256 (msg : list Z) : list Z :=
  let ws := words_of_bytes (pad msg) in
  let st := fold_left compress (blocks (List.length ws / 16)%nat ws) initial_state in
  flat_map (be_bytes 4) st.

End Sha256.

(** ** HMAC (hmac.new(key, msg, hashlib.sha256)) *)

Definition hmac_block_size : nat := 64.

Definition hmac_sha256 (key msg : list Z) : list Z :=
  let key' := if (List.length key <=? hmac_block_size)%nat then key else Sha256.sha256 key in
  let padded := key' ++ repeat 0 (hmac_block_size - List.length key') in
  let ipad := map (fun b => Z.lxor b 54) padded in
  let opad := map (fun b => Z.lxor b 92) padded in
  Sha256.sha256 (opad ++ Sha256.sha256 (ipad ++ msg)).

(** ** JSON values (what [json.loads] and [resp.json()] return)

    Python's [None] is [JNull].  Numbers with a fraction or an exponent are
    outside the model. *)

#[warnings="-register-all"]
Inductive jval : Type :=
| JNull
| JBool (b : bool)
| JInt (z : Z)
| JStr (s : string)
| JArr (xs : list jval)
| JObj (ms : list (string * jval)).

(** Equality of two stored values as a MongoDB equality match sees it:
    same type and same content; a string never equals a number. *)
Fixpoint jval_eqb (a b : jval) {struct a} : bool :=
  match a, b with
  | JNull, JNull => true
  | JBool x, JBool y => Bool.eqb x y
  | JInt x, JInt y => x =? y
  | JStr x, JStr y => String.eqb x y
  | JArr xs, JArr ys =>
      (fix all2 (xs ys : list jval) {struct xs} : bool :=
         match xs, ys with
         | [], [] => true
         | x :: xs', y :: ys' => jval_eqb x y && all2 xs' ys'
         | _, _ => false
         end) xs ys
  | JObj ms, JObj ns =>
      (fix all2 (ms ns : list (string * jval)) {struct ms} : bool :=
         match ms, ns with
         | [], [] => true
         | (k, v) :: ms', (k', v') :: ns' =>
             String.eqb k k' && jval_eqb v v' && all2 ms' ns'
         | _, _ => false
         end) ms ns
  | _, _ => false
  end.

(** Python truth value ([if not user_id]). *)
Definition truthy (v : jval) : bool :=
  match v with
  | JNull => false
  | JBool b => b
  | JInt z => negb (z =? 0)
  | JStr s => negb (String.eqb s "")
  | JArr xs => match xs with [] => false | _ => true end
  | JObj ms => match ms with [] => false | _ => true end
  end.

(** [d.get(k)] on a decoded JSON object: [None] when the key is absent. *)
Fixpoint obj_get (ms : list (string * jval)) (k : string) : jval :=
  match ms with
  | [] => JNull
  | (k', v) :: ms' => if String.eqb k' k then v else obj_get ms' k
  end.

(** [str(n)] for an integer. *)
Definition str_of_int (z : Z) : string := NilZero.string_of_int (Z.to_int z).

(** ** Text helpers: [str.split], [str.join], [sorted], [startswith] *)

Fixpoint split_on (sep : ascii) (s : string) : list string :=
  match s with
  | EmptyString => [EmptyString]
  | String c rest =>
      if Ascii.eqb c sep then EmptyString :: split_on sep rest
      else match split_on sep rest with
           | piece :: pieces => String c piece :: pieces
           | [] => [String c EmptyString]
           end
  end.

(** [s.split(sep, 1)]: [None] when [sep] does not occur (one piece only). *)
Fixpoint split_first (sep : ascii) (s : string) : option (string * string) :=
  match s with
  | EmptyString => None
  | String c rest =>
      if Ascii.eqb c sep then Some (EmptyString, rest)
      else match split_first sep rest with
           | Some (a, b) => Some (String c a, b)
           | None => None
           end
  end.

Fixpoint join (sep : string) (l : list string) : string :=
  match l with
  | [] => EmptyString
  | [x] => x
  | x :: l' => x ++ sep ++ join sep l'
  end.

Fixpoint insert_sorted (x : string) (l : list string) : list string :=
  match l with
  | [] => [x]
  | y :: l' => if String.leb x y then x :: l else y :: insert_sorted x l'
  end.

(** [sorted(l)] on strings: ascending, compared character by character. *)
Definition sorted (l : list string) : list string := fold_right insert_sorted [] l.

(** The order [sorted] puts strings in. *)
Definition ascending (a b : string) : Prop := String.leb a b = true.

Definition newline : string := String "010"%char EmptyString.

(** ** urllib.parse.parse_qsl with its defaults

    Pieces are separated by [&]; a piece without [=] or with an empty value
    is dropped (keep_blank_values is false); [+] stands for a space and
    [%XX] for the byte XX.  Escapes that decode to bytes that are not UTF-8
    text are outside the model. *)

Definition hex_value (c : ascii) : option Z :=
  let n := byte_of_ascii c in
  if (48 <=? n) && (n <=? 57) then Some (n - 48)
  else if (65 <=? n) && (n <=? 70) then Some (n - 55)
  else if (97 <=? n) && (n <=? 102) then Some (n - 87)
  else None.

Fixpoint unquote (s : string) : string :=
  match s with
  | EmptyString => EmptyString
  | String c tl =>
      if Ascii.eqb c "%"%char then
        match tl with
        | String h (String l rest) =>
            match hex_value h, hex_value l with
            | Some a, Some b => String (ascii_of_byte (16 * a + b)) (unquote rest)
            | _, _ => String c (unquote tl)
            end
        | _ => String c (unquote tl)
        end
      else String c (unquote tl)
  end.

Fixpoint plus_to_space (s : string) : string :=
  match s with
  | EmptyString => EmptyString
  | String c tl => String (if Ascii.eqb c "+"%char then " "%char else c) (plus_to_space tl)
  end.

Definition parse_qsl (qs : string) : list (string * string) :=
  flat_map
    (fun name_value =>
       match split_first "="%char name_value with
       | Some (n, v) =>
           if String.eqb v "" then []
           else [(unquote (plus_to_space n), unquote (plus_to_space v))]
       | None => []
       end)
    (split_on "&"%char qs).

(** ** Python [dict] over strings: insertion order, a later value for a
    key that is present replaces the earlier one in place *)

Fixpoint dict_set (d : list (string * string)) (k v : string) : list (string * string) :=
  match d with
  | [] => [(k, v)]
  | (k', v') :: d' =>
      if String.eqb k' k then (k', v) :: d' else (k', v') :: dict_set d' k v
  end.

Definition dict (pairs : list (string * string)) : list (string * string) :=
  fold_left (fun d kv => dict_set d (fst kv) (snd kv)) pairs [].

Fixpoint dict_get (d : list (string * string)) (k default : string) : string :=
  match d with
  | [] => default
  | (k', v) :: d' => if String.eqb k' k then v else dict_get d' k default
  end.

Definition dict_remove (d : list (string * string)) (k : string) : list (string * string) :=
  filter (fun kv => negb (String.eqb (fst kv) k)) d.

(** [d.pop(k, default)]: the value and the dictionary without the key. *)
Definition dict_pop (d : list (string * string)) (k default : string)
  : string * list (string * string) :=
  (dict_get d k default, dict_remove d k).

(** ** The random module as an explicit stream

    Each call of [random.randint] or [random.random] consumes the next
    element of the stream.  [randint a b] lands in [a..b]; [random()] is a
    multiple of 2^-53 in the unit interval. *)

Record rng : Type := { rng_draws : nat -> Z; rng_pos : nat }.

Definition next_raw (r : rng) : Z * rng :=
  (rng_draws r (rng_pos r), {| rng_draws := rng_draws r; rng_pos := S (rng_pos r) |}).

Definition randint (a b : Z) (r : rng) : Z * rng :=
  let (x, r') := next_raw r in (a + x mod (b - a + 1), r').

Definition random_random (r : rng) : Q * rng :=
  let (x, r') := next_raw r in
  (Qmake (x mod 9007199254740992) 9007199254740992, r').

(** ** Amount comparisons *)

Definition Qltb (a b : Q) : bool := negb (Qle_bool b a).

(** ** Game Engine: slots_game, roulette_game, process_game *)

Inductive outcome : Type :=
| Reels (reels : list string)
| Wheel (number : Z) (color : string).

Record game_result : Type := {
  details : outcome;
  multiplier : Q;
  win_amount : Q;
  is_win : bool
}.

Definition symbols : list string := ["🍒"; "🍋"; "🍉"; "⭐"; "💎"; "7️⃣"].

Definition slots_multiplier (r0 r1 r2 : string) : Q :=
  if String.eqb r0 r1 && String.eqb r1 r2 then
    if String.eqb r0 "7️⃣" then 10#1
    else if String.eqb r0 "💎" then 5#1
    else 3#1
  else if String.eqb r0 r1 || String.eqb r1 r2 then 3#2
  else 0#1.

Definition slots_game (bet_amount : Q) (random : rng) : game_result * rng :=
  let hi := Z.of_nat (List.length symbols) - 1 in
  let '(i0, random) := randint 0 hi random in
  let '(i1, random) := randint 0 hi random in
  let '(i2, random) := randint 0 hi random in
  let symbol := fun i => nth (Z.to_nat i) symbols "" in
  let m := slots_multiplier (symbol i0) (symbol i1) (symbol i2) in
  let win := Qmult bet_amount m in
  ({| details := Reels [symbol i0; symbol i1; symbol i2];
      multiplier := m;
      win_amount := win;
      is_win := Qltb bet_amount win |}, random).

Definition red_numbers : list Z :=
  [1; 3; 5; 7; 9; 12; 14; 16; 18; 19; 21; 23; 25; 27; 30; 32; 34; 36].

Definition roulette_color (number : Z) : string :=
  if number =? 0 then "green"
  else if existsb (Z.eqb number) red_numbers then "red" else "black".

(** The literal [0.48] of roulette_game: the binary64 number nearest to
    48/100, which is 4323455642275676 * 2^-53.  The draw it is compared with
    is a multiple of 2^-53, so comparing the two floats is comparing these
    two rationals. *)
Definition float_0_48 : Q := 4323455642275676 # 9007199254740992.

Definition roulette_game (bet_amount : Q) (random : rng) : game_result * rng :=
  let '(number, random) := randint 0 36 random in
  let '(u, random) := random_random random in
  let win := Qltb u float_0_48 in
  let m := if win then 2#1 else 0#1 in
  ({| details := Wheel number (roulette_color number);
      multiplier := m;
      win_amount := Qmult bet_amount m;
      is_win := win |}, random).

Definition process_game (game_type : string) (bet_amount : Q) (random : rng)
  : game_result * rng :=
  if String.eqb game_type "slots" then slots_game bet_amount random
  else if String.eqb game_type "roulette" then roulette_game bet_amount random
  else slots_game bet_amount random.

(** ** Ledger Store: the three MongoDB collections *)

Record user_doc : Type := {
  user_id : jval;
  balance : Q;
  username : option string;
  created_at : Z;
  last_active : Z
}.

Record txn_doc : Type := {
  t_user_id : jval;
  t_type : string;
  t_amount : Q;
  t_status : string;
  t_invoice_id : option jval;   (* absent in withdrawal records *)
  t_check_url : option string;  (* absent in deposit records *)
  t_created_at : Z
}.

Record game_doc : Type := {
  g_user_id : jval;
  g_game_type : string;
  g_bet_amount : Q;
  g_win_amount : Q;
  g_result : game_result;
  g_created_at : Z
}.

Record db : Type := {
  users : list user_doc;
  transactions : list txn_doc;
  games_history : list game_doc
}.

Definition with_users (d : db) (us : list user_doc) : db :=
  {| users := us; transactions := transactions d; games_history := games_history d |}.

Definition with_transactions (d : db) (ts : list txn_doc) : db :=
  {| users := users d; transactions := ts; games_history := games_history d |}.

Definition with_games_history (d : db) (gs : list game_doc) : db :=
  {| users := users d; transactions := transactions d; games_history := gs |}.

(** [collection.find_one(filter)]: the first document that matches. *)
Fixpoint find_one {A : Type} (p : A -> bool) (l : list A) : option A :=
  match l with
  | [] => None
  | x :: l' => if p x then Some x else find_one p l'
  end.

(** [collection.update_one(filter, update)] without upsert: the first
    document that matches is updated; nothing happens when none does. *)
Fixpoint update_one {A : Type} (p : A -> bool) (f : A -> A) (l : list A) : list A :=
  match l with
  | [] => []
  | x :: l' => if p x then f x :: l' else x :: update_one p f l'
  end.

(** Filter [{"user_id": uid}]. *)
Definition user_is (uid : jval) (u : user_doc) : bool := jval_eqb (user_id u) uid.

(** Update [{"$inc": {"balance": delta}}]. *)
Definition inc_balance (delta : Q) (u : user_doc) : user_doc :=
  {| user_id := user_id u; balance := Qplus (balance u) delta;
     username := username u; created_at := created_at u;
     last_active := last_active u |}.

(** Filter [{"invoice_id": v}]: the field must be present and equal. *)
Definition invoice_is (v : jval) (t : txn_doc) : bool :=
  match t_invoice_id t with
  | Some v' => jval_eqb v' v
  | None => false
  end.

(** Filter [{"invoice_id": v, "status": "completed"}]. *)
Definition completed_invoice_is (v : jval) (t : txn_doc) : bool :=
  invoice_is v t && String.eqb (t_status t) "completed".

(** Update [{"$set": {"status": s}}]. *)
Definition set_status (s : string) (t : txn_doc) : txn_doc :=
  {| t_user_id := t_user_id t; t_type := t_type t; t_amount := t_amount t;
     t_status := s; t_invoice_id := t_invoice_id t;
     t_check_url := t_check_url t; t_created_at := t_created_at t |}.

(** Key of a record in the unique index on [invoice_id] that [init_db]
    creates: a record without the field is indexed under null, so the
    index admits one such record only. *)
Definition index_key (t : txn_doc) : jval :=
  match t_invoice_id t with
  | Some v => v
  | None => JNull
  end.

(** [transactions.insert_one(t)]: [None] is DuplicateKeyError, raised
    before anything is written. *)
Definition insert_transaction (t : txn_doc) (l : list txn_doc) : option (list txn_doc) :=
  if existsb (fun t' => jval_eqb (index_key t') (index_key t)) l then None
  else Some (l ++ [t]).

(** ** Gateway Adapter replies (Crypto Pay), as the handlers read them *)

(** An invoice id as the gateway's JSON gives it. *)
Inductive gw_id : Type :=
| IdInt (z : Z)
| IdStr (s : string).

Definition jval_of_id (i : gw_id) : jval :=
  match i with
  | IdInt z => JInt z
  | IdStr s => JStr s
  end.

(** The id as an f-string formats it. *)
Definition format_id (i : gw_id) : string :=
  match i with
  | IdInt z => str_of_int z
  | IdStr s => s
  end.

(** createInvoice: [result.get("ok")] and the fields of [result["result"]]. *)
Record invoice_created : Type := {
  ic_ok : bool;
  ic_invoice_id : gw_id;
  ic_pay_url : string
}.

(** One element of [result["result"]["items"]] of getInvoices;
    [ii_amount] is [float(invoice["amount"])], [None] when that raises. *)
Record invoice_item : Type := {
  ii_status : string;
  ii_amount : option Q
}.

Record invoices_reply : Type := {
  ir_ok : bool;
  ir_items : list invoice_item
}.

(** createCheck. *)
Record check_created : Type := {
  cc_ok : bool;
  cc_check_id : jval;
  cc_bot_check_url : string
}.

(** A gateway call gives a decoded reply, or raises.  What it raises
    matters to process_deposit and process_withdraw, whose [except
    ValueError] also catches what [resp.json()] raises on a body that is
    not JSON (json.JSONDecodeError, a ValueError).  Anything else (an
    aiohttp.ClientError for a failed request or a wrong content type)
    leaves the handler. *)
Inductive gw (A : Type) : Type :=
| GwRaised
| GwNotJson
| GwReply (reply : A).

Arguments GwRaised {A}.
Arguments GwNotJson {A}.
Arguments GwReply {A} reply.

(** ** What the handlers answer *)

(** Body of /api/game/play. *)
Record play_request : Type := {
  initData : option string;
  gameType : option string;   (* absent: 'slots' *)
  betAmount : option Q        (* float(...) of the field; None when it raises *)
}.

Inductive play_response : Type :=
| PlayError (status : Z) (error : string)
| PlayOk (result : game_result) (new_balance : Q)
| PlayRaised.

Inductive deposit_answer : Type :=
| DepositBelowMinimum
| DepositInvoiceCreated (check_callback_data : string)
| DepositGatewayError
| DepositNotANumber
| DepositRaised.

Inductive check_answer : Type :=
| CheckCredited (amount : Q)     (* the text that says the balance was topped up *)
| CheckWaiting
| CheckGatewayError
| CheckRaised.

Inductive withdraw_answer : Type :=
| WithdrawBelowMinimum
| WithdrawInsufficient
| WithdrawDone (check_url : string)
| WithdrawGatewayError
| WithdrawNotANumber
| WithdrawRaised.

(** Whether process_withdraw sends the user an answer ([message.answer]
    is called): every outcome but an exception that leaves the handler,
    which aiogram logs. *)
Definition withdraw_answered (a : withdraw_answer) : bool :=
  match a with
  | WithdrawRaised => false
  | _ => true
  end.

(** ** The clock, and what the aggregation pipelines compute

    Times are BSON datetimes, in milliseconds.  Each call of
    [datetime.utcnow()] reads the next value of the clock. *)

Record clock : Type := { clock_readings : nat -> Z; clock_pos : nat }.

Definition utcnow (c : clock) : Z * clock :=
  (clock_readings c (clock_pos c),
   {| clock_readings := clock_readings c; clock_pos := S (clock_pos c) |}).

(** [timedelta(days=7)] and [timedelta(hours=24)]. *)
Definition seven_days : Z := 604800000.
Definition one_day : Z := 86400000.

(** [{"$sum": "$field"}] over the matched documents; 0 for none. *)
Fixpoint sum_amounts (l : list Q) : Q :=
  match l with
  | [] => 0
  | x :: l' => x + sum_amounts l'
  end.

(** [{"$addToSet": "$user_id"}]. *)
Definition add_to_set (s : list jval) (v : jval) : list jval :=
  if existsb (jval_eqb v) s then s else s ++ [v].

(** Body of the answer of /api/webapp/init. *)
Inductive webapp_response : Type :=
| WebappError (status : Z) (error : string)
| WebappOk (balance : Q) (username : option string)
           (games : nat) (total_bet total_win : Q).

(** What the admin's /stats message shows. *)
Record stats_report : Type := {
  sr_users : nat;
  sr_deposits : Q;
  sr_withdraws : Q;
  sr_transactions : nat
}.

(** A stream that starts with the given draws. *)
Definition stream_of (draws : list Z) : rng :=
  {| rng_draws := fun n => nth n draws 0; rng_pos := 0 |}.

(** The 216 ways three reels can stop, by symbol position. *)
Definition all_spins : list (list Z) :=
  flat_map (fun i0 =>
    flat_map (fun i1 =>
      map (fun i2 => [i0; i1; i2]) [0; 1; 2; 3; 4; 5]) [0; 1; 2; 3; 4; 5])
    [0; 1; 2; 3; 4; 5].

(** Whether a character occurs in a string. *)
Fixpoint has_char (c : ascii) (s : string) : bool :=
  match s with
  | EmptyString => false
  | String c' s' => Ascii.eqb c' c || has_char c s'
  end.

(** A decimal digit. *)
Definition is_digit_char (c : ascii) : bool :=
  let n := byte_of_ascii c in (48 <=? n) && (n <=? 57).

(** A digit of lower-case hexadecimal. *)
Definition is_lower_hex (c : ascii) : bool :=
  let n := byte_of_ascii c in
  ((48 <=? n) && (n <=? 57)) || ((97 <=? n) && (n <=? 102)).

Fixpoint all_chars (p : ascii -> bool) (s : string) : bool :=
  match s with
  | EmptyString => true
  | String c s' => p c && all_chars p s'
  end.

(** A character that sorts after the equals sign: the letters and the
    underscore, of which the field names that Telegram sends are made, do;
    digits and most punctuation do not. *)
Definition after_equals (c : ascii) : bool := Ascii.ltb "="%char c.

(** ** Handlers as the event loop runs them

    A handler is a coroutine.  It runs until it awaits a call, is
    suspended while the call is carried out, and resumes with the reply;
    other handlers run in between.  A [task] is a handler at such a
    point: the call it waits for, and what it does with the reply.  The
    database carries out a call on one document atomically, and the
    unique index on the user id of the users collection (init_db) refuses
    the insert of a second account for an id. *)

(** What the handlers share: the database and the random module. *)
Record world : Type := { w_db : db; w_random : rng }.

(** The calls, each with the type of its reply.  [Elsewhere] is an await
    that touches neither collection: reading the request body, asking the
    gateway, answering the user.  [Process_game] is not a call on the
    database: it is the code of game_play between two awaits, which draws
    from the random module when the handler is resumed. *)
Inductive call : Type -> Type :=
| Elsewhere : call unit
| Users_find_one (uid : jval) : call (option user_doc)
| Users_update_one (uid : jval) (update : user_doc -> user_doc) : call unit
| Users_update_one_upsert (uid : jval) (update : user_doc -> user_doc)
    (inserted : user_doc) : call unit
| Users_insert_one (u : user_doc) : call bool
| Transactions_find_one (filter : txn_doc -> bool) : call (option txn_doc)
| Transactions_update_one (filter : txn_doc -> bool) (update : txn_doc -> txn_doc)
    : call unit
| Transactions_insert_one (t : txn_doc) : call bool
| Games_history_insert_one (g : game_doc) : call unit
| Games_history_aggregate (matching : game_doc -> bool) : call (list game_doc)
| Process_game (game_type : string) (bet_amount : Q) : call game_result.

(** The reply to a call and the world after it.  The two inserts reply
    [false] for DuplicateKeyError, raised before anything is written. *)
Definition perform {R : Type} (c : call R) (w : world) : R * world :=
  let d := w_db w in
  let store := fun d' : db => {| w_db := d'; w_random := w_random w |} in
  match c in call R return R * world with
  | Elsewhere => (tt, w)
  | Users_find_one uid => (find_one (user_is uid) (users d), w)
  | Users_update_one uid update =>
      (tt, store (with_users d (update_one (user_is uid) update (users d))))
  | Users_update_one_upsert uid update inserted =>
      match find_one (user_is uid) (users d) with
      | Some _ => (tt, store (with_users d (update_one (user_is uid) update (users d))))
      | None => (tt, store (with_users d (users d ++ [inserted])))
      end
  | Users_insert_one u =>
      match find_one (user_is (user_id u)) (users d) with
      | Some _ => (false, w)
      | None => (true, store (with_users d (users d ++ [u])))
      end
  | Transactions_find_one filter => (find_one filter (transactions d), w)
  | Transactions_update_one filter update =>
      (tt, store (with_transactions d (update_one filter update (transactions d))))
  | Transactions_insert_one t =>
      match insert_transaction t (transactions d) with
      | Some ts => (true, store (with_transactions d ts))
      | None => (false, w)
      end
  | Games_history_insert_one g =>
      (tt, store (with_games_history d (games_history d ++ [g])))
  | Games_history_aggregate matching => (filter matching (games_history d), w)
  | Process_game game_type bet_amount =>
      let (result, random) := process_game game_type bet_amount (w_random w) in
      (result, {| w_db := d; w_random := random |})
  end.

Inductive task (A : Type) : Type :=
| Return (a : A)
| Call {R : Type} (c : call R) (k : R -> task A).

Arguments Return {A} a.
Arguments Call {A R} c k.

Notation "'let*' x ':=' c 'in' k" := (Call c (fun x => k))
  (at level 10, x name, c at level 100, k at level 200).

(** The handler is resumed: its call is carried out and it goes on to its
    next await, or to its end. *)
Definition resume {A : Type} (t : task A) (w : world) : task A * world :=
  match t with
  | Return a => (Return a, w)
  | Call c k => let (r, w') := perform c w in (k r, w')
  end.

(** The handler run from start to end with no other handler in between. *)
Fixpoint run_alone {A : Type} (t : task A) (w : world) : A * world :=
  match t with
  | Return a => (a, w)
  | Call c k => let (r, w') := perform c w in run_alone (k r) w'
  end.

(** A handler in flight, whatever it answers. *)
Inductive running : Type :=
| Running {A : Type} (t : task A).

Definition resume_running (h : running) (w : world) : running * world :=
  match h with
  | Running t => let (t', w') := resume t w in (Running t', w')
  end.

Fixpoint replace_nth {X : Type} (n : nat) (x : X) (l : list X) : list X :=
  match l, n with
  | [], _ => []
  | _ :: l', O => x :: l'
  | y :: l', S n' => y :: replace_nth n' x l'
  end.

(** The event loop.  [schedule] names, turn by turn, the handler in
    flight that is resumed next; a turn that names none is idle. *)
Fixpoint interleave (schedule : list nat) (pool : list running) (w : world)
  : list running * world :=
  match schedule with
  | [] => (pool, w)
  | i :: rest =>
      match nth_error pool i with
      | Some h =>
          let (h', w') := resume_running h w in
          interleave rest (replace_nth i h' pool) w'
      | None => interleave rest pool w
      end
  end.

(** Whether a call writes to a collection. *)
Definition call_writes {R : Type} (c : call R) : bool :=
  match c with
  | Elsewhere | Users_find_one _ | Transactions_find_one _
  | Games_history_aggregate _ | Process_game _ _ => false
  | _ => true
  end.

(** A task that, whatever the replies, never asks for a write. *)
Inductive reads_only {A : Type} : task A -> Prop :=
| reads_only_return : forall a, reads_only (Return a)
| reads_only_call : forall (R : Type) (c : call R) (k : R -> task A),
    call_writes c = false -> (forall r, reads_only (k r)) -> reads_only (Call c k).

(** A call that leaves the ids of the accounts alone: its update keeps
    the id, and the account an upsert creates has the id it asked for. *)
Definition call_keeps_ids {R : Type} (c : call R) : Prop :=
  match c with
  | Users_update_one _ update => forall u, user_id (update u) = user_id u
  | Users_update_one_upsert uid update inserted =>
      (forall u, user_id (update u) = user_id u) /\ user_id inserted = uid
  | _ => True
  end.

Inductive keeps_ids {A : Type} : task A -> Prop :=
| keeps_ids_return : forall a, keeps_ids (Return a)
| keeps_ids_call : forall (R : Type) (c : call R) (k : R -> task A),
    call_keeps_ids c -> (forall r, keeps_ids (k r)) -> keeps_ids (Call c k).

Definition running_keeps_ids (h : running) : Prop :=
  match h with
  | Running t => keeps_ids t
  end.

(** What one call does to the ids of the accounts: nothing, or one id
    that no account answered to is added at the end. *)
Definition ids_grow (us us' : list user_doc) : Prop :=
  map user_id us' = map user_id us
  \/ exists uid, map user_id us' = map user_id us ++ [uid]
                 /\ find_one (user_is uid) us = None.

(** ** A decoder for plain JSON texts

    Objects, arrays, strings without escapes, integers and the three
    literals.  The properties below hold for every decoder; this one
    stands for [json.loads] where a concrete credential is run. *)

Module PlainJson.

Definition quote : ascii := "034"%char.

Definition is_space (c : ascii) : bool :=
  let n := byte_of_ascii c in (n =? 32) || (n =? 9) || (n =? 10) || (n =? 13).

Definition is_digit (c : ascii) : bool :=
  let n := byte_of_ascii c in (48 <=? n) && (n <=? 57).

Fixpoint skip_spaces (s : string) : string :=
  match s with
  | String c rest => if is_space c then skip_spaces rest else s
  | EmptyString => s
  end.

(** The characters up to the closing quote, and what follows it. *)
Fixpoint take_string (s : string) : option (string * string) :=
  match s with
  | EmptyString => None
  | String c rest =>
      if Ascii.eqb c quote then Some (EmptyString, rest)
      else if Ascii.eqb c "\"%char then None
      else match take_string rest with
           | Some (a, b) => Some (String c a, b)
           | None => None
           end
  end.

(** Leading decimal digits as a number, how many there were, and the rest. *)
Fixpoint take_digits (acc : Z) (count : nat) (s : string) : Z * nat * string :=
  match s with
  | String c rest =>
      if is_digit c then take_digits (10 * acc + (byte_of_ascii c - 48)) (S count) rest
      else (acc, count, s)
  | EmptyString => (acc, count, s)
  end.

Definition take_literal (word : string) (v : jval) (s : string) : option (jval * string) :=
  if prefix word s
  then Some (v, substring (String.length word) (String.length s - String.length word) s)
  else None.

Fixpoint obj_set (ms : list (string * jval)) (k : string) (v : jval) : list (string * jval) :=
  match ms with
  | [] => [(k, v)]
  | (k', v') :: ms' =>
      if String.eqb k' k then (k', v) :: ms' else (k', v') :: obj_set ms' k v
  end.

Fixpoint parse_value (fuel : nat) (s : string) {struct fuel} : option (jval * string) :=
  match fuel with
  | O => None
  | S fuel' =>
      match skip_spaces s with
      | EmptyString => None
      | String c rest =>
          if Ascii.eqb c "{"%char then
            match skip_spaces rest with
            | String c' rest' =>
                if Ascii.eqb c' "}"%char then Some (JObj [], rest')
                else
                  (fix members (n : nat) (s : string) (acc : list (string * jval))
                       {struct n} : option (jval * string) :=
                     match n with
                     | O => None
                     | S n' =>
                         match skip_spaces s with
                         | String q s1 =>
                             if Ascii.eqb q quote then
                               match take_string s1 with
                               | Some (k, s2) =>
                                   match skip_spaces s2 with
                                   | String colon s3 =>
                                       if Ascii.eqb colon ":"%char then
                                         match parse_value fuel' s3 with
                                         | Some (v, s4) =>
                                             match skip_spaces s4 with
                                             | String d s5 =>
                                                 if Ascii.eqb d ","%char
                                                 then members n' s5 (obj_set acc k v)
                                                 else if Ascii.eqb d "}"%char
                                                 then Some (JObj (obj_set acc k v), s5)
                                                 else None
                                             | EmptyString => None
                                             end
                                         | None => None
                                         end
                                       else None
                                   | EmptyString => None
                                   end
                               | None => None
                               end
                             else None
                         | EmptyString => None
                         end
                     end) fuel' rest []
            | EmptyString => None
            end
          else if Ascii.eqb c "["%char then
            match skip_spaces rest with
            | String c' rest' =>
                if Ascii.eqb c' "]"%char then Some (JArr [], rest')
                else
                  (fix elements (n : nat) (s : string) (acc : list jval)
                       {struct n} : option (jval * string) :=
                     match n with
                     | O => None
                     | S n' =>
                         match parse_value fuel' s with
                         | Some (v, s1) =>
                             match skip_spaces s1 with
                             | String d s2 =>
                                 if Ascii.eqb d ","%char then elements n' s2 (acc ++ [v])
                                 else if Ascii.eqb d "]"%char then Some (JArr (acc ++ [v]), s2)
                                 else None
                             | EmptyString => None
                             end
                         | None => None
                         end
                     end) fuel' rest []
            | EmptyString => None
            end
          else if Ascii.eqb c quote then
            match take_string rest with
            | Some (str, rest') => Some (JStr str, rest')
            | None => None
            end
          else if Ascii.eqb c "-"%char then
            match take_digits 0 0 rest with
            | (_, O, _) => None
            | (n, _, rest') => Some (JInt (- n), rest')
            end
          else if is_digit c then
            match take_digits 0 0 (String c rest) with
            | (n, _, rest') => Some (JInt n, rest')
            end
          else
            match take_literal "null" JNull (String c rest) with
            | Some r => Some r
            | None =>
                match take_literal "true" (JBool true) (String c rest) with
                | Some r => Some r
                | None => take_literal "false" (JBool false) (String c rest)
                end
            end
      end
  end.

(** The whole text must be one value. *)
Definition loads (s : string) : option jval :=
  match parse_value (S (String.length s)) s with
  | Some (v, rest) =>
      match skip_spaces rest with
      | EmptyString => Some v
      | _ => None
      end
  | None => None
  end.

End PlainJson.

(** ** Sample data: a bot token, credentials signed under it, ledgers *)

Module Sample.

Definition token : string := "123456:TEST-TOKEN".

(** Fields auth_date, query_id and user (the JSON object with id 42 and a
    first name, percent-encoded), with the signature Telegram would give. *)
Definition credential : string :=
  "auth_date=1700000000&query_id=AAHdF6IQ&user=%7B%22id%22%3A42%2C%22first_name%22%3A%22Ann%22%7D&hash=8c6d26c49c71bfad9531f20000c0c912c2b39b9af541da6d483bc7808d882e05".

(** The same fields with the last digit of the signature changed. *)
Definition credential_wrong_hash : string :=
  "auth_date=1700000000&query_id=AAHdF6IQ&user=%7B%22id%22%3A42%2C%22first_name%22%3A%22Ann%22%7D&hash=8c6d26c49c71bfad9531f20000c0c912c2b39b9af541da6d483bc7808d882e06".

(** Fields k and k2, signed over the text that lists them by key
    (k, then k2). *)
Definition credential_by_key : string :=
  "k=1&k2=2&hash=e123189cbffa2aebad940e230ac8bb1f040bd55aa6a6fb0229adda90e4c75dd7".

(** Fields auth_date and user, the user's first name being A=B, with the
    signature Telegram would give. *)
Definition credential_name_with_eq : string :=
  "auth_date=1700000000&user=%7B%22id%22%3A42%2C%22first_name%22%3A%22A%3DB%22%7D&hash=4fd26b3f9a24f5a830a80fe1bb39108edffeb1b4796a9deb34382ecdf3fb712e".

(** The same credential after tampering: the equals sign after user is
    written %3D and the one of the first name is written plainly, so that
    the user field is gone and a field whose name starts with user= holds
    the end of the payload.  The signature is the one above. *)
Definition credential_user_split : string :=
  "auth_date=1700000000&user%3D%7B%22id%22%3A42%2C%22first_name%22%3A%22A=B%22%7D&hash=4fd26b3f9a24f5a830a80fe1bb39108edffeb1b4796a9deb34382ecdf3fb712e".

(** The sample credential with its first two fields exchanged. *)
Definition credential_reordered : string :=
  "query_id=AAHdF6IQ&auth_date=1700000000&user=%7B%22id%22%3A42%2C%22first_name%22%3A%22Ann%22%7D&hash=8c6d26c49c71bfad9531f20000c0c912c2b39b9af541da6d483bc7808d882e05".

(** The value of its user field, decoded. *)
Definition user_payload : string :=
  unquote "%7B%22id%22%3A42%2C%22first_name%22%3A%22Ann%22%7D".

(** [str] on the values that name the sample accounts: numbers and
    texts. *)
Definition str_of_scalar (v : jval) : string :=
  match v with
  | JInt z => str_of_int z
  | JStr s => s
  | _ => EmptyString
  end.

(** A clock that reads the same time at every call. *)
Definition clock_fixed : clock :=
  {| clock_readings := fun _ => 1700000500; clock_pos := 0 |}.

Definition user42 (b : Q) : user_doc :=
  {| user_id := JInt 42; balance := b; username := Some "ann";
     created_at := 1700000000; last_active := 1700000000 |}.

Definition user7 (b : Q) : user_doc :=
  {| user_id := JInt 7; balance := b; username := Some "bob";
     created_at := 1700000000; last_active := 1700000000 |}.

Definition empty_db : db := {| users := []; transactions := []; games_history := [] |}.

(** One account holding 20, nothing else. *)
Definition db_one_user : db :=
  {| users := [user42 (20#1)]; transactions := []; games_history := [] |}.

(** A deposit of 5 by user 7, pending under the invoice id "555" kept as
    a string, and the accounts of users 42 and 7. *)
Definition db_pending_str : db :=
  {| users := [user42 (20#1); user7 (1#1)];
     transactions :=
       [{| t_user_id := JInt 7; t_type := "deposit"; t_amount := 5#1;
           t_status := "pending"; t_invoice_id := Some (JStr "555");
           t_check_url := None; t_created_at := 1700000000 |}];
     games_history := [] |}.

(** All draws are 4: three times the fifth symbol on the reels. *)
Definition stream_fours : rng := {| rng_draws := fun _ => 4; rng_pos := 0 |}.

Definition stream_count : rng := {| rng_draws := fun n => Z.of_nat n; rng_pos := 0 |}.

(** The gateway's answers. *)
Definition invoice_123 : gw invoice_created :=
  GwReply {| ic_ok := true; ic_invoice_id := IdInt 123; ic_pay_url := "https://pay.example/123" |}.

Definition paid (amount : Q) : gw invoices_reply :=
  GwReply {| ir_ok := true; ir_items := [{| ii_status := "paid"; ii_amount := Some amount |}] |}.

Definition check_ok : gw check_created :=
  GwReply {| cc_ok := true; cc_check_id := JInt 9; cc_bot_check_url := "https://t.me/check9" |}.

Definition check_failed : gw check_created :=
  GwReply {| cc_ok := false; cc_check_id := JNull; cc_bot_check_url := "" |}.

End Sample.

(** ** The bot: Identity Verifier and Settlement Engine *)

Section Bot.

(** Settings read from the environment when the module is loaded. *)
Variable BOT_TOKEN : string.
Variable MIN_DEPOSIT : Q.
Variable MIN_WITHDRAW : Q.
Variable MAX_BET : Q.

(** [json.loads]; [None] when it raises. *)
Variable json_loads : string -> option jval.

(** *** validate_telegram_data *)

(** [data] after [data.pop('hash', '')], and the popped value. *)
Definition received_hash (init_data : string) : string :=
  fst (dict_pop (dict (parse_qsl init_data)) "hash" "").

Definition data_check_string (init_data : string) : string :=
  let data := snd (dict_pop (dict (parse_qsl init_data)) "hash" "") in
  join newline (sorted (map (fun kv => (fst kv ++ "=" ++ snd kv)%string) data)).

Definition secret_key : list Z :=
  hmac_sha256 (bytes_of_string "WebAppData") (bytes_of_string BOT_TOKEN).

Definition calculated_hash (init_data : string) : string :=
  hex_of_bytes (hmac_sha256 secret_key (bytes_of_string (data_check_string init_data))).

Definition validate_telegram_data (init_data : string) : bool :=
  String.eqb (calculated_hash init_data) (received_hash init_data).

(** *** extract_user_id

    [None] is returned when the payload does not decode, when it is not an
    object (no [get] method) and when it has no [id]. *)
Definition extract_user_id (init_data : string) : jval :=
  let data := dict (parse_qsl init_data) in
  match json_loads (dict_get data "user" "{}") with
  | Some (JObj user_data) => obj_get user_data "id"
  | _ => JNull
  end.

(** *** start: create the account on first contact, refresh it after *)
Definition start (from_id : Z) (from_username : option string) (now : Z) (d : db) : db :=
  let p := user_is (JInt from_id) in
  match find_one p (users d) with
  | Some _ =>
      with_users d
        (update_one p
           (fun u => {| user_id := user_id u; balance := balance u;
                        username := from_username; created_at := created_at u;
                        last_active := now |})
           (users d))
  | None =>
      with_users d
        (users d ++ [{| user_id := JInt from_id; balance := 0;
                        username := from_username; created_at := now;
                        last_active := now |}])
  end.

(** *** game_play *)
Definition game_play (req : play_request) (now : Z) (random : rng) (d : db)
  : play_response * db * rng :=
  let game_type := match gameType req with Some g => g | None => "slots" end in
  match betAmount req with
  | None => (PlayRaised, d, random)
  | Some bet_amount =>
      match initData req with
      | None => (PlayError 403 "Invalid authentication", d, random)
      | Some init_data =>
          if String.eqb init_data "" || negb (validate_telegram_data init_data) then
            (PlayError 403 "Invalid authentication", d, random)
          else
            let uid := extract_user_id init_data in
            if negb (truthy uid) then (PlayError 400 "Invalid user", d, random)
            else if negb (Qle_bool (1#10) bet_amount && Qle_bool bet_amount MAX_BET) then
              (PlayError 400 "Invalid bet amount", d, random)
            else
              match find_one (user_is uid) (users d) with
              | None => (PlayError 400 "Insufficient balance", d, random)
              | Some user =>
                  if Qltb (balance user) bet_amount then
                    (PlayError 400 "Insufficient balance", d, random)
                  else
                    let d1 := with_users d
                      (update_one (user_is uid) (inc_balance (Qopp bet_amount)) (users d)) in
                    let (result, random') := process_game game_type bet_amount random in
                    let d2 := with_users d1
                      (update_one (user_is uid) (inc_balance (win_amount result)) (users d1)) in
                    let d3 := with_games_history d2
                      (games_history d2 ++
                         [{| g_user_id := uid; g_game_type := game_type;
                             g_bet_amount := bet_amount;
                             g_win_amount := win_amount result;
                             g_result := result; g_created_at := now |}]) in
                    match find_one (user_is uid) (users d3) with
                    | Some new_balance => (PlayOk result (balance new_balance), d3, random')
                    | None => (PlayRaised, d3, random')
                    end
              end
      end
  end.

(** *** process_deposit

    [text_amount] is [float(message.text)] for a text that reads as a
    finite number, [None] when [float] raises ValueError; [reply] is the
    gateway's answer to createInvoice.  The handler's [except ValueError]
    catches both the ValueError of [float] and the one of [resp.json()],
    and answers either with the same message. *)
Definition process_deposit (from_id : Z) (text_amount : option Q)
    (reply : gw invoice_created) (now : Z) (d : db) : deposit_answer * db :=
  match text_amount with
  | None => (DepositNotANumber, d)
  | Some amount =>
      if Qltb amount MIN_DEPOSIT then (DepositBelowMinimum, d)
      else
        match reply with
        | GwRaised => (DepositRaised, d)
        | GwNotJson => (DepositNotANumber, d)
        | GwReply invoice =>
            if ic_ok invoice then
              match insert_transaction
                      {| t_user_id := JInt from_id; t_type := "deposit";
                         t_amount := amount; t_status := "pending";
                         t_invoice_id := Some (jval_of_id (ic_invoice_id invoice));
                         t_check_url := None; t_created_at := now |}
                      (transactions d) with
              | None => (DepositRaised, d)
              | Some ts =>
                  (DepositInvoiceCreated ("check_dep_" ++ format_id (ic_invoice_id invoice))%string,
                   with_transactions d ts)
              end
            else (DepositGatewayError, d)
        end
  end.

(** *** check_deposit

    [data] is the callback data of the pressed button, [from_id] the user
    who pressed it, [reply] the gateway's answer to getInvoices. *)
Definition check_deposit (from_id : Z) (data : string)
    (reply : gw invoices_reply) (d : db) : check_answer * db :=
  match nth_error (split_on "_"%char data) 2 with
  | None => (CheckRaised, d)
  | Some invoice_id =>
      match reply with
      | GwRaised => (CheckRaised, d)
      | GwNotJson => (CheckRaised, d)
      | GwReply result =>
          if ir_ok result then
            match ir_items result with
            | [] => (CheckRaised, d)
            | invoice :: _ =>
                if String.eqb (ii_status invoice) "paid" then
                  match ii_amount invoice with
                  | None => (CheckRaised, d)
                  | Some amount =>
                      match find_one (completed_invoice_is (JStr invoice_id))
                                     (transactions d) with
                      | Some _ => (CheckCredited amount, d)
                      | None =>
                          let d1 := with_users d
                            (update_one (user_is (JInt from_id)) (inc_balance amount)
                                        (users d)) in
                          let d2 := with_transactions d1
                            (update_one (invoice_is (JStr invoice_id))
                                        (set_status "completed") (transactions d1)) in
                          (CheckCredited amount, d2)
                      end
                  end
                else (CheckWaiting, d)
            end
          else (CheckGatewayError, d)
      end
  end.

(** *** process_withdraw

    [text_amount] as for process_deposit; [reply] is the gateway's answer
    to createCheck, asked for before anything is written.  A user without
    an account makes [user_data['balance']] raise TypeError, which is not
    caught; so is what the request raises, and the DuplicateKeyError of
    the insert, which comes after the debit. *)
Definition process_withdraw (from_id : Z) (text_amount : option Q)
    (reply : gw check_created) (now : Z) (d : db) : withdraw_answer * db :=
  match text_amount with
  | None => (WithdrawNotANumber, d)
  | Some amount =>
      let uid := JInt from_id in
      let user_data := find_one (user_is uid) (users d) in
      if Qltb amount MIN_WITHDRAW then (WithdrawBelowMinimum, d)
      else
        match user_data with
        | None => (WithdrawRaised, d)
        | Some user =>
            if Qltb (balance user) amount then (WithdrawInsufficient, d)
            else
              match reply with
              | GwRaised => (WithdrawRaised, d)
              | GwNotJson => (WithdrawNotANumber, d)
              | GwReply check =>
                  if cc_ok check then
                    let d1 := with_users d
                      (update_one (user_is uid) (inc_balance (Qopp amount)) (users d)) in
                    match insert_transaction
                            {| t_user_id := uid; t_type := "withdraw";
                               t_amount := amount; t_status := "completed";
                               t_invoice_id := None;
                               t_check_url := Some (cc_bot_check_url check);
                               t_created_at := now |}
                            (transactions d1) with
                    | None => (WithdrawRaised, d1)
                    | Some ts => (WithdrawDone (cc_bot_check_url check),
                                  with_transactions d1 ts)
                    end
                  else (WithdrawGatewayError, d)
              end
        end
  end.

(** Administrators, from the environment. *)
Variable ADMIN_IDS : list Z.

(** [str(v)] of a decoded JSON value, as an f-string formats it. *)
Variable py_str : jval -> string.

(** *** webapp_init

    [init_data] is [data.get('initData')]. *)
Definition webapp_init (init_data : option string) (time : clock) (d : db)
  : webapp_response * db :=
  match init_data with
  | None => (WebappError 403 "Invalid authentication", d)
  | Some init_data =>
      if String.eqb init_data "" || negb (validate_telegram_data init_data) then
        (WebappError 403 "Invalid authentication", d)
      else
        let uid := extract_user_id init_data in
        if negb (truthy uid) then (WebappError 400 "Invalid user", d)
        else
          let (t_active, time) := utcnow time in
          let d1 := with_users d
            (update_one (user_is uid)
               (fun u => {| user_id := user_id u; balance := balance u;
                            username := username u; created_at := created_at u;
                            last_active := t_active |})
               (users d)) in
          let '(user_data, d2, time) :=
            match find_one (user_is uid) (users d1) with
            | Some u => (u, d1, time)
            | None =>
                let (t_created, time) := utcnow time in
                let (t_last, time) := utcnow time in
                let u := {| user_id := uid; balance := 0;
                            username := Some ("user_" ++ py_str uid)%string;
                            created_at := t_created; last_active := t_last |} in
                (u, with_users d1 (users d1 ++ [u]), time)
            end in
          let (t_stats, _) := utcnow time in
          let matched :=
            filter (fun g => jval_eqb (g_user_id g) uid
                             && (t_stats - seven_days <? g_created_at g))
                   (games_history d2) in
          (WebappOk (balance user_data) (username user_data)
             (List.length matched)
             (sum_amounts (map g_bet_amount matched))
             (sum_amounts (map g_win_amount matched)), d2)
  end.

(** *** stats (the admin command); [None]: the handler returns at once *)
Definition stats (from_id : Z) (now : Z) (d : db) : option stats_report :=
  if negb (existsb (Z.eqb from_id) ADMIN_IDS) then None
  else
    let matched := filter (fun t => now - one_day <=? t_created_at t) (transactions d) in
    Some {| sr_users :=
              List.length (fold_left add_to_set (map t_user_id matched) []);
            sr_deposits :=
              sum_amounts (map (fun t => if String.eqb (t_type t) "deposit"
                                         then t_amount t else 0%Q) matched);
            sr_withdraws :=
              sum_amounts (map (fun t => if String.eqb (t_type t) "withdraw"
                                         then t_amount t else 0%Q) matched);
            sr_transactions := List.length matched |}.

(** *** The handlers, await by await

    Each handler again, cut at its awaits.  Run alone, a task does what the
    definition above says of the handler (the lemmas named ..._alone). *)

Definition start_task (from_id : Z) (from_username : option string) (now : Z)
  : task unit :=
  let* _ := Users_update_one_upsert (JInt from_id)
              (fun u => {| user_id := user_id u; balance := balance u;
                           username := from_username; created_at := created_at u;
                           last_active := now |})
              {| user_id := JInt from_id; balance := 0;
                 username := from_username; created_at := now;
                 last_active := now |} in
  Return tt.

Definition game_play_task (req : play_request) (now : Z) : task play_response :=
  let* _ := Elsewhere in
  let game_type := match gameType req with Some g => g | None => "slots" end in
  match betAmount req with
  | None => Return PlayRaised
  | Some bet_amount =>
      match initData req with
      | None => Return (PlayError 403 "Invalid authentication")
      | Some init_data =>
          if String.eqb init_data "" || negb (validate_telegram_data init_data) then
            Return (PlayError 403 "Invalid authentication")
          else
            let uid := extract_user_id init_data in
            if negb (truthy uid) then Return (PlayError 400 "Invalid user")
            else if negb (Qle_bool (1#10) bet_amount && Qle_bool bet_amount MAX_BET) then
              Return (PlayError 400 "Invalid bet amount")
            else
              let* user := Users_find_one uid in
              match user with
              | None => Return (PlayError 400 "Insufficient balance")
              | Some user =>
                  if Qltb (balance user) bet_amount then
                    Return (PlayError 400 "Insufficient balance")
                  else
                    let* _ := Users_update_one uid (inc_balance (Qopp bet_amount)) in
                    let* result := Process_game game_type bet_amount in
                    let* _ := Users_update_one uid (inc_balance (win_amount result)) in
                    let* _ := Games_history_insert_one
                                {| g_user_id := uid; g_game_type := game_type;
                                   g_bet_amount := bet_amount;
                                   g_win_amount := win_amount result;
                                   g_result := result; g_created_at := now |} in
                    let* new_balance := Users_find_one uid in
                    match new_balance with
                    | Some new_balance => Return (PlayOk result (balance new_balance))
                    | None => Return PlayRaised
                    end
              end
      end
  end.

Definition process_deposit_task (from_id : Z) (text_amount : option Q)
    (reply : gw invoice_created) (now : Z) : task deposit_answer :=
  match text_amount with
  | None => Return DepositNotANumber
  | Some amount =>
      if Qltb amount MIN_DEPOSIT then Return DepositBelowMinimum
      else
        let* _ := Elsewhere in
        match reply with
        | GwRaised => Return DepositRaised
        | GwNotJson => Return DepositNotANumber
        | GwReply invoice =>
            if ic_ok invoice then
              let* stored := Transactions_insert_one
                               {| t_user_id := JInt from_id; t_type := "deposit";
                                  t_amount := amount; t_status := "pending";
                                  t_invoice_id :=
                                    Some (jval_of_id (ic_invoice_id invoice));
                                  t_check_url := None; t_created_at := now |} in
              if stored then
                Return (DepositInvoiceCreated
                          ("check_dep_" ++ format_id (ic_invoice_id invoice))%string)
              else Return DepositRaised
            else Return DepositGatewayError
        end
  end.

Definition check_deposit_task (from_id : Z) (data : string)
    (reply : gw invoices_reply) : task check_answer :=
  match nth_error (split_on "_"%char data) 2 with
  | None => Return CheckRaised
  | Some invoice_id =>
      let* _ := Elsewhere in
      match reply with
      | GwRaised => Return CheckRaised
      | GwNotJson => Return CheckRaised
      | GwReply result =>
          if ir_ok result then
            match ir_items result with
            | [] => Return CheckRaised
            | invoice :: _ =>
                if String.eqb (ii_status invoice) "paid" then
                  match ii_amount invoice with
                  | None => Return CheckRaised
                  | Some amount =>
                      let* found := Transactions_find_one
                                      (completed_invoice_is (JStr invoice_id)) in
                      match found with
                      | Some _ => Return (CheckCredited amount)
                      | None =>
                          let* _ := Users_update_one (JInt from_id)
                                      (inc_balance amount) in
                          let* _ := Transactions_update_one
                                      (invoice_is (JStr invoice_id))
                                      (set_status "completed") in
                          Return (CheckCredited amount)
                      end
                  end
                else Return CheckWaiting
            end
          else Return CheckGatewayError
      end
  end.

Definition process_withdraw_task (from_id : Z) (text_amount : option Q)
    (reply : gw check_created) (now : Z) : task withdraw_answer :=
  match text_amount with
  | None => Return WithdrawNotANumber
  | Some amount =>
      let uid := JInt from_id in
      let* user_data := Users_find_one uid in
      if Qltb amount MIN_WITHDRAW then Return WithdrawBelowMinimum
      else
        match user_data with
        | None => Return WithdrawRaised
        | Some user =>
            if Qltb (balance user) amount then Return WithdrawInsufficient
            else
              let* _ := Elsewhere in
              match reply with
              | GwRaised => Return WithdrawRaised
              | GwNotJson => Return WithdrawNotANumber
              | GwReply check =>
                  if cc_ok check then
                    let* _ := Users_update_one uid (inc_balance (Qopp amount)) in
                    let* stored := Transactions_insert_one
                                     {| t_user_id := uid; t_type := "withdraw";
                                        t_amount := amount; t_status := "completed";
                                        t_invoice_id := None;
                                        t_check_url := Some (cc_bot_check_url check);
                                        t_created_at := now |} in
                    if stored then Return (WithdrawDone (cc_bot_check_url check))
                    else Return WithdrawRaised
                  else Return WithdrawGatewayError
              end
        end
  end.

(** [None]: an exception leaves the handler (the insert of the account is
    refused when another handler created it in between). *)
Definition webapp_init_task (init_data : option string) (time : clock)
  : task (option webapp_response) :=
  let* _ := Elsewhere in
  match init_data with
  | None => Return (Some (WebappError 403 "Invalid authentication"))
  | Some init_data =>
      if String.eqb init_data "" || negb (validate_telegram_data init_data) then
        Return (Some (WebappError 403 "Invalid authentication"))
      else
        let uid := extract_user_id init_data in
        if negb (truthy uid) then Return (Some (WebappError 400 "Invalid user"))
        else
          let (t_active, time) := utcnow time in
          let figures := fun (user_data : user_doc) (time : clock) =>
            let (t_stats, _) := utcnow time in
            let* matched := Games_history_aggregate
                              (fun g => jval_eqb (g_user_id g) uid
                                        && (t_stats - seven_days <? g_created_at g)) in
            Return (Some (WebappOk (balance user_data) (username user_data)
                            (List.length matched)
                            (sum_amounts (map g_bet_amount matched))
                            (sum_amounts (map g_win_amount matched)))) in
          let* _ := Users_update_one uid
                      (fun u => {| user_id := user_id u; balance := balance u;
                                   username := username u; created_at := created_at u;
                                   last_active := t_active |}) in
          let* user_data := Users_find_one uid in
          match user_data with
          | Some u => figures u time
          | None =>
              let (t_created, time) := utcnow time in
              let (t_last, time) := utcnow time in
              let u := {| user_id := uid; balance := 0;
                          username := Some ("user_" ++ py_str uid)%string;
                          created_at := t_created; last_active := t_last |} in
              let* stored := Users_insert_one u in
              if stored then figures u time else Return None
          end
  end.

(** A handler that starts, on any input. *)
Inductive handler : running -> Prop :=
| handler_start : forall from_id name now,
    handler (Running (start_task from_id name now))
| handler_webapp_init : forall init_data time,
    handler (Running (webapp_init_task init_data time))
| handler_game_play : forall req now,
    handler (Running (game_play_task req now))
| handler_process_deposit : forall from_id text_amount reply now,
    handler (Running (process_deposit_task from_id text_amount reply now))
| handler_check_deposit : forall from_id data reply,
    handler (Running (check_deposit_task from_id data reply))
| handler_process_withdraw : forall from_id text_amount reply now,
    handler (Running (process_withdraw_task from_id text_amount reply now)).

(** *** Account ids in the users collection

    No two accounts answer to the same id: a later account never matches
    the id of an earlier one. *)
Definition ids_distinct (us : list user_doc) : Prop :=
  ForallOrdPairs (fun earlier later => jval_eqb earlier later = false) (map user_id us).

(** *** Handlers one at a time

    One step is one run of a handler from its start to its end, on any
    input, with no other handler in between.  The gateway is trusted for
    one thing: the amount of an invoice it reports is not negative. *)

Definition nonneg_balances (d : db) : Prop :=
  Forall (fun u => (0 <= balance u)%Q) (users d).

Definition amounts_nonneg (reply : gw invoices_reply) : Prop :=
  match reply with
  | GwRaised => True
  | GwNotJson => True
  | GwReply r =>
      Forall (fun i => match ii_amount i with
                       | Some a => (0 <= a)%Q
                       | None => True
                       end) (ir_items r)
  end.

Inductive step : db -> db -> Prop :=
| step_start : forall from_id name now d,
    step d (start from_id name now d)
| step_game_play : forall req now random d,
    step d (snd (fst (game_play req now random d)))
| step_process_deposit : forall from_id text_amount reply now d,
    step d (snd (process_deposit from_id text_amount reply now d))
| step_check_deposit : forall from_id data reply d,
    amounts_nonneg reply ->
    step d (snd (check_deposit from_id data reply d))
| step_process_withdraw : forall from_id text_amount reply now d,
    step d (snd (process_withdraw from_id text_amount reply now d)).

Inductive reachable (d0 : db) : db -> Prop :=
| reachable_here : reachable d0 d0
| reachable_step : forall d d', reachable d0 d -> step d d' -> reachable d0 d'.

(** *** The canonical text as the specification words it

    Fields other than the signature, sorted lexicographically by key, each
    written key=value, joined with newline. *)

Fixpoint insert_by_key (kv : string * string) (l : list (string * string))
  : list (string * string) :=
  match l with
  | [] => [kv]
  | kv' :: l' =>
      if String.leb (fst kv) (fst kv') then kv :: l else kv' :: insert_by_key kv l'
  end.

Definition data_check_string_by_key (init_data : string) : string :=
  let data := snd (dict_pop (dict (parse_qsl init_data)) "hash" "") in
  join newline
    (map (fun kv => (fst kv ++ "=" ++ snd kv)%string)
         (fold_right insert_by_key [] data)).

(** The order of the fields by name. *)
Definition by_key (a b : string * string) : Prop := String.leb (fst a) (fst b) = true.

(** * Properties *)

(** ** Game Engine *)

Lemma randint_range (a b : Z) (random : rng) :
  a <= b -> a <= fst (randint a b random) <= b.
Proof.
  intros Hab. unfold randint, next_raw. simpl.
  pose proof (Z.mod_pos_bound (rng_draws random (rng_pos random)) (b - a + 1)).
  lia.
Qed.

Lemma randint_advances (a b : Z) (random : rng) :
  snd (randint a b random)
  = {| rng_draws := rng_draws random; rng_pos := S (rng_pos random) |}.
Proof. reflexivity. Qed.

Lemma reel_index_cases (i : Z) :
  0 <= i <= 5 -> i = 0 \/ i = 1 \/ i = 2 \/ i = 3 \/ i = 4 \/ i = 5.
Proof. lia. Qed.

Ltac payout_leaf :=
  solve [ repeat split; try reflexivity; try discriminate;
          try (left; reflexivity); try (right; reflexivity);
          try (intros [? ?]; discriminate) ].

Ltac payout_case :=
  first [ left; payout_leaf | right; payout_case | payout_leaf ].

(** Payout table of the reels, for the six symbols by their position. *)
Lemma slots_multiplier_table (i0 i1 i2 : Z) :
  0 <= i0 <= 5 -> 0 <= i1 <= 5 -> 0 <= i2 <= 5 ->
  let r0 := nth (Z.to_nat i0) symbols "" in
  let r1 := nth (Z.to_nat i1) symbols "" in
  let r2 := nth (Z.to_nat i2) symbols "" in
  let m := slots_multiplier r0 r1 r2 in
  In r0 symbols /\ In r1 symbols /\ In r2 symbols
  /\ ((r0 = r1 /\ r1 = r2 /\ r0 = "7️⃣" /\ m = 10#1)
      \/ (r0 = r1 /\ r1 = r2 /\ r0 = "💎" /\ m = 5#1)
      \/ (r0 = r1 /\ r1 = r2 /\ r0 <> "7️⃣" /\ r0 <> "💎" /\ m = 3#1)
      \/ ((r0 = r1 \/ r1 = r2) /\ ~ (r0 = r1 /\ r1 = r2) /\ m = 3#2)
      \/ (r0 <> r1 /\ r1 <> r2 /\ m = 0#1)).
Proof.
  intros H0 H1 H2.
  destruct (reel_index_cases i0 H0) as [-> | [-> | [-> | [-> | [-> | ->]]]]];
  destruct (reel_index_cases i1 H1) as [-> | [-> | [-> | [-> | [-> | ->]]]]];
  destruct (reel_index_cases i2 H2) as [-> | [-> | [-> | [-> | [-> | ->]]]]];
  cbv zeta;
  (split; [ simpl; tauto | split; [ simpl; tauto | split; [ simpl; tauto | ] ] ]);
  vm_compute; payout_case.
Qed.

(** C6. For every bet and every stream the slots game takes the next three
    draws of the stream and shows, on reel k, the symbol that draw k
    selects among the six (position draw mod 6, as [randint(0, 5)] lands);
    it pays: 10 for three 7️⃣, 5 for three 💎, 3 for any other triple, 1.5
    when the first two or the last two reels match (the outer two alone do
    not count) and 0 otherwise; the win is the bet times the multiplier,
    and a bet of 10 on three 💎 wins 50. *)
Theorem slots_game_payout (bet_amount : Q) (random : rng) :
  let res := fst (slots_game bet_amount random) in
  let reel := fun k : nat =>
    nth (Z.to_nat (rng_draws random (k + rng_pos random)%nat mod 6)) symbols "" in
  List.length symbols = 6%nat
  /\ snd (slots_game bet_amount random)
     = {| rng_draws := rng_draws random; rng_pos := (3 + rng_pos random)%nat |}
  /\ details res = Reels [reel 0%nat; reel 1%nat; reel 2%nat]
  /\ multiplier res = slots_multiplier (reel 0%nat) (reel 1%nat) (reel 2%nat)
  /\ rng_pos (snd (slots_game bet_amount random)) = (3 + rng_pos random)%nat
  /\ (exists r0 r1 r2,
        details res = Reels [r0; r1; r2]
        /\ In r0 symbols /\ In r1 symbols /\ In r2 symbols
        /\ ((r0 = r1 /\ r1 = r2 /\ r0 = "7️⃣" /\ multiplier res = 10#1)
            \/ (r0 = r1 /\ r1 = r2 /\ r0 = "💎" /\ multiplier res = 5#1)
            \/ (r0 = r1 /\ r1 = r2 /\ r0 <> "7️⃣" /\ r0 <> "💎"
                /\ multiplier res = 3#1)
            \/ ((r0 = r1 \/ r1 = r2) /\ ~ (r0 = r1 /\ r1 = r2)
                /\ multiplier res = 3#2)
            \/ (r0 <> r1 /\ r1 <> r2 /\ multiplier res = 0#1)))
  /\ win_amount res = Qmult bet_amount (multiplier res)
  /\ details (fst (slots_game (10#1) Sample.stream_fours)) = Reels ["💎"; "💎"; "💎"]
  /\ win_amount (fst (slots_game (10#1) Sample.stream_fours)) = 50#1.
Proof.
  cbv zeta. split; [reflexivity |]. split; [reflexivity |].
  split; [reflexivity |]. split; [reflexivity |]. split; [reflexivity |].
  split; [| split; [reflexivity | split; reflexivity]].
  unfold slots_game.
  pose proof (randint_range 0 5 random ltac:(lia)) as H0.
  destruct (randint 0 (Z.of_nat (List.length symbols) - 1) random) as [i0 random1] eqn:E0.
  change (Z.of_nat (List.length symbols) - 1) with 5 in *.
  rewrite E0 in H0. simpl fst in H0.
  pose proof (randint_range 0 5 random1 ltac:(lia)) as H1.
  destruct (randint 0 5 random1) as [i1 random2] eqn:E1. simpl fst in H1.
  pose proof (randint_range 0 5 random2 ltac:(lia)) as H2.
  destruct (randint 0 5 random2) as [i2 random3] eqn:E2. simpl fst in H2.
  cbn [fst details multiplier].
  exists (nth (Z.to_nat i0) symbols ""), (nth (Z.to_nat i1) symbols ""),
         (nth (Z.to_nat i2) symbols "").
  split; [reflexivity |].
  exact (slots_multiplier_table i0 i1 i2 H0 H1 H2).
Qed.

Lemma random_random_unit (random : rng) :
  (0 <= fst (random_random random))%Q /\ (fst (random_random random) < 1)%Q.
Proof.
  unfold random_random, next_raw. simpl.
  pose proof (Z.mod_pos_bound (rng_draws random (rng_pos random)) 9007199254740992
                ltac:(lia)) as H.
  unfold Qle, Qlt. simpl. lia.
Qed.

(** C7. For every bet and every stream the roulette win flag is the event
    that the draw from the unit interval falls below the float 0.48: of
    the 2^53 equally spaced values the draw can take, the 4323455642275676
    lowest win, a share that is below 48/100 by less than 2^-54.  The flag
    is the same for any drawn number, and so is the multiplier: 2 with a
    win of twice the bet when the flag is set, 0 with no win otherwise. *)
Theorem roulette_game_win (bet_amount : Q) (random : rng) :
  let res := fst (roulette_game bet_amount random) in
  let number := fst (randint 0 36 random) in
  let u := fst (random_random (snd (randint 0 36 random))) in
  details res = Wheel number (roulette_color number)
  /\ 0 <= number <= 36
  /\ (0 <= u)%Q /\ (u < 1)%Q
  /\ is_win res = Qltb u float_0_48
  /\ (is_win res = true
      <-> rng_draws random (S (rng_pos random)) mod 9007199254740992
          < 4323455642275676)
  /\ (float_0_48 <= 48#100)%Q
  /\ ((48#100) - float_0_48 < 1 # 18014398509481984)%Q
  /\ (is_win res = true /\ (u < float_0_48)%Q /\ multiplier res = 2#1
        /\ (win_amount res == 2 * bet_amount)%Q
      \/ is_win res = false /\ (float_0_48 <= u)%Q /\ multiplier res = 0#1
        /\ (win_amount res == 0)%Q)
  /\ win_amount res = Qmult bet_amount (multiplier res)
  /\ (forall (bet' : Q) (first_draw : Z),
        let random' :=
          {| rng_draws := fun n => if Nat.eqb n (rng_pos random) then first_draw
                                   else rng_draws random n;
             rng_pos := rng_pos random |} in
        is_win (fst (roulette_game bet' random')) = is_win res
        /\ multiplier (fst (roulette_game bet' random')) = multiplier res).
Proof.
  cbv zeta.
  pose proof (randint_range 0 36 random ltac:(lia)) as Hn.
  pose proof (random_random_unit (snd (randint 0 36 random))) as [Hu0 Hu1].
  unfold roulette_game.
  destruct (randint 0 36 random) as [number random1] eqn:E.
  cbn [fst snd] in *.
  destruct (random_random random1) as [u random2] eqn:Eu.
  cbn [fst snd details multiplier win_amount is_win] in *.
  assert (Hu : u = (rng_draws random (S (rng_pos random)) mod 9007199254740992)
                   # 9007199254740992).
  { unfold randint, next_raw in E. inversion E; subst random1.
    unfold random_random, next_raw in Eu. cbn [rng_draws rng_pos] in Eu.
    inversion Eu. reflexivity. }
  repeat (split; [ first [ reflexivity | assumption | lia ] |]).
  split.
  { rewrite Hu. unfold Qltb, float_0_48, Qle_bool. cbn [Qnum Qden].
    rewrite negb_true_iff, Z.leb_gt. lia. }
  split; [unfold float_0_48, Qle; simpl; lia |].
  split; [unfold float_0_48, Qlt; simpl; lia |].
  split.
  - unfold Qltb. destruct (Qle_bool float_0_48 u) eqn:Hle; simpl.
    + right. apply Qle_bool_iff in Hle. repeat split; try assumption.
      ring.
    + left. repeat split.
      * apply Qnot_le_lt. intro Hc. apply Qle_bool_iff in Hc. congruence.
      * ring.
  - split; [reflexivity |].
    intros bet' first_draw.
    unfold randint, next_raw in E |- *. cbn [rng_draws rng_pos] in *.
    inversion E; subst random1. clear E.
    unfold random_random, next_raw in Eu |- *. cbn [rng_draws rng_pos] in *.
    inversion Eu; subst u. clear Eu.
    rewrite Nat.eqb_refl.
    replace (Nat.eqb (S (rng_pos random)) (rng_pos random)) with false
      by (symmetry; apply Nat.eqb_neq; lia).
    cbn [fst is_win multiplier]. split; reflexivity.
Qed.

(** C9. A game type that is neither 'slots' nor 'roulette' is played as
    slots: same result, same use of the stream. *)
Theorem process_game_fallback (game_type : string) (bet_amount : Q) (random : rng) :
  game_type <> "slots" -> game_type <> "roulette" ->
  process_game game_type bet_amount random = slots_game bet_amount random.
Proof.
  intros Hs Hr. unfold process_game.
  destruct (String.eqb game_type "slots") eqn:E1; [reflexivity |].
  destruct (String.eqb game_type "roulette") eqn:E2; [| reflexivity].
  apply String.eqb_eq in E2. contradiction.
Qed.

(** ** Ledger Store *)

Section StoreLemmas.

Context {A : Type}.
Variables (p : A -> bool) (f : A -> A).

Lemma update_one_no_match (l : list A) :
  find_one p l = None -> update_one p f l = l.
Proof.
  induction l as [| x l IH]; simpl; [reflexivity |].
  destruct (p x); [discriminate |]. intros H. now rewrite IH.
Qed.

Lemma find_one_update_one (l : list A) :
  (forall x, p (f x) = p x) ->
  find_one p (update_one p f l) = option_map f (find_one p l).
Proof.
  intros Hp. induction l as [| x l IH]; simpl; [reflexivity |].
  destruct (p x) eqn:E; simpl.
  - rewrite Hp, E. reflexivity.
  - rewrite E. exact IH.
Qed.

Lemma find_one_update_one_other (q : A -> bool) (l : list A) :
  (forall x, q (f x) = q x) ->
  (forall x, p x = true -> q x = false) ->
  find_one q (update_one p f l) = find_one q l.
Proof.
  intros Hq Hpq. induction l as [| x l IH]; simpl; [reflexivity |].
  destruct (p x) eqn:E; simpl.
  - rewrite Hq, (Hpq x E). reflexivity.
  - destruct (q x); [reflexivity | exact IH].
Qed.

Lemma update_one_Forall (P : A -> Prop) (l : list A) :
  Forall P l ->
  (forall x, find_one p l = Some x -> P (f x)) ->
  Forall P (update_one p f l).
Proof.
  induction l as [| x l IH]; simpl; intros HF Hx; [constructor |].
  inversion HF as [| y l' Hy Hl]; subst.
  destruct (p x) eqn:E.
  - constructor; [apply Hx; reflexivity | assumption].
  - constructor; [assumption | apply IH; assumption].
Qed.

Lemma find_one_some_match (l : list A) (x : A) :
  find_one p l = Some x -> In x l /\ p x = true.
Proof.
  induction l as [| y l IH]; simpl; [discriminate |].
  destruct (p y) eqn:E.
  - intros H. inversion H; subst. auto.
  - intros H. destruct (IH H). auto.
Qed.

Lemma find_one_none_iff (l : list A) :
  find_one p l = None <-> forall x, In x l -> p x = false.
Proof.
  induction l as [| y l IH]; simpl.
  - split; [intros _ x [] | reflexivity].
  - destruct (p y) eqn:E.
    + split; [discriminate |]. intros H. specialize (H y (or_introl eq_refl)). congruence.
    + rewrite IH. split.
      * intros H x [<- | Hx]; auto.
      * intros H x Hx. apply H. auto.
Qed.

End StoreLemmas.

Lemma Qltb_false (a b : Q) : Qltb a b = false <-> (b <= a)%Q.
Proof.
  unfold Qltb. rewrite negb_false_iff. apply Qle_bool_iff.
Qed.

Lemma Qltb_true (a b : Q) : Qltb a b = true <-> (a < b)%Q.
Proof.
  unfold Qltb. rewrite negb_true_iff. split.
  - intros H. apply Qnot_le_lt. intro Hc. apply Qle_bool_iff in Hc. congruence.
  - intros H. destruct (Qle_bool b a) eqn:E; [| reflexivity].
    apply Qle_bool_iff in E. exfalso. exact (Qlt_not_le _ _ H E).
Qed.

Lemma jval_eqb_int (v : jval) (z : Z) : jval_eqb v (JInt z) = true -> v = JInt z.
Proof.
  destruct v; simpl; try discriminate. intros H. apply Z.eqb_eq in H. now subst.
Qed.

Lemma jval_eqb_int_other (z : Z) (v : jval) :
  v <> JInt z -> jval_eqb (JInt z) v = false.
Proof.
  destruct v; simpl; try reflexivity. intros H. apply Z.eqb_neq. congruence.
Qed.

Lemma slots_multiplier_nonneg (r0 r1 r2 : string) :
  (0 <= slots_multiplier r0 r1 r2)%Q.
Proof.
  unfold slots_multiplier.
  repeat match goal with
         | |- context [if ?b then _ else _] => destruct b
         end; unfold Qle; simpl; lia.
Qed.

Lemma process_game_win (game_type : string) (bet_amount : Q) (random : rng) :
  let res := fst (process_game game_type bet_amount random) in
  win_amount res = Qmult bet_amount (multiplier res) /\ (0 <= multiplier res)%Q.
Proof.
  cbv zeta. unfold process_game.
  assert (Hs : win_amount (fst (slots_game bet_amount random))
               = Qmult bet_amount (multiplier (fst (slots_game bet_amount random)))
               /\ (0 <= multiplier (fst (slots_game bet_amount random)))%Q).
  { unfold slots_game.
    destruct (randint 0 (Z.of_nat (List.length symbols) - 1) random) as [i0 r1].
    destruct (randint 0 (Z.of_nat (List.length symbols) - 1) r1) as [i1 r2].
    destruct (randint 0 (Z.of_nat (List.length symbols) - 1) r2) as [i2 r3].
    cbn [fst win_amount multiplier]. split; [reflexivity |].
    apply slots_multiplier_nonneg. }
  destruct (String.eqb game_type "slots"); [exact Hs |].
  destruct (String.eqb game_type "roulette"); [| exact Hs].
  unfold roulette_game.
  destruct (randint 0 36 random) as [number r1].
  destruct (random_random r1) as [u r2].
  cbn [fst win_amount multiplier]. split; [reflexivity |].
  destruct (Qltb u float_0_48); unfold Qle; simpl; lia.
Qed.

(** ** Settlement Engine *)

(** C2. A play request that passes authentication and amount validation,
    from a user whose balance covers the bet, answers with the result of
    the game for that variant, bet and stream, and leaves the balance at
    balance before, minus the bet, plus the win amount; the win amount is
    the bet times the multiplier of the drawn outcome. *)
Theorem game_play_balance (init_data : string) (game_type : option string)
    (bet_amount : Q) (now : Z) (random : rng) (d : db) (user : user_doc) :
  init_data <> "" ->
  validate_telegram_data init_data = true ->
  truthy (extract_user_id init_data) = true ->
  (1#10 <= bet_amount)%Q -> (bet_amount <= MAX_BET)%Q ->
  find_one (user_is (extract_user_id init_data)) (users d) = Some user ->
  (bet_amount <= balance user)%Q ->
  let req := {| initData := Some init_data; gameType := game_type;
                betAmount := Some bet_amount |} in
  let played :=
    process_game (match game_type with Some g => g | None => "slots" end)
                 bet_amount random in
  exists (d' : db) (user' : user_doc),
    game_play req now random d = (PlayOk (fst played) (balance user'), d', snd played)
    /\ find_one (user_is (extract_user_id init_data)) (users d') = Some user'
    /\ balance user' = (balance user - bet_amount + win_amount (fst played))%Q
    /\ win_amount (fst played) = (bet_amount * multiplier (fst played))%Q.
Proof.
  intros Hne Hval Htruthy Hmin Hmax Hfind Hbal. cbv zeta.
  unfold game_play. cbn [betAmount initData gameType].
  replace (String.eqb init_data "") with false
    by (symmetry; apply String.eqb_neq; exact Hne).
  rewrite Hval, Htruthy. cbn [orb negb].
  apply Qle_bool_iff in Hmin. apply Qle_bool_iff in Hmax.
  rewrite Hmin, Hmax. cbn [andb negb].
  rewrite Hfind.
  apply Qltb_false in Hbal. rewrite Hbal.
  set (gt := match game_type with Some g => g | None => "slots" end).
  pose proof (process_game_win gt bet_amount random) as [Hwin _].
  destruct (process_game gt bet_amount random) as [result random'] eqn:Eg.
  cbn [fst snd] in *. cbn [with_users with_games_history users games_history].
  rewrite !find_one_update_one by reflexivity.
  rewrite Hfind. cbn [option_map].
  eexists. eexists. split; [reflexivity |].
  split.
  - cbn [with_users with_games_history users games_history].
    rewrite !find_one_update_one by reflexivity. rewrite Hfind. reflexivity.
  - split; [reflexivity | exact Hwin].
Qed.

(** C10. The first confirmation of a paid invoice credits the amount the
    gateway reports to the account of the user who pressed the button:
    that account grows by this amount and no other account changes,
    whatever user and amount the pending record of the invoice holds. *)
Theorem check_deposit_credits_caller (from_id : Z) (data invoice_id : string)
    (amount : Q) (more : list invoice_item) (d : db) :
  nth_error (split_on "_"%char data) 2 = Some invoice_id ->
  find_one (completed_invoice_is (JStr invoice_id)) (transactions d) = None ->
  let reply :=
    GwReply {| ir_ok := true;
               ir_items := {| ii_status := "paid"; ii_amount := Some amount |} :: more |} in
  let d' := snd (check_deposit from_id data reply d) in
  fst (check_deposit from_id data reply d) = CheckCredited amount
  /\ users d' = update_one (user_is (JInt from_id)) (inc_balance amount) (users d)
  /\ (forall u, find_one (user_is (JInt from_id)) (users d) = Some u ->
        find_one (user_is (JInt from_id)) (users d') = Some (inc_balance amount u)
        /\ balance (inc_balance amount u) = (balance u + amount)%Q)
  /\ (forall uid, uid <> JInt from_id ->
        find_one (user_is uid) (users d') = find_one (user_is uid) (users d)).
Proof.
  intros Hid Hnone. cbv zeta.
  unfold check_deposit. rewrite Hid. cbn [ir_ok ir_items ii_status ii_amount].
  change (String.eqb "paid" "paid") with true. cbv iota.
  rewrite Hnone. cbn [fst snd with_users with_transactions users].
  split; [reflexivity |]. split; [reflexivity |]. split.
  - intros u Hu. rewrite find_one_update_one by reflexivity.
    rewrite Hu. split; reflexivity.
  - intros uid Huid. apply find_one_update_one_other; [reflexivity |].
    intros x Hx. unfold user_is in *. apply jval_eqb_int in Hx. rewrite Hx.
    apply jval_eqb_int_other. exact Huid.
Qed.

(** A task that only reads leaves the database to the other handlers as
    it found it, turn after turn. *)
Lemma reads_only_resume (A : Type) (t : task A) (w : world) :
  reads_only t ->
  w_db (snd (resume t w)) = w_db w /\ reads_only (fst (resume t w)).
Proof.
  intros Ht. destruct Ht as [a | R c k Hc Hk]; cbn [resume].
  - split; [reflexivity | constructor].
  - assert (Hdb : w_db (snd (perform c w)) = w_db w).
    { destruct c; try discriminate; cbn [perform snd w_db]; try reflexivity.
      destruct (process_game game_type bet_amount (w_random w)). reflexivity. }
    destruct (perform c w) as [r w']. cbn [fst snd] in *.
    split; [exact Hdb | apply Hk].
Qed.

(** C4 (amended). The check is asked for before anything is written.
    When the gateway does not create it (the request raises, the body is
    not JSON, or the reply is not ok) the database, the balance with it,
    stays as it was and no withdrawal is announced; between its awaits
    the handler asks for no write at all.  For a withdrawal that got as
    far as the gateway, a reply that is not ok is answered with the
    gateway error message, while a request that raises leaves the handler
    and no answer is sent.  Whenever a run of the handler changes the
    database at all, the gateway had created a check. *)
Theorem process_withdraw_needs_check (from_id : Z) (text_amount : option Q)
    (reply : gw check_created) (now : Z) (d : db) :
  let run := process_withdraw from_id text_amount reply now d in
  ((reply = GwRaised \/ reply = GwNotJson
    \/ exists check, reply = GwReply check /\ cc_ok check = false) ->
     snd run = d /\ (forall url, fst run <> WithdrawDone url))
  /\ (forall amount user,
        text_amount = Some amount ->
        (MIN_WITHDRAW <= amount)%Q ->
        find_one (user_is (JInt from_id)) (users d) = Some user ->
        (amount <= balance user)%Q ->
        ((exists check, reply = GwReply check /\ cc_ok check = false) ->
           fst run = WithdrawGatewayError /\ withdraw_answered (fst run) = true)
        /\ (reply = GwRaised ->
             fst run = WithdrawRaised /\ withdraw_answered (fst run) = false))
  /\ (snd run <> d ->
        exists check, reply = GwReply check /\ cc_ok check = true)
  /\ ((reply = GwRaised \/ reply = GwNotJson
       \/ exists check, reply = GwReply check /\ cc_ok check = false) ->
      reads_only (process_withdraw_task from_id text_amount reply now)).
Proof.
  cbv zeta. unfold process_withdraw. split; [| split; [| split]]; cycle 3.
  { intros Hfail. unfold process_withdraw_task.
    destruct Hfail as [-> | [-> | [check [-> Hok]]]]; try rewrite Hok;
      repeat first
        [ apply reads_only_return
        | apply reads_only_call; [reflexivity | intros ?]
        | match goal with
          | |- context [match ?x with _ => _ end] => destruct x
          end
        | progress cbv zeta ]. }
  - intros Hfail.
    assert (Hreply : match reply with
                     | GwRaised | GwNotJson => True
                     | GwReply check => cc_ok check = false
                     end).
    { destruct Hfail as [-> | [-> | [check [-> Hok]]]];
        [exact I | exact I | exact Hok]. }
    clear Hfail.
    destruct text_amount as [amount |]; cbn [fst snd];
      [| split; [reflexivity | discriminate]].
    destruct (Qltb amount MIN_WITHDRAW); cbn [fst snd];
      [split; [reflexivity | discriminate] |].
    destruct (find_one (user_is (JInt from_id)) (users d)) as [user |];
      cbn [fst snd]; [| split; [reflexivity | discriminate]].
    destruct (Qltb (balance user) amount); cbn [fst snd];
      [split; [reflexivity | discriminate] |].
    destruct reply as [| | check]; cbn [fst snd];
      [split; [reflexivity | discriminate] ..|].
    rewrite Hreply. cbn [fst snd]. split; [reflexivity | discriminate].
  - intros amount user -> Hmin Hu Hle. rewrite Hu.
    replace (Qltb amount MIN_WITHDRAW) with false
      by (symmetry; apply Qltb_false; exact Hmin).
    replace (Qltb (balance user) amount) with false
      by (symmetry; apply Qltb_false; exact Hle).
    split.
    + intros [check [-> Hok]]. rewrite Hok. split; reflexivity.
    + intros ->. split; reflexivity.
  - destruct text_amount as [amount |]; cbn [snd]; [| congruence].
    destruct (Qltb amount MIN_WITHDRAW); cbn [snd]; [congruence |].
    destruct (find_one (user_is (JInt from_id)) (users d)) as [user |];
      cbn [snd]; [| congruence].
    destruct (Qltb (balance user) amount); cbn [snd]; [congruence |].
    destruct reply as [| | check]; cbn [snd]; [congruence | congruence |].
    destruct (cc_ok check) eqn:Eok; cbn [snd]; [| congruence].
    intros _. exists check. auto.
Qed.

(** Deposits are recorded under the invoice id of the gateway, and the
    unique index refuses an id that a record already holds (as the same
    JSON value): the insert fails, process_deposit raises and leaves the
    whole database as it was. *)
Theorem duplicate_reference_rejected (from_id : Z) (text_amount : option Q)
    (invoice : invoice_created) (now : Z) (d : db) :
  (exists t', In t' (transactions d)
              /\ invoice_is (jval_of_id (ic_invoice_id invoice)) t' = true) ->
  (forall t, t_invoice_id t = Some (jval_of_id (ic_invoice_id invoice)) ->
             insert_transaction t (transactions d) = None)
  /\ snd (process_deposit from_id text_amount (GwReply invoice) now d) = d
  /\ (forall data, fst (process_deposit from_id text_amount (GwReply invoice) now d)
                   <> DepositInvoiceCreated data).
Proof.
  intros [t' [Hin Hmatch]].
  assert (Hins : forall t, t_invoice_id t = Some (jval_of_id (ic_invoice_id invoice)) ->
                           insert_transaction t (transactions d) = None).
  { intros t Ht. unfold insert_transaction.
    replace (existsb (fun t0 => jval_eqb (index_key t0) (index_key t)) (transactions d))
      with true; [reflexivity |].
    symmetry. apply existsb_exists. exists t'. split; [exact Hin |].
    unfold invoice_is in Hmatch. unfold index_key. rewrite Ht.
    destruct (t_invoice_id t'); [exact Hmatch | discriminate]. }
  split; [exact Hins |].
  unfold process_deposit.
  destruct text_amount as [amount |]; [| split; [reflexivity | discriminate]].
  destruct (Qltb amount MIN_DEPOSIT); [split; [reflexivity | discriminate] |].
  destruct (ic_ok invoice); [| split; [reflexivity | discriminate]].
  rewrite Hins by reflexivity. split; [reflexivity | discriminate].
Qed.

(** ** The balance invariant *)

Lemma credit_keeps_nonneg (uid : jval) (delta : Q) (us : list user_doc) :
  (0 <= delta)%Q ->
  Forall (fun u => (0 <= balance u)%Q) us ->
  Forall (fun u => (0 <= balance u)%Q) (update_one (user_is uid) (inc_balance delta) us).
Proof.
  intros Hd HF. apply update_one_Forall; [exact HF |].
  intros x Hx. apply find_one_some_match in Hx. destruct Hx as [Hin _].
  rewrite Forall_forall in HF. specialize (HF x Hin).
  cbn [inc_balance balance]. lra.
Qed.

Lemma debit_keeps_nonneg (uid : jval) (amount : Q) (us : list user_doc) (user : user_doc) :
  find_one (user_is uid) us = Some user ->
  (amount <= balance user)%Q ->
  Forall (fun u => (0 <= balance u)%Q) us ->
  Forall (fun u => (0 <= balance u)%Q)
         (update_one (user_is uid) (inc_balance (Qopp amount)) us).
Proof.
  intros Hfind Hle HF. apply update_one_Forall; [exact HF |].
  intros x Hx. rewrite Hfind in Hx. inversion Hx; subst x.
  cbn [inc_balance balance]. lra.
Qed.

Lemma start_keeps_nonneg (from_id : Z) (name : option string) (now : Z) (d : db) :
  nonneg_balances d -> nonneg_balances (start from_id name now d).
Proof.
  unfold nonneg_balances, start. intros HF.
  destruct (find_one (user_is (JInt from_id)) (users d)) eqn:E; cbn [with_users users].
  - apply update_one_Forall; [exact HF |].
    intros x Hx. apply find_one_some_match in Hx. destruct Hx as [Hin _].
    rewrite Forall_forall in HF. exact (HF x Hin).
  - apply Forall_app. split; [exact HF |].
    constructor; [| constructor]. cbn [balance]. lra.
Qed.

Lemma game_play_keeps_nonneg (req : play_request) (now : Z) (random : rng) (d : db) :
  nonneg_balances d -> nonneg_balances (snd (fst (game_play req now random d))).
Proof.
  unfold nonneg_balances, game_play. intros HF.
  destruct (betAmount req) as [bet |]; [| exact HF].
  destruct (initData req) as [init_data |]; [| exact HF].
  destruct (String.eqb init_data "" || negb (validate_telegram_data init_data));
    [exact HF |].
  destruct (negb (truthy (extract_user_id init_data))); [exact HF |].
  destruct (Qle_bool (1 # 10) bet && Qle_bool bet MAX_BET) eqn:Ebet;
    cbn [negb]; [| exact HF].
  apply andb_prop in Ebet. destruct Ebet as [Hmin _]. apply Qle_bool_iff in Hmin.
  destruct (find_one (user_is (extract_user_id init_data)) (users d)) as [user |] eqn:Eu;
    [| exact HF].
  destruct (Qltb (balance user) bet) eqn:Ebal; [exact HF |].
  apply Qltb_false in Ebal.
  set (gt := match gameType req with Some g => g | None => "slots" end).
  pose proof (process_game_win gt bet random) as [Hwin Hm].
  destruct (process_game gt bet random) as [result random'].
  cbn [fst snd] in Hwin, Hm.
  assert (Hnonneg : Forall (fun u => (0 <= balance u)%Q)
            (update_one (user_is (extract_user_id init_data))
               (inc_balance (win_amount result))
               (update_one (user_is (extract_user_id init_data))
                  (inc_balance (Qopp bet)) (users d)))).
  { apply credit_keeps_nonneg.
    - rewrite Hwin. apply Qmult_le_0_compat; [lra | exact Hm].
    - apply (debit_keeps_nonneg _ _ _ user); assumption. }
  cbn [with_users with_games_history users].
  match goal with
  | |- context [match ?x with Some _ => _ | None => _ end] => destruct x
  end; cbn [fst snd users]; exact Hnonneg.
Qed.

Lemma process_deposit_keeps_users (from_id : Z) (text_amount : option Q)
    (reply : gw invoice_created) (now : Z) (d : db) :
  users (snd (process_deposit from_id text_amount reply now d)) = users d.
Proof.
  unfold process_deposit.
  repeat match goal with
         | |- context [match ?x with _ => _ end] => destruct x
         end; reflexivity.
Qed.

Lemma check_deposit_keeps_nonneg (from_id : Z) (data : string)
    (reply : gw invoices_reply) (d : db) :
  amounts_nonneg reply ->
  nonneg_balances d -> nonneg_balances (snd (check_deposit from_id data reply d)).
Proof.
  unfold nonneg_balances, check_deposit, amounts_nonneg. intros Hamt HF.
  destruct (nth_error (split_on "_"%char data) 2); [| exact HF].
  destruct reply as [| | result]; [exact HF | exact HF |].
  destruct (ir_ok result); [| exact HF].
  destruct (ir_items result) as [| invoice more]; [exact HF |].
  destruct (String.eqb (ii_status invoice) "paid"); [| exact HF].
  inversion Hamt as [| i l Hi _]; subst.
  destruct (ii_amount invoice) as [amount |]; [| exact HF].
  destruct (find_one _ (transactions d)); [exact HF |].
  cbn [snd with_users with_transactions users].
  apply credit_keeps_nonneg; assumption.
Qed.

Lemma process_withdraw_keeps_nonneg (from_id : Z) (text_amount : option Q)
    (reply : gw check_created) (now : Z) (d : db) :
  nonneg_balances d ->
  nonneg_balances (snd (process_withdraw from_id text_amount reply now d)).
Proof.
  unfold nonneg_balances, process_withdraw. intros HF.
  destruct text_amount as [amount |]; [| exact HF].
  destruct (Qltb amount MIN_WITHDRAW); [exact HF |].
  destruct (find_one (user_is (JInt from_id)) (users d)) as [user |] eqn:Eu;
    [| exact HF].
  destruct (Qltb (balance user) amount) eqn:Ebal; [exact HF |].
  apply Qltb_false in Ebal.
  destruct reply as [| | check]; [exact HF | exact HF |].
  destruct (cc_ok check); [| exact HF].
  assert (Hnonneg : Forall (fun u => (0 <= balance u)%Q)
            (update_one (user_is (JInt from_id)) (inc_balance (Qopp amount)) (users d))).
  { apply (debit_keeps_nonneg _ _ _ user); assumption. }
  destruct (insert_transaction _ _); cbn [snd with_users with_transactions users];
    exact Hnonneg.
Qed.

Lemma step_keeps_nonneg (d d' : db) :
  step d d' -> nonneg_balances d -> nonneg_balances d'.
Proof.
  intros Hstep HF. destruct Hstep.
  - apply start_keeps_nonneg; assumption.
  - apply game_play_keeps_nonneg; assumption.
  - unfold nonneg_balances. rewrite process_deposit_keeps_users. exact HF.
  - apply check_deposit_keeps_nonneg; assumption.
  - apply process_withdraw_keeps_nonneg; assumption.
Qed.

(** As long as no two handlers overlap, the check before each debit
    holds when the debit is made: from a ledger without negative balances,
    runs of the handlers one after another (account creation, bets,
    deposit initiation and confirmation, withdrawals) reach only ledgers
    without negative balances; there, a bet above the player's balance and
    a withdrawal above the balance are refused and leave the database as
    it was. *)
Theorem balances_nonneg_one_at_a_time (d0 d : db) :
  nonneg_balances d0 -> reachable d0 d ->
  nonneg_balances d
  /\ (forall init_data game_type bet_amount now random user,
        find_one (user_is (extract_user_id init_data)) (users d) = Some user ->
        (balance user < bet_amount)%Q ->
        exists status error,
          game_play {| initData := Some init_data; gameType := game_type;
                       betAmount := Some bet_amount |} now random d
          = (PlayError status error, d, random))
  /\ (forall from_id amount reply now user,
        find_one (user_is (JInt from_id)) (users d) = Some user ->
        (balance user < amount)%Q ->
        snd (process_withdraw from_id (Some amount) reply now d) = d
        /\ (fst (process_withdraw from_id (Some amount) reply now d)
              = WithdrawInsufficient
            \/ fst (process_withdraw from_id (Some amount) reply now d)
              = WithdrawBelowMinimum)).
Proof.
  intros H0 Hreach. split; [| split].
  - induction Hreach as [| d d' _ IH Hstep]; [exact H0 |].
    exact (step_keeps_nonneg d d' Hstep IH).
  - intros init_data game_type bet now random user Hfind Hlt.
    unfold game_play. cbn [betAmount initData gameType].
    destruct (String.eqb init_data "" || negb (validate_telegram_data init_data));
      [eauto |].
    destruct (negb (truthy (extract_user_id init_data))); [eauto |].
    destruct (negb (Qle_bool (1 # 10) bet && Qle_bool bet MAX_BET)); [eauto |].
    rewrite Hfind. apply Qltb_true in Hlt. rewrite Hlt. eauto.
  - intros from_id amount reply now user Hfind Hlt.
    unfold process_withdraw.
    destruct (Qltb amount MIN_WITHDRAW); [cbn [fst snd]; auto |].
    rewrite Hfind. apply Qltb_true in Hlt. rewrite Hlt. cbn [fst snd]. auto.
Qed.

(** ** Identity Verifier *)

Lemma insert_sorted_perm (x : string) (l : list string) :
  Permutation (x :: l) (insert_sorted x l).
Proof.
  induction l as [| y l IH]; simpl; [apply Permutation_refl |].
  destruct (String.leb x y); [apply Permutation_refl |].
  eapply Permutation_trans; [apply perm_swap |].
  apply perm_skip. exact IH.
Qed.

Lemma sorted_perm (l : list string) : Permutation l (sorted l).
Proof.
  induction l as [| x l IH]; simpl; [apply Permutation_refl |].
  eapply Permutation_trans; [apply perm_skip; exact IH |].
  apply insert_sorted_perm.
Qed.

Lemma insert_sorted_HdRel (a x : string) (l : list string) :
  ascending a x -> HdRel ascending a l -> HdRel ascending a (insert_sorted x l).
Proof.
  intros Hax Hal. destruct l as [| y l]; simpl; [constructor; exact Hax |].
  destruct (String.leb x y); constructor; [exact Hax |].
  inversion Hal; assumption.
Qed.

Lemma insert_sorted_Sorted (x : string) (l : list string) :
  Sorted ascending l -> Sorted ascending (insert_sorted x l).
Proof.
  induction l as [| y l IH]; simpl; intros HS.
  - constructor; constructor.
  - destruct (String.leb x y) eqn:E.
    + constructor; [exact HS | constructor; exact E].
    + inversion HS as [| ? ? HSl Hhd]; subst.
      constructor; [apply IH; exact HSl |].
      apply insert_sorted_HdRel; [| exact Hhd].
      destruct (String.leb_total x y) as [H | H]; [congruence | exact H].
Qed.

Lemma sorted_Sorted (l : list string) : Sorted ascending (sorted l).
Proof.
  induction l as [| x l IH]; simpl; [constructor |].
  apply insert_sorted_Sorted. exact IH.
Qed.

(** ** Deposit confirmation when the record is found *)

Lemma mark_completed_found (v : jval) (ts : list txn_doc) :
  (exists t, In t ts /\ invoice_is v t = true) ->
  find_one (completed_invoice_is v)
           (update_one (invoice_is v) (set_status "completed") ts) <> None.
Proof.
  intros [t [Hin Ht]]. induction ts as [| x ts IH]; [destruct Hin |].
  simpl. destruct (invoice_is v x) eqn:E.
  - simpl. unfold completed_invoice_is.
    replace (invoice_is v (set_status "completed" x)) with (invoice_is v x)
      by reflexivity.
    rewrite E. simpl. discriminate.
  - simpl. destruct (completed_invoice_is v x); [discriminate |].
    apply IH. destruct Hin as [-> | Hin]; [congruence | exact Hin].
Qed.

Lemma check_deposit_first (from_id : Z) (data invoice_id : string)
    (amount : Q) (more : list invoice_item) (d : db) :
  nth_error (split_on "_"%char data) 2 = Some invoice_id ->
  find_one (completed_invoice_is (JStr invoice_id)) (transactions d) = None ->
  check_deposit from_id data
    (GwReply {| ir_ok := true;
                ir_items := {| ii_status := "paid"; ii_amount := Some amount |} :: more |})
    d
  = (CheckCredited amount,
     with_transactions
       (with_users d
          (update_one (user_is (JInt from_id)) (inc_balance amount) (users d)))
       (update_one (invoice_is (JStr invoice_id)) (set_status "completed")
          (transactions d))).
Proof.
  intros Hid Hnone. unfold check_deposit.
  rewrite Hid. cbn [ir_ok ir_items ii_status ii_amount].
  change (String.eqb "paid" "paid") with true. cbv iota.
  rewrite Hnone. reflexivity.
Qed.

(** When the pending record of a paid invoice holds the invoice id as the
    very string that the callback data carries, the first confirmation
    credits and marks the record, and a second one changes nothing. *)
Lemma check_deposit_twice_when_recorded (from_id : Z) (data invoice_id : string)
    (amount : Q) (more : list invoice_item) (d : db) :
  nth_error (split_on "_"%char data) 2 = Some invoice_id ->
  (exists t, In t (transactions d) /\ invoice_is (JStr invoice_id) t = true) ->
  find_one (completed_invoice_is (JStr invoice_id)) (transactions d) = None ->
  let reply :=
    GwReply {| ir_ok := true;
               ir_items := {| ii_status := "paid"; ii_amount := Some amount |} :: more |} in
  let d1 := snd (check_deposit from_id data reply d) in
  users d1 = update_one (user_is (JInt from_id)) (inc_balance amount) (users d)
  /\ check_deposit from_id data reply d1 = (CheckCredited amount, d1).
Proof.
  intros Hid Hrec Hnone. cbv zeta.
  rewrite (check_deposit_first from_id data invoice_id amount more d Hid Hnone).
  cbn [snd]. split; [reflexivity |].
  unfold check_deposit. rewrite Hid. cbn [ir_ok ir_items ii_status ii_amount].
  change (String.eqb "paid" "paid") with true. cbv iota.
  cbn [with_users with_transactions users transactions].
  pose proof (mark_completed_found (JStr invoice_id) (transactions d) Hrec) as Hfound.
  destruct (find_one (completed_invoice_is (JStr invoice_id))
              (update_one (invoice_is (JStr invoice_id)) (set_status "completed")
                 (transactions d))); [reflexivity | congruence].
Qed.

(** ** Further properties of the Game Engine *)

Lemma jval_eqb_refl : forall v : jval, jval_eqb v v = true.
Proof.
  fix IH 1. intros v. destruct v as [| b | z | s | xs | ms]; simpl.
  - reflexivity.
  - destruct b; reflexivity.
  - apply Z.eqb_refl.
  - apply String.eqb_refl.
  - induction xs as [| x xs IHxs]; [reflexivity |].
    rewrite (IH x). exact IHxs.
  - induction ms as [| [k x] ms IHms]; [reflexivity |].
    rewrite String.eqb_refl, (IH x). exact IHms.
Qed.

Lemma slots_game_reels (bet_amount : Q) (random : rng) :
  exists i0 i1 i2,
    0 <= i0 <= 5 /\ 0 <= i1 <= 5 /\ 0 <= i2 <= 5
    /\ i0 = rng_draws random (rng_pos random) mod 6
    /\ i1 = rng_draws random (S (rng_pos random)) mod 6
    /\ i2 = rng_draws random (S (S (rng_pos random))) mod 6
    /\ fst (slots_game bet_amount random)
       = let symbol := fun i => nth (Z.to_nat i) symbols "" in
         let m := slots_multiplier (symbol i0) (symbol i1) (symbol i2) in
         {| details := Reels [symbol i0; symbol i1; symbol i2];
            multiplier := m;
            win_amount := Qmult bet_amount m;
            is_win := Qltb bet_amount (Qmult bet_amount m) |}.
Proof.
  exists (rng_draws random (rng_pos random) mod 6),
         (rng_draws random (S (rng_pos random)) mod 6),
         (rng_draws random (S (S (rng_pos random))) mod 6).
  pose proof (Z.mod_pos_bound (rng_draws random (rng_pos random)) 6 ltac:(lia)).
  pose proof (Z.mod_pos_bound (rng_draws random (S (rng_pos random))) 6 ltac:(lia)).
  pose proof (Z.mod_pos_bound (rng_draws random (S (S (rng_pos random)))) 6 ltac:(lia)).
  repeat (split; [lia || reflexivity |]).
  reflexivity.
Qed.

(** X1. For a positive bet a spin of the slots counts as a win exactly
    when the first two or the last two reels match, and it is not a win
    exactly when it pays nothing. *)
Theorem slots_win_flag (bet_amount : Q) (random : rng) :
  (0 < bet_amount)%Q ->
  let res := fst (slots_game bet_amount random) in
  exists r0 r1 r2,
    details res = Reels [r0; r1; r2]
    /\ (is_win res = true <-> r0 = r1 \/ r1 = r2)
    /\ (is_win res = false <-> (win_amount res == 0)%Q).
Proof.
  intros Hbet. cbv zeta.
  destruct (slots_game_reels bet_amount random)
    as [i0 [i1 [i2 [H0 [H1 [H2 [_ [_ [_ Hres]]]]]]]]].
  rewrite Hres. cbv zeta. cbn [details is_win win_amount].
  pose proof (slots_multiplier_table i0 i1 i2 H0 H1 H2) as Htab. cbv zeta in Htab.
  set (r0 := nth (Z.to_nat i0) symbols "") in Htab |- *.
  set (r1 := nth (Z.to_nat i1) symbols "") in Htab |- *.
  set (r2 := nth (Z.to_nat i2) symbols "") in Htab |- *.
  exists r0, r1, r2. split; [reflexivity |].
  destruct Htab as [_ [_ [_ Htab]]].
  assert (Hpay : forall m, (1 < m)%Q -> Qltb bet_amount (bet_amount * m) = true).
  { intros m Hm. apply Qltb_true.
    setoid_replace bet_amount with (bet_amount * 1)%Q at 1 by ring.
    apply Qmult_lt_l; assumption. }
  assert (Hnot : Qltb bet_amount (bet_amount * (0#1)) = false).
  { apply Qltb_false. setoid_replace (bet_amount * (0#1))%Q with 0%Q by ring.
    apply Qlt_le_weak. exact Hbet. }
  assert (Hpos : forall m, (1 < m)%Q -> ~ (bet_amount * m == 0)%Q).
  { intros m Hm Hz.
    assert (0 < bet_amount * m)%Q.
    { apply Qmult_lt_0_compat; [exact Hbet |].
      apply Qlt_trans with 1%Q; [reflexivity | exact Hm]. }
    rewrite Hz in H. exact (Qlt_irrefl 0 H). }
  destruct Htab as [[E1 [E2 [_ Hm]]] | [[E1 [E2 [_ Hm]]] | [[E1 [E2 [_ [_ Hm]]]] |
                   [[Hpair [_ Hm]] | [N1 [N2 Hm]]]]]]; rewrite Hm.
  - rewrite (Hpay (10#1) eq_refl). split; split; auto; try discriminate.
    intros Hz. exfalso. exact (Hpos (10#1) eq_refl Hz).
  - rewrite (Hpay (5#1) eq_refl). split; split; auto; try discriminate.
    intros Hz. exfalso. exact (Hpos (5#1) eq_refl Hz).
  - rewrite (Hpay (3#1) eq_refl). split; split; auto; try discriminate.
    intros Hz. exfalso. exact (Hpos (3#1) eq_refl Hz).
  - rewrite (Hpay (3#2) eq_refl). split; split; auto; try discriminate.
    intros Hz. exfalso. exact (Hpos (3#2) eq_refl Hz).
  - rewrite Hnot. split; split; try discriminate; auto.
    + intros [E | E]; contradiction.
    + intros _. ring.
Qed.

Lemma in_all_spins (i0 i1 i2 : Z) :
  0 <= i0 <= 5 -> 0 <= i1 <= 5 -> 0 <= i2 <= 5 -> In [i0; i1; i2] all_spins.
Proof.
  intros H0 H1 H2.
  assert (Hin : forall i, 0 <= i <= 5 -> In i [0; 1; 2; 3; 4; 5]).
  { intros i Hi. simpl. lia. }
  unfold all_spins. apply in_flat_map. exists i0. split; [auto |].
  apply in_flat_map. exists i1. split; [auto |].
  apply in_map_iff. exists i2. split; [reflexivity | auto].
Qed.

Lemma sum_amounts_scale (A : Type) (f : A -> Q) (c : Q) (l : list A) :
  (sum_amounts (map (fun x => c * f x) l) == c * sum_amounts (map f l))%Q.
Proof.
  induction l as [| x l IH]; simpl; [ring |]. rewrite IH. ring.
Qed.

(** X2. The reels can stop in 216 ways, every spin is one of them, and
    over the 216 the multipliers add up to 117: for a bet b the wins add up
    to 117 b, a mean return of 117/216 of the bet. *)
Theorem slots_mean_multiplier :
  List.length all_spins = 216%nat
  /\ (forall bet_amount random,
        exists spin, In spin all_spins
          /\ fst (slots_game bet_amount random)
             = fst (slots_game bet_amount (stream_of spin)))
  /\ (forall bet_amount,
        (sum_amounts
           (map (fun spin => win_amount (fst (slots_game bet_amount (stream_of spin))))
                all_spins)
         == (117#1) * bet_amount)%Q).
Proof.
  split; [reflexivity |]. split.
  - intros bet random.
    destruct (slots_game_reels bet random)
      as [i0 [i1 [i2 [H0 [H1 [H2 [E0 [E1 [E2 Hres]]]]]]]]].
    exists [i0; i1; i2]. split; [apply in_all_spins; assumption |].
    rewrite Hres.
    destruct (slots_game_reels bet (stream_of [i0; i1; i2]))
      as [j0 [j1 [j2 [_ [_ [_ [F0 [F1 [F2 Hres']]]]]]]]].
    rewrite Hres'. cbn [stream_of rng_draws rng_pos nth] in F0, F1, F2.
    rewrite Z.mod_small in F0, F1, F2 by lia. subst j0 j1 j2. reflexivity.
  - intros bet.
    assert (Hw : forall spin,
               win_amount (fst (slots_game bet (stream_of spin)))
               = (bet * multiplier (fst (slots_game (1#1) (stream_of spin))))%Q).
    { intros spin. reflexivity. }
    rewrite (map_ext _ _ Hw).
    rewrite (sum_amounts_scale _
               (fun spin => multiplier (fst (slots_game (1#1) (stream_of spin)))) bet).
    assert (Hsum : (sum_amounts
                      (map (fun spin => multiplier (fst (slots_game (1#1) (stream_of spin))))
                           all_spins) == 117#1)%Q).
    { vm_compute. reflexivity. }
    rewrite Hsum. ring.
Qed.

(** ** Further properties of the Identity Verifier *)

Lemma sha_round_length (st : list Z) (kw : Z * Z) :
  List.length st = 8%nat -> List.length (Sha256.round st kw) = 8%nat.
Proof.
  intros H. do 9 (destruct st as [| ? st]; try discriminate H). reflexivity.
Qed.

Lemma sha_rounds_length (kws : list (Z * Z)) (st : list Z) :
  List.length st = 8%nat -> List.length (fold_left Sha256.round kws st) = 8%nat.
Proof.
  revert st. induction kws as [| kw kws IH]; intros st H; simpl; [exact H |].
  apply IH. apply sha_round_length. exact H.
Qed.

Lemma sha_compress_length (st block : list Z) :
  List.length st = 8%nat -> List.length (Sha256.compress st block) = 8%nat.
Proof.
  intros H. unfold Sha256.compress.
  rewrite length_map, length_combine, sha_rounds_length, H by exact H. reflexivity.
Qed.

Lemma sha_blocks_length (bs : list (list Z)) (st : list Z) :
  List.length st = 8%nat -> List.length (fold_left Sha256.compress bs st) = 8%nat.
Proof.
  revert st. induction bs as [| b bs IH]; intros st H; simpl; [exact H |].
  apply IH. apply sha_compress_length. exact H.
Qed.

Lemma be_bytes_bytes (width : nat) (v : Z) :
  Forall (fun b => 0 <= b < 256) (Sha256.be_bytes width v).
Proof.
  unfold Sha256.be_bytes. apply Forall_map. apply Forall_forall. intros i _.
  change 255 with (Z.ones 8). rewrite Z.land_ones by lia.
  apply Z.mod_pos_bound. reflexivity.
Qed.

Lemma be_bytes_length (width : nat) (v : Z) :
  List.length (Sha256.be_bytes width v) = width.
Proof.
  unfold Sha256.be_bytes. rewrite length_map, length_rev, length_seq. reflexivity.
Qed.

Lemma sha256_digest (msg : list Z) :
  List.length (Sha256.sha256 msg) = 32%nat
  /\ Forall (fun b => 0 <= b < 256) (Sha256.sha256 msg).
Proof.
  unfold Sha256.sha256.
  set (st := fold_left Sha256.compress _ Sha256.initial_state).
  assert (Hst : List.length st = 8%nat) by (apply sha_blocks_length; reflexivity).
  clearbody st. split.
  - do 9 (destruct st as [| ? st]; try discriminate Hst).
    cbn [flat_map]. rewrite !length_app, !be_bytes_length. reflexivity.
  - clear Hst. induction st as [| w st IH]; cbn [flat_map]; [constructor |].
    apply Forall_app. split; [apply be_bytes_bytes | exact IH].
Qed.

Lemma hex_digit_lower (d : Z) : 0 <= d < 16 -> is_lower_hex (hex_digit d) = true.
Proof.
  intros H.
  assert (Hd : d = 0 \/ d = 1 \/ d = 2 \/ d = 3 \/ d = 4 \/ d = 5 \/ d = 6 \/ d = 7
               \/ d = 8 \/ d = 9 \/ d = 10 \/ d = 11 \/ d = 12 \/ d = 13 \/ d = 14
               \/ d = 15) by lia.
  repeat (destruct Hd as [-> | Hd]; [reflexivity |]). subst. reflexivity.
Qed.

Lemma hex_of_bytes_shape (bs : list Z) :
  Forall (fun b => 0 <= b < 256) bs ->
  String.length (hex_of_bytes bs) = (2 * List.length bs)%nat
  /\ all_chars is_lower_hex (hex_of_bytes bs) = true.
Proof.
  induction 1 as [| b bs Hb _ [IHlen IHhex]]; [split; reflexivity |].
  cbn [hex_of_bytes String.length List.length all_chars]. split.
  - rewrite IHlen. lia.
  - rewrite !hex_digit_lower, IHhex; [reflexivity | |].
    + apply Z.mod_pos_bound. lia.
    + split; [apply Z.div_pos; lia | apply Z.div_lt_upper_bound; lia].
Qed.

(** X3. The hash computed for a credential is always 64 digits of
    lower-case hexadecimal.  A credential is therefore rejected when it
    has no hash field or an empty one, and whenever its hash field is not
    64 lower-case hexadecimal digits (upper-case digits do not pass). *)
Theorem calculated_hash_shape (init_data : string) :
  String.length (calculated_hash init_data) = 64%nat
  /\ all_chars is_lower_hex (calculated_hash init_data) = true
  /\ (validate_telegram_data init_data = true ->
        String.length (received_hash init_data) = 64%nat
        /\ all_chars is_lower_hex (received_hash init_data) = true)
  /\ (dict_get (dict (parse_qsl init_data)) "hash" "" = "" ->
        validate_telegram_data init_data = false).
Proof.
  assert (Hshape : String.length (calculated_hash init_data) = 64%nat
                   /\ all_chars is_lower_hex (calculated_hash init_data) = true).
  { unfold calculated_hash, hmac_sha256.
    match goal with
    | |- context [hex_of_bytes (Sha256.sha256 ?m)] =>
        destruct (sha256_digest m) as [Hlen Hbytes];
        destruct (hex_of_bytes_shape _ Hbytes) as [H1 H2];
        rewrite Hlen in H1
    end.
    split; assumption. }
  destruct Hshape as [Hlen Hhex].
  split; [exact Hlen |]. split; [exact Hhex |]. split.
  - unfold validate_telegram_data. intros H. apply String.eqb_eq in H.
    rewrite <- H. split; assumption.
  - intros Hnone. unfold validate_telegram_data, received_hash, dict_pop.
    cbn [fst]. rewrite Hnone. apply String.eqb_neq. intros Heq.
    rewrite Heq in Hlen. discriminate Hlen.
Qed.

Lemma string_leb_trans (s1 s2 s3 : string) :
  String.leb s1 s2 = true -> String.leb s2 s3 = true -> String.leb s1 s3 = true.
Proof.
  unfold String.leb. revert s2 s3.
  induction s1 as [| a s1 IH]; intros [| b s2] [| c s3]; simpl;
    try reflexivity; try discriminate.
  unfold Ascii.compare.
  destruct (N.compare_spec (N_of_ascii a) (N_of_ascii b));
  destruct (N.compare_spec (N_of_ascii b) (N_of_ascii c));
  destruct (N.compare_spec (N_of_ascii a) (N_of_ascii c));
    try reflexivity; try discriminate; try lia.
  apply IH.
Qed.

Lemma ascending_sorted_unique (l1 l2 : list string) :
  StronglySorted ascending l1 -> StronglySorted ascending l2 ->
  Permutation l1 l2 -> l1 = l2.
Proof.
  intros H1. revert l2. induction H1 as [| x l1 Hs1 IH Hx]; intros l2 H2 Hp.
  - apply Permutation_nil in Hp. now subst.
  - destruct H2 as [| y l2 Hs2 Hy].
    + apply Permutation_sym, Permutation_nil in Hp. discriminate.
    + assert (Hxy : x = y).
      { assert (Hin1 : In x (y :: l2)) by (eapply Permutation_in; [exact Hp | left; reflexivity]).
        assert (Hin2 : In y (x :: l1))
          by (eapply Permutation_in; [apply Permutation_sym; exact Hp | left; reflexivity]).
        destruct Hin1 as [-> | Hin1]; [reflexivity |].
        destruct Hin2 as [-> | Hin2]; [reflexivity |].
        rewrite Forall_forall in Hx, Hy.
        apply String.leb_antisym; [apply Hx | apply Hy]; assumption. }
      subst y. f_equal. apply IH; [exact Hs2 |].
      eapply Permutation_cons_inv. exact Hp.
Qed.

Lemma sorted_of_permutation (l1 l2 : list string) :
  Permutation l1 l2 -> sorted l1 = sorted l2.
Proof.
  intros Hp.
  assert (Htrans : Relations_1.Transitive ascending).
  { intros a b c. apply string_leb_trans. }
  apply ascending_sorted_unique.
  - apply Sorted_StronglySorted; [exact Htrans | apply sorted_Sorted].
  - apply Sorted_StronglySorted; [exact Htrans | apply sorted_Sorted].
  - eapply Permutation_trans; [apply Permutation_sym, sorted_perm |].
    eapply Permutation_trans; [exact Hp | apply sorted_perm].
Qed.

(** X4. The order in which a credential lists its fields does not
    matter: two credentials whose fields other than the hash are the same
    up to order have the same canonical text, and with the same hash they
    are both accepted or both rejected. *)
Theorem validate_field_order (a b : string) :
  Permutation (dict_remove (dict (parse_qsl a)) "hash")
              (dict_remove (dict (parse_qsl b)) "hash") ->
  received_hash a = received_hash b ->
  data_check_string a = data_check_string b
  /\ validate_telegram_data a = validate_telegram_data b.
Proof.
  intros Hp Hh.
  assert (Hd : data_check_string a = data_check_string b).
  { unfold data_check_string, dict_pop. cbn [snd]. f_equal.
    apply sorted_of_permutation. apply Permutation_map. exact Hp. }
  split; [exact Hd |].
  unfold validate_telegram_data, calculated_hash. rewrite Hd, Hh. reflexivity.
Qed.

Lemma split_on_pieces (sep : ascii) (s : string) : split_on sep s <> [].
Proof.
  destruct s as [| c s]; simpl; [discriminate |].
  destruct (Ascii.eqb c sep); [discriminate |].
  destruct (split_on sep s); discriminate.
Qed.

Lemma split_on_app (sep : ascii) (a b : string) :
  split_on sep (a ++ String sep b) = split_on sep a ++ split_on sep b.
Proof.
  induction a as [| c a IH]; simpl.
  - rewrite Ascii.eqb_refl. reflexivity.
  - destruct (Ascii.eqb c sep); [rewrite IH; reflexivity |].
    rewrite IH. pose proof (split_on_pieces sep a) as Hne.
    destruct (split_on sep a); [contradiction | reflexivity].
Qed.

Lemma split_on_absent (sep : ascii) (s : string) :
  has_char sep s = false -> split_on sep s = [s].
Proof.
  induction s as [| c s IH]; simpl; [reflexivity |].
  intros H. apply orb_false_elim in H. destruct H as [Hc Hs].
  rewrite Hc, (IH Hs). reflexivity.
Qed.

Lemma split_first_absent (sep : ascii) (s : string) :
  has_char sep s = false -> split_first sep s = None.
Proof.
  induction s as [| c s IH]; simpl; [reflexivity |].
  intros H. apply orb_false_elim in H. destruct H as [Hc Hs].
  rewrite Hc, (IH Hs). reflexivity.
Qed.

Lemma split_first_blank (sep : ascii) (key : string) :
  has_char sep key = false ->
  split_first sep (key ++ String sep EmptyString) = Some (key, EmptyString).
Proof.
  induction key as [| c key IH]; simpl.
  - rewrite Ascii.eqb_refl. reflexivity.
  - intros H. apply orb_false_elim in H. destruct H as [Hc Hs].
    rewrite Hc, (IH Hs). reflexivity.
Qed.

Lemma has_char_app (c : ascii) (a b : string) :
  has_char c (a ++ b) = has_char c a || has_char c b.
Proof.
  induction a as [| x a IH]; simpl; [reflexivity |].
  rewrite IH. apply orb_assoc.
Qed.

(** X5. A piece without an equals sign, or with nothing after it, that
    is appended to a credential is dropped by the parser: the fields, the
    verdict of the verification and the extracted user id are those of the
    credential without the piece. *)
Theorem blank_fields_ignored (init_data piece : string) :
  has_char "&"%char piece = false ->
  has_char "="%char piece = false
  \/ (exists key, has_char "="%char key = false /\ piece = (key ++ "=")%string) ->
  let longer := (init_data ++ String "&"%char piece)%string in
  parse_qsl longer = parse_qsl init_data
  /\ validate_telegram_data longer = validate_telegram_data init_data
  /\ extract_user_id longer = extract_user_id init_data.
Proof.
  intros Hamp Hpiece. cbv zeta.
  assert (Hparse : parse_qsl (init_data ++ String "&"%char piece) = parse_qsl init_data).
  { unfold parse_qsl. rewrite split_on_app, flat_map_app, (split_on_absent _ _ Hamp).
    cbn [flat_map].
    destruct Hpiece as [Heq | [key [Hkey ->]]].
    - rewrite (split_first_absent _ _ Heq). rewrite !app_nil_r. reflexivity.
    - rewrite (split_first_blank _ _ Hkey). cbn. rewrite !app_nil_r. reflexivity. }
  split; [exact Hparse |].
  unfold validate_telegram_data, calculated_hash, data_check_string, received_hash,
         extract_user_id.
  rewrite Hparse. split; reflexivity.
Qed.

Lemma dict_set_keys (d : list (string * string)) (k v : string) :
  map fst (dict_set d k v)
  = if existsb (String.eqb k) (map fst d) then map fst d else map fst d ++ [k].
Proof.
  induction d as [| [k' v'] d IH]; simpl; [reflexivity |].
  rewrite (String.eqb_sym k k').
  destruct (String.eqb k' k); simpl; [reflexivity |].
  rewrite IH. destruct (existsb (String.eqb k) (map fst d)); reflexivity.
Qed.

Lemma dict_set_nodup (d : list (string * string)) (k v : string) :
  NoDup (map fst d) -> NoDup (map fst (dict_set d k v)).
Proof.
  intros H. rewrite dict_set_keys.
  destruct (existsb (String.eqb k) (map fst d)) eqn:E; [exact H |].
  apply NoDup_app; [exact H | constructor; [intros [] | constructor] |].
  intros x Hx [Heq | []]. subst x.
  assert (existsb (String.eqb k) (map fst d) = true).
  { apply existsb_exists. exists k. split; [exact Hx | apply String.eqb_refl]. }
  congruence.
Qed.

Lemma dict_nodup (pairs : list (string * string)) : NoDup (map fst (dict pairs)).
Proof.
  unfold dict.
  assert (H : forall d, NoDup (map fst d) ->
                        NoDup (map fst (fold_left
                                 (fun d kv => dict_set d (fst kv) (snd kv)) pairs d))).
  { induction pairs as [| kv pairs IH]; intros d Hd; simpl; [exact Hd |].
    apply IH. apply dict_set_nodup. exact Hd. }
  apply H. constructor.
Qed.

Lemma dict_get_in (d : list (string * string)) (k v default : string) :
  NoDup (map fst d) -> In (k, v) d -> dict_get d k default = v.
Proof.
  induction d as [| [k' v'] d IH]; simpl; intros Hnd Hin; [destruct Hin |].
  inversion Hnd as [| ? ? Hnotin Hnd']; subst.
  destruct Hin as [Heq | Hin].
  - inversion Heq; subst. rewrite String.eqb_refl. reflexivity.
  - destruct (String.eqb k' k) eqn:E.
    + apply String.eqb_eq in E. subst k'. exfalso. apply Hnotin.
      apply in_map_iff. exists (k, v). split; [reflexivity | exact Hin].
    + apply IH; assumption.
Qed.

(** X6. The user payload that [extract_user_id] decodes is the one the
    signature covers: when the credential has a user field, its value is a
    line user=value of the canonical text and the id comes from decoding
    that very value. *)
Theorem decoded_user_is_signed (init_data payload : string) :
  In ("user", payload) (dict (parse_qsl init_data)) ->
  In ("user=" ++ payload)%string
     (sorted (map (fun kv => (fst kv ++ "=" ++ snd kv)%string)
                  (dict_remove (dict (parse_qsl init_data)) "hash")))
  /\ data_check_string init_data
     = join newline
         (sorted (map (fun kv => (fst kv ++ "=" ++ snd kv)%string)
                      (dict_remove (dict (parse_qsl init_data)) "hash")))
  /\ extract_user_id init_data
     = match json_loads payload with
       | Some (JObj user_data) => obj_get user_data "id"
       | _ => JNull
       end.
Proof.
  intros Hin. split; [| split; [reflexivity |]].
  - eapply Permutation_in; [apply sorted_perm |].
    apply in_map_iff. exists ("user", payload). split; [reflexivity |].
    unfold dict_remove. apply filter_In. split; [exact Hin | reflexivity].
  - unfold extract_user_id.
    rewrite (dict_get_in _ "user" payload "{}" (dict_nodup _) Hin). reflexivity.
Qed.

(** ** The canonical text, by key *)

Lemma insert_by_key_perm (kv : string * string) (l : list (string * string)) :
  Permutation (kv :: l) (insert_by_key kv l).
Proof.
  induction l as [| y l IH]; simpl; [apply Permutation_refl |].
  destruct (String.leb (fst kv) (fst y)); [apply Permutation_refl |].
  eapply Permutation_trans; [apply perm_swap |].
  apply perm_skip. exact IH.
Qed.

Lemma fields_by_key_perm (l : list (string * string)) :
  Permutation l (fold_right insert_by_key [] l).
Proof.
  induction l as [| x l IH]; simpl; [apply Permutation_refl |].
  eapply Permutation_trans; [apply perm_skip; exact IH |].
  apply insert_by_key_perm.
Qed.

Lemma insert_by_key_Sorted (x : string * string) (l : list (string * string)) :
  Sorted by_key l -> Sorted by_key (insert_by_key x l).
Proof.
  induction l as [| y l IH]; simpl; intros HS.
  - constructor; constructor.
  - destruct (String.leb (fst x) (fst y)) eqn:E.
    + constructor; [exact HS | constructor; exact E].
    + inversion HS as [| ? ? HSl Hhd]; subst.
      assert (Hyx : by_key y x).
      { unfold by_key.
        destruct (String.leb_total (fst x) (fst y)) as [H | H]; [congruence | exact H]. }
      constructor; [apply IH; exact HSl |].
      destruct l as [| z l]; simpl; [constructor; exact Hyx |].
      destruct (String.leb (fst x) (fst z)); constructor; [exact Hyx |].
      inversion Hhd; assumption.
Qed.

Lemma fields_by_key_Sorted (l : list (string * string)) :
  StronglySorted by_key (fold_right insert_by_key [] l).
Proof.
  apply Sorted_StronglySorted.
  - intros a b c Hab Hbc. exact (string_leb_trans _ _ _ Hab Hbc).
  - induction l as [| x l IH]; simpl; [constructor |].
    apply insert_by_key_Sorted. exact IH.
Qed.

(** Two lines are in the order of their field names when the names differ
    and the later name has no character at or below the equals sign. *)
Lemma key_order_line_order (k1 k2 v1 v2 : string) :
  all_chars after_equals k2 = true -> k1 <> k2 ->
  String.leb k1 k2 = true ->
  String.leb (k1 ++ "=" ++ v1) (k2 ++ "=" ++ v2) = true.
Proof.
  unfold String.leb. revert k2.
  induction k1 as [| c1 k1 IH]; intros [| c2 k2] Hgood Hne Hle; simpl in *.
  - congruence.
  - apply andb_prop in Hgood. destruct Hgood as [Hc _].
    unfold after_equals, Ascii.ltb in Hc.
    destruct (Ascii.compare "=" c2); try discriminate. reflexivity.
  - discriminate.
  - apply andb_prop in Hgood. destruct Hgood as [_ Hgood].
    destruct (Ascii.compare c1 c2) eqn:E; [| reflexivity | exact Hle].
    apply Ascii.compare_eq_iff in E. subst c2.
    apply IH; [exact Hgood | congruence | exact Hle].
Qed.

Lemma lines_by_key_ascending (l : list (string * string)) :
  StronglySorted by_key l -> NoDup (map fst l) ->
  Forall (fun kv => all_chars after_equals (fst kv) = true) l ->
  StronglySorted ascending (map (fun kv => (fst kv ++ "=" ++ snd kv)%string) l).
Proof.
  induction 1 as [| x l Hs IH Hx]; intros Hnd Hgood; simpl; [constructor |].
  inversion Hnd as [| ? ? Hnotin Hnd']; subst.
  inversion Hgood as [| ? ? _ Hgood']; subst.
  constructor; [apply IH; assumption |].
  apply Forall_forall. intros line Hline.
  apply in_map_iff in Hline. destruct Hline as [y [<- Hy]].
  rewrite Forall_forall in Hx, Hgood'.
  apply key_order_line_order; [apply Hgood'; exact Hy | | apply Hx; exact Hy].
  intros Heq. apply Hnotin. rewrite Heq. apply in_map. exact Hy.
Qed.

Lemma filter_keys_nodup (f : string * string -> bool) (l : list (string * string)) :
  NoDup (map fst l) -> NoDup (map fst (filter f l)).
Proof.
  induction l as [| x l IH]; simpl; intros Hnd; [constructor |].
  inversion Hnd as [| ? ? Hnotin Hnd']; subst.
  destruct (f x); simpl; [| apply IH; exact Hnd'].
  constructor; [| apply IH; exact Hnd'].
  intros Hin. apply Hnotin. apply in_map_iff in Hin.
  destruct Hin as [y [Hy Hiny]]. apply filter_In in Hiny.
  rewrite <- Hy. apply in_map. tauto.
Qed.

(** For field names that sort after the equals sign, the text the code
    signs is the one that lists the fields by key. *)
Lemma data_check_string_is_by_key (init_data : string) :
  Forall (fun kv => all_chars after_equals (fst kv) = true)
         (dict_remove (dict (parse_qsl init_data)) "hash") ->
  data_check_string init_data = data_check_string_by_key init_data.
Proof.
  intros Hgood. unfold data_check_string, data_check_string_by_key, dict_pop.
  cbn [snd]. f_equal.
  set (data := dict_remove (dict (parse_qsl init_data)) "hash") in *.
  apply ascending_sorted_unique.
  - apply Sorted_StronglySorted; [| apply sorted_Sorted].
    intros a b c Hab Hbc. exact (string_leb_trans _ _ _ Hab Hbc).
  - apply lines_by_key_ascending.
    + apply fields_by_key_Sorted.
    + eapply Permutation_NoDup.
      * apply Permutation_map. apply fields_by_key_perm.
      * apply filter_keys_nodup. apply dict_nodup.
    + eapply Permutation_Forall; [apply fields_by_key_perm | exact Hgood].
  - eapply Permutation_trans; [apply Permutation_sym, sorted_perm |].
    apply Permutation_map. apply fields_by_key_perm.
Qed.

(** C8 (amended). For a credential whose field names sort after the
    equals sign (letters and underscore, as all the names Telegram sends)
    the canonical text lists the key=value lines of the fields other than
    the hash by key, joined with newline, and the credential is accepted
    exactly when its hash field equals the lower-case hex HMAC-SHA256 of
    that text under the key HMAC-SHA256("WebAppData", bot token).  So a
    credential with a wrong signature is rejected, and one with changed
    fields is rejected whenever the change alters the keyed hash.  The
    user id is the id member of the JSON object in the user field, of
    whatever type it is; it is None when the field does not decode, or
    decodes to something that is not an object.  The verdict is the
    ordinary equality of the two hash strings. *)
Theorem validate_telegram_data_signature (init_data : string) :
  let keyed_hash := fun text : string =>
    hex_of_bytes
      (hmac_sha256
         (hmac_sha256 (bytes_of_string "WebAppData") (bytes_of_string BOT_TOKEN))
         (bytes_of_string text)) in
  let payload := dict_get (dict (parse_qsl init_data)) "user" "{}" in
  Forall (fun kv => all_chars after_equals (fst kv) = true)
         (dict_remove (dict (parse_qsl init_data)) "hash") ->
  calculated_hash init_data = keyed_hash (data_check_string_by_key init_data)
  /\ validate_telegram_data init_data
     = String.eqb (keyed_hash (data_check_string_by_key init_data))
                  (received_hash init_data)
  /\ (validate_telegram_data init_data = true <->
        received_hash init_data = keyed_hash (data_check_string_by_key init_data))
  /\ (forall other,
        validate_telegram_data init_data = true ->
        calculated_hash other = calculated_hash init_data ->
        received_hash other <> received_hash init_data ->
        validate_telegram_data other = false)
  /\ (forall other,
        validate_telegram_data init_data = true ->
        received_hash other = received_hash init_data ->
        calculated_hash other <> calculated_hash init_data ->
        validate_telegram_data other = false)
  /\ (forall user_data,
        json_loads payload = Some (JObj user_data) ->
        extract_user_id init_data = obj_get user_data "id")
  /\ (json_loads payload = None -> extract_user_id init_data = JNull)
  /\ (forall v, json_loads payload = Some v -> (forall ms, v <> JObj ms) ->
                extract_user_id init_data = JNull).
Proof.
  cbv zeta. intros Hgood.
  assert (Hcalc : calculated_hash init_data
                  = hex_of_bytes
                      (hmac_sha256
                         (hmac_sha256 (bytes_of_string "WebAppData")
                                      (bytes_of_string BOT_TOKEN))
                         (bytes_of_string (data_check_string_by_key init_data)))).
  { unfold calculated_hash, secret_key.
    rewrite (data_check_string_is_by_key init_data Hgood). reflexivity. }
  split; [exact Hcalc |].
  split; [unfold validate_telegram_data; rewrite Hcalc; reflexivity |].
  split.
  { unfold validate_telegram_data. rewrite Hcalc, String.eqb_eq.
    split; intros H; symmetry; exact H. }
  split.
  { intros other Hval Hsame Hrecv. unfold validate_telegram_data in *.
    apply String.eqb_eq in Hval. apply String.eqb_neq.
    rewrite Hsame, Hval. congruence. }
  split.
  { intros other Hval Hrecv Hother. unfold validate_telegram_data in *.
    apply String.eqb_eq in Hval. apply String.eqb_neq.
    rewrite Hrecv, <- Hval. exact Hother. }
  split.
  { intros user_data Hjson. unfold extract_user_id. rewrite Hjson. reflexivity. }
  split.
  { intros Hjson. unfold extract_user_id. rewrite Hjson. reflexivity. }
  intros v Hjson Hobj. unfold extract_user_id. rewrite Hjson.
  destruct v as [| x | x | x | xs | ms]; try reflexivity.
  exfalso. exact (Hobj ms eq_refl).
Qed.

(** ** Further properties of the Ledger Store and the Settlement Engine *)

Lemma find_one_app_last (A : Type) (p : A -> bool) (l : list A) (x : A) :
  find_one p (l ++ [x])
  = match find_one p l with
    | Some y => Some y
    | None => if p x then Some x else None
    end.
Proof.
  induction l as [| y l IH]; simpl; [reflexivity |].
  destruct (p y); [reflexivity | exact IH].
Qed.

Lemma update_one_fixed (A : Type) (p : A -> bool) (f : A -> A) (l : list A) :
  (forall x, find_one p l = Some x -> f x = x) -> update_one p f l = l.
Proof.
  induction l as [| y l IH]; simpl; intros H; [reflexivity |].
  destruct (p y).
  - rewrite (H y eq_refl). reflexivity.
  - rewrite (IH H). reflexivity.
Qed.

Lemma update_one_ids (p : user_doc -> bool) (f : user_doc -> user_doc)
    (us : list user_doc) :
  (forall u, user_id (f u) = user_id u) ->
  map user_id (update_one p f us) = map user_id us.
Proof.
  intros Hf. induction us as [| u us IH]; simpl; [reflexivity |].
  destruct (p u); simpl; [rewrite Hf; reflexivity | rewrite IH; reflexivity].
Qed.

Lemma ordered_pairs_snoc (A : Type) (R : A -> A -> Prop) (l : list A) (x : A) :
  ForallOrdPairs R l -> Forall (fun a => R a x) l -> ForallOrdPairs R (l ++ [x]).
Proof.
  induction 1 as [| a l Ha Hl IH]; simpl; intros Hx.
  - constructor; constructor.
  - inversion Hx; subst. constructor.
    + apply Forall_app. split; [exact Ha | constructor; [assumption | constructor]].
    + apply IH. assumption.
Qed.

Lemma absent_id (uid : jval) (us : list user_doc) :
  find_one (user_is uid) us = None ->
  Forall (fun a => jval_eqb a uid = false) (map user_id us).
Proof.
  induction us as [| u us IH]; simpl; [constructor |].
  unfold user_is at 1. destruct (jval_eqb (user_id u) uid) eqn:E; [discriminate |].
  intros H. constructor; [exact E | exact (IH H)].
Qed.

Lemma ids_distinct_lookup (us : list user_doc) (u : user_doc) :
  ids_distinct us -> In u us -> find_one (user_is (user_id u)) us = Some u.
Proof.
  unfold ids_distinct. induction us as [| a us IH]; simpl; intros Hd Hin; [destruct Hin |].
  inversion Hd as [| ? ? Ha Hrest]; subst.
  destruct Hin as [-> | Hin].
  - unfold user_is. rewrite jval_eqb_refl. reflexivity.
  - unfold user_is at 1.
    rewrite Forall_forall in Ha.
    rewrite (Ha (user_id u) (in_map user_id us u Hin)).
    apply IH; assumption.
Qed.

(** X7. The start command gives its user an account: a new one with a
    zero balance when there was none, the old one with its balance kept
    otherwise; the name and the time of the visit are recorded, no other
    account changes, and repeating the command changes nothing more. *)
Theorem start_account (from_id : Z) (name : option string) (now : Z) (d : db) :
  let d' := start from_id name now d in
  (exists u, find_one (user_is (JInt from_id)) (users d') = Some u
     /\ balance u = match find_one (user_is (JInt from_id)) (users d) with
                    | Some u0 => balance u0
                    | None => 0%Q
                    end
     /\ username u = name /\ last_active u = now)
  /\ (forall uid, uid <> JInt from_id ->
        find_one (user_is uid) (users d') = find_one (user_is uid) (users d))
  /\ start from_id name now d' = d'
  /\ transactions d' = transactions d
  /\ games_history d' = games_history d.
Proof.
  cbv zeta.
  assert (Hfound : exists u,
             find_one (user_is (JInt from_id)) (users (start from_id name now d)) = Some u
             /\ balance u = match find_one (user_is (JInt from_id)) (users d) with
                            | Some u0 => balance u0
                            | None => 0%Q
                            end
             /\ username u = name /\ last_active u = now).
  { unfold start.
    destruct (find_one (user_is (JInt from_id)) (users d)) as [u0 |] eqn:E;
      cbn [with_users users].
    - rewrite find_one_update_one by reflexivity. rewrite E. cbn [option_map].
      eexists. split; [reflexivity |]. repeat split.
    - rewrite find_one_app_last, E. unfold user_is at 1. cbn [user_id].
      rewrite jval_eqb_refl. eexists. split; [reflexivity |]. repeat split. }
  split; [exact Hfound |]. split; [| split].
  - intros uid Huid. unfold start.
    destruct (find_one (user_is (JInt from_id)) (users d)) eqn:E; cbn [with_users users].
    + apply find_one_update_one_other; [reflexivity |].
      intros x Hx. unfold user_is in *. apply jval_eqb_int in Hx. rewrite Hx.
      apply jval_eqb_int_other. exact Huid.
    + rewrite find_one_app_last. unfold user_is at 2. cbn [user_id].
      rewrite (jval_eqb_int_other from_id uid Huid).
      destruct (find_one (user_is uid) (users d)); reflexivity.
  - destruct Hfound as [u [Hu [_ [Hname Hlast]]]].
    unfold start at 1. rewrite Hu.
    rewrite update_one_fixed.
    + destruct (start from_id name now d); reflexivity.
    + intros x Hx. rewrite Hu in Hx. inversion Hx; subst x.
      destruct u; cbn in *. subst. reflexivity.
  - unfold start.
    destruct (find_one (user_is (JInt from_id)) (users d)); split; reflexivity.
Qed.

(** ** Handlers in flight *)

Ltac run_handler :=
  repeat (cbn [run_alone perform w_db w_random fst snd utcnow user_id
               users transactions games_history
               with_users with_transactions with_games_history];
          try match goal with
              | |- context [match ?x with _ => _ end] =>
                  lazymatch x with
                  | context [match _ with _ => _ end] => fail
                  | _ => destruct x eqn:?
                  end
              end);
  first [reflexivity | congruence].

(** Run alone, each task is the handler as defined at first. *)

Lemma start_alone (from_id : Z) (name : option string) (now : Z)
    (random : rng) (d : db) :
  run_alone (start_task from_id name now) {| w_db := d; w_random := random |}
  = (tt, {| w_db := start from_id name now d; w_random := random |}).
Proof. unfold start_task, start. run_handler. Qed.

Lemma game_play_alone (req : play_request) (now : Z) (random : rng) (d : db) :
  run_alone (game_play_task req now) {| w_db := d; w_random := random |}
  = (fst (fst (game_play req now random d)),
     {| w_db := snd (fst (game_play req now random d));
        w_random := snd (game_play req now random d) |}).
Proof. unfold game_play_task, game_play. run_handler. Qed.

Lemma process_deposit_alone (from_id : Z) (text_amount : option Q)
    (reply : gw invoice_created) (now : Z) (random : rng) (d : db) :
  run_alone (process_deposit_task from_id text_amount reply now)
            {| w_db := d; w_random := random |}
  = (fst (process_deposit from_id text_amount reply now d),
     {| w_db := snd (process_deposit from_id text_amount reply now d);
        w_random := random |}).
Proof. unfold process_deposit_task, process_deposit. run_handler. Qed.

Lemma check_deposit_alone (from_id : Z) (data : string) (reply : gw invoices_reply)
    (random : rng) (d : db) :
  run_alone (check_deposit_task from_id data reply) {| w_db := d; w_random := random |}
  = (fst (check_deposit from_id data reply d),
     {| w_db := snd (check_deposit from_id data reply d); w_random := random |}).
Proof. unfold check_deposit_task, check_deposit. run_handler. Qed.

Lemma process_withdraw_alone (from_id : Z) (text_amount : option Q)
    (reply : gw check_created) (now : Z) (random : rng) (d : db) :
  run_alone (process_withdraw_task from_id text_amount reply now)
            {| w_db := d; w_random := random |}
  = (fst (process_withdraw from_id text_amount reply now d),
     {| w_db := snd (process_withdraw from_id text_amount reply now d);
        w_random := random |}).
Proof. unfold process_withdraw_task, process_withdraw. run_handler. Qed.

Lemma webapp_init_alone (init_data : option string) (time : clock)
    (random : rng) (d : db) :
  run_alone (webapp_init_task init_data time) {| w_db := d; w_random := random |}
  = (Some (fst (webapp_init init_data time d)),
     {| w_db := snd (webapp_init init_data time d); w_random := random |}).
Proof. unfold webapp_init_task, webapp_init. run_handler. Qed.

Lemma perform_ids (R : Type) (c : call R) (w : world) :
  call_keeps_ids c ->
  ids_grow (users (w_db w)) (users (w_db (snd (perform c w)))).
Proof.
  unfold ids_grow.
  destruct c; cbn [call_keeps_ids perform]; intros Hc;
    try (left; reflexivity).
  - left. cbn [snd w_db with_users users]. apply update_one_ids. exact Hc.
  - destruct Hc as [Hupdate Hid].
    destruct (find_one (user_is uid) (users (w_db w))) eqn:E;
      cbn [snd w_db with_users users].
    + left. apply update_one_ids. exact Hupdate.
    + right. exists uid. rewrite map_app. cbn [map]. rewrite Hid.
      split; [reflexivity | exact E].
  - destruct (find_one (user_is (user_id u)) (users (w_db w))) eqn:E;
      cbn [snd w_db with_users users]; [left; reflexivity |].
    right. exists (user_id u). rewrite map_app. split; [reflexivity | exact E].
  - left. destruct (insert_transaction t (transactions (w_db w))); reflexivity.
  - left. destruct (process_game game_type bet_amount (w_random w)). reflexivity.
Qed.

Lemma ids_grow_distinct (us us' : list user_doc) :
  ids_grow us us' -> ids_distinct us ->
  ids_distinct us' /\ exists later, map user_id us' = map user_id us ++ later.
Proof.
  unfold ids_distinct. intros [E | [uid [E Hnone]]] Hd; rewrite E.
  - split; [exact Hd |]. exists []. rewrite app_nil_r. reflexivity.
  - split; [| exists [uid]; reflexivity].
    apply ordered_pairs_snoc; [exact Hd | apply absent_id; exact Hnone].
Qed.

Lemma resume_running_ids (h : running) (w : world) :
  running_keeps_ids h ->
  running_keeps_ids (fst (resume_running h w))
  /\ ids_grow (users (w_db w)) (users (w_db (snd (resume_running h w)))).
Proof.
  destruct h as [A t]. cbn [running_keeps_ids resume_running].
  intros Ht. destruct Ht as [a | R c k Hc Hk]; cbn [resume].
  - split; [constructor | left; reflexivity].
  - pose proof (perform_ids R c w Hc) as Hgrow.
    destruct (perform c w) as [r w']. cbn [fst snd] in *.
    split; [apply Hk | exact Hgrow].
Qed.

Lemma replace_nth_Forall (X : Type) (P : X -> Prop) (n : nat) (x : X) (l : list X) :
  Forall P l -> P x -> Forall P (replace_nth n x l).
Proof.
  intros Hl Hx. revert n. induction Hl as [| y l Hy Hl IH]; intros n; simpl.
  - destruct n; constructor.
  - destruct n; constructor; auto.
Qed.

Lemma interleave_ids (schedule : list nat) (pool : list running) (w : world) :
  Forall running_keeps_ids pool ->
  ids_distinct (users (w_db w)) ->
  ids_distinct (users (w_db (snd (interleave schedule pool w))))
  /\ exists later,
       map user_id (users (w_db (snd (interleave schedule pool w))))
       = map user_id (users (w_db w)) ++ later.
Proof.
  revert pool w. induction schedule as [| i rest IH]; intros pool w Hpool Hd; simpl.
  - split; [exact Hd |]. exists []. rewrite app_nil_r. reflexivity.
  - destruct (nth_error pool i) as [h |] eqn:Eh; [| apply IH; assumption].
    assert (Hh : running_keeps_ids h).
    { rewrite Forall_forall in Hpool. apply Hpool.
      eapply nth_error_In. exact Eh. }
    destruct (resume_running_ids h w Hh) as [Hh' Hgrow].
    destruct (resume_running h w) as [h' w']. cbn [fst snd] in *.
    destruct (ids_grow_distinct _ _ Hgrow Hd) as [Hd' [later1 E1]].
    destruct (IH (replace_nth i h' pool) w'
                 (replace_nth_Forall _ _ i h' pool Hpool Hh') Hd')
      as [Hd'' [later2 E2]].
    split; [exact Hd'' |].
    exists (later1 ++ later2). rewrite E2, E1, app_assoc. reflexivity.
Qed.

Ltac ids_kept :=
  repeat first
    [ apply keeps_ids_return
    | apply keeps_ids_call;
      [ cbn [call_keeps_ids];
        first [ exact I | intros; reflexivity
              | split; [intros; reflexivity | reflexivity] ]
      | intros ? ]
    | match goal with
      | |- context [match ?x with _ => _ end] => destruct x
      end
    | progress cbv zeta ].

Lemma handler_keeps_ids (h : running) : handler h -> running_keeps_ids h.
Proof.
  intros Hh. destruct Hh; cbn [running_keeps_ids].
  - unfold start_task. ids_kept.
  - unfold webapp_init_task. ids_kept.
  - unfold game_play_task. ids_kept.
  - unfold process_deposit_task. ids_kept.
  - unfold check_deposit_task. ids_kept.
  - unfold process_withdraw_task. ids_kept.
Qed.

(** X8. Whatever handlers are in flight (account creation, the web
    application's start-up call, bets, deposits and their confirmation,
    withdrawals, on any input) and in whatever order the event loop
    resumes them between their awaits, accounts are never removed, no
    two accounts get the same id, and every account is the one its id
    finds. *)
Theorem accounts_stay_distinct (schedule : list nat) (pool : list running)
    (w : world) :
  Forall handler pool ->
  ids_distinct (users (w_db w)) ->
  let d' := w_db (snd (interleave schedule pool w)) in
  (exists later, map user_id (users d') = map user_id (users (w_db w)) ++ later)
  /\ ids_distinct (users d')
  /\ (forall u, In u (users d') -> find_one (user_is (user_id u)) (users d') = Some u).
Proof.
  intros Hpool Hd. cbv zeta.
  assert (Hkeeps : Forall running_keeps_ids pool).
  { eapply Forall_impl; [| exact Hpool]. exact handler_keeps_ids. }
  destruct (interleave_ids schedule pool w Hkeeps Hd) as [Hd' Hlater].
  split; [exact Hlater |]. split; [exact Hd' |].
  intros u Hin. apply ids_distinct_lookup; assumption.
Qed.

(** X9. A bet is written only when it is answered with a result: then the
    accounts keep their ids, no transaction is touched and exactly one
    round is appended, with the player, the game type, the bet, the win
    and the result of the game; any other answer leaves the database and
    the random stream as they were. *)
Theorem game_play_effects (req : play_request) (now : Z) (random : rng) (d : db) :
  let run := game_play req now random d in
  match fst (fst run) with
  | PlayOk result new_balance =>
      transactions (snd (fst run)) = transactions d
      /\ map user_id (users (snd (fst run))) = map user_id (users d)
      /\ exists init_data bet_amount,
           initData req = Some init_data /\ betAmount req = Some bet_amount
           /\ (result, snd run)
              = process_game (match gameType req with Some g => g | None => "slots" end)
                             bet_amount random
           /\ games_history (snd (fst run))
              = games_history d
                ++ [{| g_user_id := extract_user_id init_data;
                       g_game_type := match gameType req with
                                      | Some g => g
                                      | None => "slots"
                                      end;
                       g_bet_amount := bet_amount;
                       g_win_amount := win_amount result;
                       g_result := result;
                       g_created_at := now |}]
  | _ => snd (fst run) = d /\ snd run = random
  end.
Proof.
  cbv zeta. unfold game_play.
  destruct (betAmount req) as [bet |]; [| split; reflexivity].
  destruct (initData req) as [init_data |]; [| split; reflexivity].
  destruct (String.eqb init_data "" || negb (validate_telegram_data init_data));
    [split; reflexivity |].
  destruct (negb (truthy (extract_user_id init_data))); [split; reflexivity |].
  destruct (negb (Qle_bool (1 # 10) bet && Qle_bool bet MAX_BET)); [split; reflexivity |].
  destruct (find_one (user_is (extract_user_id init_data)) (users d)) as [user |] eqn:Eu;
    [| split; reflexivity].
  destruct (Qltb (balance user) bet); [split; reflexivity |].
  destruct (process_game _ bet random) as [result random'] eqn:Eg.
  cbn [with_users with_games_history users games_history transactions].
  rewrite !find_one_update_one by reflexivity. rewrite Eu. cbn [option_map fst snd].
  cbn [with_users with_games_history users games_history transactions].
  split; [reflexivity |]. split.
  - rewrite !update_one_ids by reflexivity. reflexivity.
  - exists init_data, bet. split; [reflexivity |]. split; [reflexivity |].
    split; [symmetry; exact Eg | reflexivity].
Qed.

(** X10. The order of the checks of a bet: a bet field that is not a
    number fails before anything else; then a missing, empty or wrongly
    signed credential is answered 403 whatever the bet; then a user id
    that is missing, null or zero is answered 400 Invalid user; then a bet
    outside 0.1 .. MAX_BET is answered 400 Invalid bet amount even for a
    user without an account; and a user without an account is told that
    the balance is insufficient. *)
Theorem game_play_refusals (init_data : option string) (game_type : option string)
    (bet : option Q) (now : Z) (random : rng) (d : db) :
  let req := {| initData := init_data; gameType := game_type; betAmount := bet |} in
  let run := game_play req now random d in
  (bet = None -> run = (PlayRaised, d, random))
  /\ (forall b, bet = Some b ->
        (init_data = None \/ init_data = Some ""
         \/ exists c, init_data = Some c /\ validate_telegram_data c = false) ->
        run = (PlayError 403 "Invalid authentication", d, random))
  /\ (forall b c, bet = Some b -> init_data = Some c -> c <> "" ->
        validate_telegram_data c = true ->
        (truthy (extract_user_id c) = false ->
           run = (PlayError 400 "Invalid user", d, random))
        /\ (truthy (extract_user_id c) = true ->
            ((b < 1#10)%Q \/ (MAX_BET < b)%Q ->
               run = (PlayError 400 "Invalid bet amount", d, random))
            /\ ((1#10 <= b)%Q -> (b <= MAX_BET)%Q ->
                find_one (user_is (extract_user_id c)) (users d) = None ->
                run = (PlayError 400 "Insufficient balance", d, random)))).
Proof.
  cbv zeta. unfold game_play. cbn [betAmount initData gameType].
  split; [intros ->; reflexivity |]. split.
  - intros b -> [-> | [-> | [c [-> Hval]]]]; try reflexivity.
    rewrite Hval. cbn [negb]. rewrite orb_true_r. reflexivity.
  - intros b c -> -> Hne Hval.
    replace (String.eqb c "") with false by (symmetry; apply String.eqb_neq; exact Hne).
    rewrite Hval. cbn [negb orb]. split.
    + intros ->. reflexivity.
    + intros ->. cbn [negb]. split.
      * intros Hout.
        replace (Qle_bool (1 # 10) b && Qle_bool b MAX_BET) with false; [reflexivity |].
        symmetry. apply andb_false_iff.
        destruct Hout as [Hlow | Hhigh]; [left | right];
          apply not_true_is_false; intros Hle; apply Qle_bool_iff in Hle;
          [exact (Qlt_not_le _ _ Hlow Hle) | exact (Qlt_not_le _ _ Hhigh Hle)].
      * intros Hmin Hmax Hnone.
        apply Qle_bool_iff in Hmin. apply Qle_bool_iff in Hmax.
        rewrite Hmin, Hmax, Hnone. reflexivity.
Qed.

Lemma update_one_pointwise (A : Type) (R : A -> A -> Prop) (p : A -> bool)
    (f : A -> A) (l : list A) :
  (forall x, R x x) -> (forall x, R x (f x)) -> Forall2 R l (update_one p f l).
Proof.
  intros Hrefl Hf. induction l as [| x l IH]; simpl; [constructor |].
  destruct (p x); constructor; auto.
  clear IH. induction l; constructor; auto.
Qed.

Lemma set_status_same (t : txn_doc) : set_status (t_status t) t = t.
Proof. destruct t. reflexivity. Qed.

(** X11. A deposit confirmation writes only when the gateway reports the
    invoice paid.  It never adds or removes an account, a transaction or a
    round; in the transactions it changes nothing but a status, and that
    only to completed; and with any answer other than the credit message
    the database is as it was. *)
Theorem check_deposit_effects (from_id : Z) (data : string)
    (reply : gw invoices_reply) (d : db) :
  let run := check_deposit from_id data reply d in
  games_history (snd run) = games_history d
  /\ map user_id (users (snd run)) = map user_id (users d)
  /\ Forall2 (fun t t' => set_status (t_status t) t' = t
                          /\ (t_status t' = t_status t \/ t_status t' = "completed"))
             (transactions d) (transactions (snd run))
  /\ ((forall amount, fst run <> CheckCredited amount) -> snd run = d)
  /\ (snd run <> d ->
        exists result invoice more amount,
          reply = GwReply result /\ ir_ok result = true
          /\ ir_items result = invoice :: more
          /\ ii_status invoice = "paid" /\ ii_amount invoice = Some amount).
Proof.
  cbv zeta.
  assert (Hsame : Forall2 (fun t t' => set_status (t_status t) t' = t
                             /\ (t_status t' = t_status t \/ t_status t' = "completed"))
                    (transactions d) (transactions d)).
  { induction (transactions d); constructor; auto using set_status_same. }
  assert (Hunchanged : forall answer,
             games_history (snd (answer, d)) = games_history d
             /\ map user_id (users (snd (answer, d))) = map user_id (users d)
             /\ Forall2 (fun t t' => set_status (t_status t) t' = t
                           /\ (t_status t' = t_status t \/ t_status t' = "completed"))
                         (transactions d) (transactions (snd (answer, d)))
             /\ ((forall amount : Q, fst (answer, d) <> CheckCredited amount) ->
                    snd (answer, d) = d)
             /\ (snd (answer, d) <> d ->
                    exists result invoice more amount,
                      reply = GwReply result /\ ir_ok result = true
                      /\ ir_items result = invoice :: more
                      /\ ii_status invoice = "paid" /\ ii_amount invoice = Some amount)).
  { intros answer. cbn [fst snd]. split; [reflexivity |]. split; [reflexivity |].
    split; [exact Hsame |]. split; [reflexivity |].
    intros Hc. exfalso. apply Hc. reflexivity. }
  unfold check_deposit.
  destruct (nth_error (split_on "_"%char data) 2) as [invoice_id |];
    [| apply Hunchanged].
  destruct reply as [| | result]; [apply Hunchanged | apply Hunchanged |].
  destruct (ir_ok result) eqn:Eok; [| apply Hunchanged].
  destruct (ir_items result) as [| invoice more] eqn:Eitems; [apply Hunchanged |].
  destruct (String.eqb (ii_status invoice) "paid") eqn:Epaid; [| apply Hunchanged].
  destruct (ii_amount invoice) as [amount |] eqn:Eamount; [| apply Hunchanged].
  clear Hunchanged.
  apply String.eqb_eq in Epaid.
  destruct (find_one _ (transactions d)).
  - cbn [fst snd]. split; [reflexivity |]. split; [reflexivity |].
    split; [exact Hsame |]. split; [reflexivity |].
    intros _. exists result, invoice, more, amount. auto.
  - cbn [fst snd with_users with_transactions users transactions games_history].
    split; [reflexivity |]. split; [apply update_one_ids; reflexivity |].
    split.
    + apply update_one_pointwise.
      * intros t. split; [apply set_status_same | left; reflexivity].
      * intros t. split; [destruct t; reflexivity | right; reflexivity].
    + split.
      * intros Ha. exfalso. apply (Ha amount). reflexivity.
      * intros _. exists result, invoice, more, amount. auto.
Qed.

(** X12. A confirmation pressed by a user who has no account credits
    nobody and still marks the invoice completed: after it, a confirmation
    by any user answers with the credit message and writes nothing. *)
Theorem check_deposit_without_account (from_id : Z) (data invoice_id : string)
    (amount : Q) (more : list invoice_item) (d : db) :
  nth_error (split_on "_"%char data) 2 = Some invoice_id ->
  find_one (user_is (JInt from_id)) (users d) = None ->
  (exists t, In t (transactions d) /\ invoice_is (JStr invoice_id) t = true) ->
  find_one (completed_invoice_is (JStr invoice_id)) (transactions d) = None ->
  let reply :=
    GwReply {| ir_ok := true;
               ir_items := {| ii_status := "paid"; ii_amount := Some amount |} :: more |} in
  let d1 := snd (check_deposit from_id data reply d) in
  fst (check_deposit from_id data reply d) = CheckCredited amount
  /\ users d1 = users d
  /\ (forall other, check_deposit other data reply d1 = (CheckCredited amount, d1)).
Proof.
  intros Hid Hnone Hrec Hfirst. cbv zeta.
  rewrite (check_deposit_first from_id data invoice_id amount more d Hid Hfirst).
  cbn [fst snd]. split; [reflexivity |]. split.
  - cbn [with_users with_transactions users].
    apply update_one_no_match. exact Hnone.
  - intros other. unfold check_deposit. rewrite Hid.
    cbn [ir_ok ir_items ii_status ii_amount].
    change (String.eqb "paid" "paid") with true. cbv iota.
    cbn [with_users with_transactions users transactions].
    pose proof (mark_completed_found (JStr invoice_id) (transactions d) Hrec) as Hfound.
    destruct (find_one (completed_invoice_is (JStr invoice_id))
                (update_one (invoice_is (JStr invoice_id)) (set_status "completed")
                   (transactions d))); [reflexivity | congruence].
Qed.

Lemma digits_without (c : ascii) (u : Decimal.uint) :
  is_digit_char c = false -> has_char c (NilEmpty.string_of_uint u) = false.
Proof.
  intros Hc. induction u; simpl; try reflexivity; rewrite IHu;
    destruct c as [[] [] [] [] [] [] [] []]; try reflexivity; discriminate Hc.
Qed.

Lemma str_of_int_no_underscore (z : Z) : has_char "_"%char (str_of_int z) = false.
Proof.
  unfold str_of_int, NilZero.string_of_int.
  assert (H : forall u, has_char "_"%char (NilZero.string_of_uint u) = false).
  { intros u. unfold NilZero.string_of_uint.
    destruct u; try reflexivity; apply (digits_without "_"%char); reflexivity. }
  destruct (Z.to_int z) as [u | u]; simpl; [apply H | rewrite H; reflexivity].
Qed.

Lemma first_piece_without (sep : ascii) (s : string) :
  has_char sep (hd EmptyString (split_on sep s)) = false.
Proof.
  induction s as [| c s IH]; simpl; [reflexivity |].
  destruct (Ascii.eqb c sep) eqn:E; [reflexivity |].
  pose proof (split_on_pieces sep s) as Hne.
  destruct (split_on sep s) as [| piece pieces]; [contradiction |].
  simpl in *. rewrite E, IH. reflexivity.
Qed.

Lemma third_piece_of_callback (s : string) :
  nth_error (split_on "_"%char ("check_dep_" ++ s)) 2
  = Some (hd EmptyString (split_on "_"%char s)).
Proof.
  pose proof (split_on_pieces "_"%char s) as Hne.
  change ("check_dep_" ++ s)%string
    with ("check" ++ String "_"%char ("dep" ++ String "_"%char s))%string.
  rewrite !split_on_app.
  change (split_on "_"%char "check") with ["check"%string].
  change (split_on "_"%char "dep") with ["dep"%string].
  simpl. destruct (split_on "_"%char s); [contradiction | reflexivity].
Qed.

(** X13. The id that [check_deposit] reads from the callback data of the
    button that [process_deposit] made is the text of the invoice id up to
    its first underscore: the decimal digits of a numeric id, a text id
    itself when it has no underscore, and a different, shorter text when
    it has one. *)
Theorem callback_data_invoice_id (from_id : Z) (text_amount : option Q)
    (reply : gw invoice_created) (now : Z) (d : db) (data : string) :
  fst (process_deposit from_id text_amount reply now d) = DepositInvoiceCreated data ->
  exists invoice,
    reply = GwReply invoice
    /\ nth_error (split_on "_"%char data) 2
       = Some (hd EmptyString (split_on "_"%char (format_id (ic_invoice_id invoice))))
    /\ (forall z, ic_invoice_id invoice = IdInt z ->
          nth_error (split_on "_"%char data) 2 = Some (str_of_int z))
    /\ (forall s, ic_invoice_id invoice = IdStr s -> has_char "_"%char s = false ->
          nth_error (split_on "_"%char data) 2 = Some s)
    /\ (forall s, ic_invoice_id invoice = IdStr s -> has_char "_"%char s = true ->
          nth_error (split_on "_"%char data) 2 <> Some s).
Proof.
  unfold process_deposit.
  destruct text_amount as [amount |]; [| discriminate].
  destruct (Qltb amount MIN_DEPOSIT); [discriminate |].
  destruct reply as [| | invoice]; [discriminate | discriminate |].
  destruct (ic_ok invoice); [| discriminate].
  destruct (insert_transaction _ _); [| discriminate].
  cbn [fst]. intros Hdata. inversion Hdata as [Hd]. clear Hdata. subst data.
  exists invoice. split; [reflexivity |].
  pose proof (third_piece_of_callback (format_id (ic_invoice_id invoice))) as Hthird.
  cbn [append] in Hthird. rewrite Hthird. clear Hthird. split; [reflexivity |].
  split; [| split].
  - intros z ->. cbn [format_id].
    rewrite (split_on_absent _ _ (str_of_int_no_underscore z)). reflexivity.
  - intros s -> Hs. cbn [format_id]. rewrite (split_on_absent _ _ Hs). reflexivity.
  - intros s -> Hs. cbn [format_id]. intros Heq. inversion Heq as [Hhd].
    pose proof (first_piece_without "_"%char s) as Hw.
    rewrite Hhd in Hw. congruence.
Qed.

Lemma no_null_key (t : txn_doc) (ts : list txn_doc) :
  t_invoice_id t = None ->
  (forall t', In t' ts -> exists v, t_invoice_id t' = Some v /\ v <> JNull) ->
  insert_transaction t ts = Some (ts ++ [t]).
Proof.
  intros Ht Hall. unfold insert_transaction.
  replace (existsb (fun t' => jval_eqb (index_key t') (index_key t)) ts) with false;
    [reflexivity |].
  symmetry. apply not_true_is_false. intros Hex.
  apply existsb_exists in Hex. destruct Hex as [t' [Hin Heq]].
  destruct (Hall t' Hin) as [v [Hv Hnull]].
  unfold index_key in Heq. rewrite Hv, Ht in Heq.
  destruct v; try discriminate. apply Hnull. reflexivity.
Qed.

(** X14. A withdrawal of at least the minimum and at most the balance,
    the whole balance included, for which the gateway creates a check, in
    a store whose records all carry an invoice id: the answer shows the
    check, the balance drops by exactly the amount, no other account
    changes, and one completed withdrawal record is appended. *)
Theorem process_withdraw_done (from_id : Z) (amount : Q) (check : check_created)
    (now : Z) (d : db) (user : user_doc) :
  find_one (user_is (JInt from_id)) (users d) = Some user ->
  (MIN_WITHDRAW <= amount)%Q -> (amount <= balance user)%Q ->
  cc_ok check = true ->
  (forall t, In t (transactions d) -> exists v, t_invoice_id t = Some v /\ v <> JNull) ->
  let run := process_withdraw from_id (Some amount) (GwReply check) now d in
  fst run = WithdrawDone (cc_bot_check_url check)
  /\ find_one (user_is (JInt from_id)) (users (snd run))
     = Some (inc_balance (- amount) user)
  /\ balance (inc_balance (- amount) user) = (balance user - amount)%Q
  /\ (forall uid, uid <> JInt from_id ->
        find_one (user_is uid) (users (snd run)) = find_one (user_is uid) (users d))
  /\ transactions (snd run)
     = transactions d
       ++ [{| t_user_id := JInt from_id; t_type := "withdraw"; t_amount := amount;
              t_status := "completed"; t_invoice_id := None;
              t_check_url := Some (cc_bot_check_url check); t_created_at := now |}].
Proof.
  intros Hfind Hmin Hbal Hok Hkeys. cbv zeta. unfold process_withdraw.
  replace (Qltb amount MIN_WITHDRAW) with false by (symmetry; apply Qltb_false; exact Hmin).
  rewrite Hfind.
  replace (Qltb (balance user) amount) with false
    by (symmetry; apply Qltb_false; exact Hbal).
  rewrite Hok. cbn [with_users transactions].
  rewrite no_null_key by (reflexivity || exact Hkeys).
  cbn [fst snd with_users with_transactions users transactions].
  split; [reflexivity |]. split.
  - rewrite find_one_update_one by reflexivity. rewrite Hfind. reflexivity.
  - split; [reflexivity |]. split; [| reflexivity].
    intros uid Huid. apply find_one_update_one_other; [reflexivity |].
    intros x Hx. unfold user_is in *. apply jval_eqb_int in Hx. rewrite Hx.
    apply jval_eqb_int_other. exact Huid.
Qed.

(** X15. Once the store holds a record without an invoice id, as every
    withdrawal record is, the next withdrawal that passes all checks and
    gets its check from the gateway is debited and then fails on the
    insert of its record: the handler raises, the balance stays debited
    and no record of the withdrawal is kept. *)
Theorem process_withdraw_after_withdrawal (from_id : Z) (amount : Q)
    (check : check_created) (now : Z) (d : db) (user : user_doc) :
  find_one (user_is (JInt from_id)) (users d) = Some user ->
  (MIN_WITHDRAW <= amount)%Q -> (amount <= balance user)%Q ->
  cc_ok check = true ->
  (exists t, In t (transactions d) /\ t_invoice_id t = None) ->
  let run := process_withdraw from_id (Some amount) (GwReply check) now d in
  fst run = WithdrawRaised
  /\ find_one (user_is (JInt from_id)) (users (snd run))
     = Some (inc_balance (- amount) user)
  /\ transactions (snd run) = transactions d.
Proof.
  intros Hfind Hmin Hbal Hok [t [Hin Ht]]. cbv zeta. unfold process_withdraw.
  replace (Qltb amount MIN_WITHDRAW) with false by (symmetry; apply Qltb_false; exact Hmin).
  rewrite Hfind.
  replace (Qltb (balance user) amount) with false
    by (symmetry; apply Qltb_false; exact Hbal).
  rewrite Hok. cbn [with_users transactions]. unfold insert_transaction.
  replace (existsb _ (transactions d)) with true.
  - cbn [fst snd with_users users transactions]. split; [reflexivity |].
    split; [| reflexivity].
    rewrite find_one_update_one by reflexivity. rewrite Hfind. reflexivity.
  - symmetry. apply existsb_exists. exists t. split; [exact Hin |].
    unfold index_key. rewrite Ht. reflexivity.
Qed.

(** X16. Starting a deposit never touches an account or a round.  It
    writes only with the answer that shows the invoice: then the amount
    was at least the minimum, the gateway had answered ok, and exactly one
    pending deposit record of the user, with the amount entered and the
    invoice id of the gateway, is appended.  An amount below the minimum
    is refused whatever the gateway says. *)
Theorem process_deposit_effects (from_id : Z) (text_amount : option Q)
    (reply : gw invoice_created) (now : Z) (d : db) :
  let run := process_deposit from_id text_amount reply now d in
  users (snd run) = users d
  /\ games_history (snd run) = games_history d
  /\ match fst run with
     | DepositInvoiceCreated data =>
         exists amount invoice,
           text_amount = Some amount /\ reply = GwReply invoice
           /\ ic_ok invoice = true /\ (MIN_DEPOSIT <= amount)%Q
           /\ data = ("check_dep_" ++ format_id (ic_invoice_id invoice))%string
           /\ transactions (snd run)
              = transactions d
                ++ [{| t_user_id := JInt from_id; t_type := "deposit";
                       t_amount := amount; t_status := "pending";
                       t_invoice_id := Some (jval_of_id (ic_invoice_id invoice));
                       t_check_url := None; t_created_at := now |}]
     | _ => snd run = d
     end
  /\ (forall amount, text_amount = Some amount -> (amount < MIN_DEPOSIT)%Q ->
        fst run = DepositBelowMinimum).
Proof.
  cbv zeta. unfold process_deposit.
  destruct text_amount as [amount |].
  2: { repeat split; auto. intros a Ha. discriminate. }
  destruct (Qltb amount MIN_DEPOSIT) eqn:Emin.
  { repeat split; auto. }
  assert (Hlast : forall a, Some amount = Some a -> (a < MIN_DEPOSIT)%Q ->
                            False).
  { intros a Ha Hlt. inversion Ha; subst a. apply Qltb_true in Hlt. congruence. }
  apply Qltb_false in Emin.
  destruct reply as [| | invoice].
  { repeat split; auto. intros a Ha Hlt. exfalso. eauto. }
  { repeat split; auto. intros a Ha Hlt. exfalso. eauto. }
  destruct (ic_ok invoice) eqn:Eok.
  2: { repeat split; auto. intros a Ha Hlt. exfalso. eauto. }
  unfold insert_transaction.
  destruct (existsb _ (transactions d)).
  { repeat split; auto. intros a Ha Hlt. exfalso. eauto. }
  cbn [fst snd with_transactions users games_history transactions].
  split; [reflexivity |]. split; [reflexivity |]. split.
  - exists amount, invoice. repeat split; auto.
  - intros a Ha Hlt. exfalso. eauto.
Qed.

Lemma update_one_balances (p : user_doc -> bool) (f : user_doc -> user_doc)
    (us : list user_doc) :
  (forall u, balance (f u) = balance u) ->
  map balance (update_one p f us) = map balance us.
Proof.
  intros Hf. induction us as [| u us IH]; simpl; [reflexivity |].
  destruct (p u); simpl; [rewrite Hf; reflexivity | rewrite IH; reflexivity].
Qed.

Lemma filter_snoc (A : Type) (f : A -> bool) (l : list A) (x : A) :
  f x = true -> filter f (l ++ [x]) = filter f l ++ [x].
Proof.
  intros Hx. rewrite filter_app. simpl. rewrite Hx. reflexivity.
Qed.

Lemma sum_amounts_snoc (l : list Q) (x : Q) :
  (sum_amounts (l ++ [x]) == sum_amounts l + x)%Q.
Proof.
  induction l as [| y l IH]; simpl; [ring |]. rewrite IH. ring.
Qed.

(** X17. The start-up call of the web application touches no transaction
    and no round.  A refusal writes nothing.  An accepted call shows the
    stored balance and name of the caller's account and changes no balance;
    a caller without an account gets one, appended with a zero balance and
    the name user_ followed by the id, and is shown the balance 0. *)
Theorem webapp_init_effects (init_data : option string) (time : clock) (d : db) :
  let run := webapp_init init_data time d in
  transactions (snd run) = transactions d
  /\ games_history (snd run) = games_history d
  /\ match fst run with
     | WebappError _ _ => snd run = d
     | WebappOk shown name _ _ _ =>
         exists c, init_data = Some c /\ validate_telegram_data c = true
           /\ truthy (extract_user_id c) = true
           /\ match find_one (user_is (extract_user_id c)) (users d) with
              | Some u =>
                  shown = balance u /\ name = username u
                  /\ map balance (users (snd run)) = map balance (users d)
                  /\ map user_id (users (snd run)) = map user_id (users d)
              | None =>
                  shown = 0%Q
                  /\ users (snd run)
                     = users d
                       ++ [{| user_id := extract_user_id c; balance := 0;
                              username :=
                                Some ("user_" ++ py_str (extract_user_id c))%string;
                              created_at := clock_readings time (S (clock_pos time));
                              last_active :=
                                clock_readings time (S (S (clock_pos time))) |}]
              end
     end.
Proof.
  cbv zeta. unfold webapp_init.
  destruct init_data as [c |]; [| repeat split].
  destruct (String.eqb c "" || negb (validate_telegram_data c)) eqn:Eauth;
    [repeat split |].
  apply orb_false_elim in Eauth. destruct Eauth as [_ Hval].
  apply negb_false_iff in Hval.
  destruct (negb (truthy (extract_user_id c))) eqn:Etruthy; [repeat split |].
  apply negb_false_iff in Etruthy.
  cbn [utcnow fst snd with_users users clock_readings clock_pos].
  rewrite find_one_update_one by reflexivity.
  destruct (find_one (user_is (extract_user_id c)) (users d)) as [u |] eqn:Eu;
    cbn [option_map fst snd with_users users transactions games_history
         utcnow clock_readings clock_pos].
  - split; [reflexivity |]. split; [reflexivity |].
    exists c. split; [reflexivity |]. split; [exact Hval |]. split; [exact Etruthy |].
    rewrite Eu. split; [reflexivity |]. split; [reflexivity |]. split.
    + apply update_one_balances. reflexivity.
    + apply update_one_ids. reflexivity.
  - split; [reflexivity |]. split; [reflexivity |].
    exists c. split; [reflexivity |]. split; [exact Hval |]. split; [exact Etruthy |].
    rewrite Eu. split; [reflexivity |].
    rewrite (update_one_no_match _ _ _ Eu). reflexivity.
Qed.

(** X18. A settled bet shows in the player's figures: on the ledger after
    a bet that was answered with a result, the web application's start-up
    call shows the new balance, one game more than on the ledger before,
    a total bet larger by the bet and a total win larger by the win,
    provided the bet is less than seven days old when the figures are
    taken. *)
Theorem webapp_init_counts_the_bet (c : string) (game_type : option string)
    (bet : Q) (now : Z) (random random1 : rng) (time : clock) (d d1 : db)
    (result : game_result) (new_balance : Q) :
  game_play {| initData := Some c; gameType := game_type; betAmount := Some bet |}
            now random d
  = (PlayOk result new_balance, d1, random1) ->
  clock_readings time (S (clock_pos time)) - seven_days < now ->
  exists shown0 name0 games0 bet0 win0 name1 bet1 win1,
    fst (webapp_init (Some c) time d) = WebappOk shown0 name0 games0 bet0 win0
    /\ fst (webapp_init (Some c) time d1)
       = WebappOk new_balance name1 (S games0) bet1 win1
    /\ (bet1 == bet0 + bet)%Q
    /\ (win1 == win0 + win_amount result)%Q.
Proof.
  unfold game_play. cbn [betAmount initData gameType]. intros Hplay Hrecent.
  destruct (String.eqb c "" || negb (validate_telegram_data c)) eqn:Eauth;
    [discriminate |].
  destruct (negb (truthy (extract_user_id c))) eqn:Etruthy; [discriminate |].
  destruct (negb (Qle_bool (1 # 10) bet && Qle_bool bet MAX_BET)); [discriminate |].
  destruct (find_one (user_is (extract_user_id c)) (users d)) as [user |] eqn:Eu;
    [| discriminate].
  destruct (Qltb (balance user) bet); [discriminate |].
  destruct (process_game _ bet random) as [result' random'] eqn:Eg.
  cbn [with_users with_games_history users games_history] in Hplay.
  rewrite !find_one_update_one in Hplay by reflexivity.
  rewrite Eu in Hplay. cbn [option_map] in Hplay.
  inversion Hplay as [[Hres Hbal Hd1 Hrandom]]. subst result'. clear Hplay.
  unfold webapp_init. rewrite Eauth, Etruthy.
  cbn [utcnow fst snd with_users with_games_history users games_history
       clock_readings clock_pos].
  rewrite !find_one_update_one by reflexivity.
  rewrite Eu. cbn [option_map fst snd with_users users games_history
                   utcnow clock_readings clock_pos balance].
  set (mine := fun g : game_doc =>
                 jval_eqb (g_user_id g) (extract_user_id c)
                 && (clock_readings time (S (clock_pos time)) - seven_days
                     <? g_created_at g)).
  do 8 eexists. split; [reflexivity |].
  cbn [games_history with_games_history with_users].
  rewrite filter_snoc.
  2: { unfold mine. cbn [g_user_id g_created_at].
       rewrite jval_eqb_refl. apply Z.ltb_lt in Hrecent. rewrite Hrecent. reflexivity. }
  rewrite length_app, Nat.add_comm. cbn [List.length Nat.add].
  rewrite !map_app. cbn [map g_bet_amount g_win_amount balance inc_balance].
  rewrite Hbal.
  split; [reflexivity |]. split; apply sum_amounts_snoc.
Qed.

(** X19. The admin's figures are refused to everyone else.  For an
    admin they count a deposit as soon as its invoice is created, paid or
    not: after a deposit was started, the deposits of the last 24 hours
    are larger by its amount and there is one transaction more, while no
    balance has changed. *)
Theorem stats_counts_started_deposits (admin from_id : Z) (amount : Q)
    (invoice : invoice_created) (now later : Z) (d d1 : db) (data : string) :
  (forall other, existsb (Z.eqb other) ADMIN_IDS = false -> stats other later d = None)
  /\ (In admin ADMIN_IDS ->
      process_deposit from_id (Some amount) (GwReply invoice) now d
      = (DepositInvoiceCreated data, d1) ->
      later - one_day <= now ->
      exists before after,
        stats admin later d = Some before
        /\ stats admin later d1 = Some after
        /\ (sr_deposits after == sr_deposits before + amount)%Q
        /\ (sr_withdraws after == sr_withdraws before)%Q
        /\ sr_transactions after = S (sr_transactions before)
        /\ users d1 = users d).
Proof.
  split.
  - intros other Hother. unfold stats. rewrite Hother. reflexivity.
  - intros Hadmin Hrun Hrecent.
    assert (Hin : existsb (Z.eqb admin) ADMIN_IDS = true).
    { apply existsb_exists. exists admin. split; [exact Hadmin | apply Z.eqb_refl]. }
    unfold process_deposit in Hrun.
    destruct (Qltb amount MIN_DEPOSIT); [discriminate |].
    destruct (ic_ok invoice); [| discriminate].
    unfold insert_transaction in Hrun.
    destruct (existsb _ (transactions d)); [discriminate |].
    inversion Hrun as [[Hdata Hd1]]. clear Hrun.
    unfold stats. rewrite Hin. cbn [negb with_transactions transactions users].
    do 2 eexists. split; [reflexivity |]. split; [reflexivity |].
    cbn [sr_deposits sr_withdraws sr_transactions].
    rewrite filter_snoc
      by (cbn [t_created_at]; apply Z.leb_le; exact Hrecent).
    rewrite !map_app, length_app, Nat.add_comm.
    cbn [map List.length Nat.add t_type t_amount].
    change (String.eqb "deposit" "deposit") with true.
    change (String.eqb "deposit" "withdraw") with false. cbv iota.
    split; [apply sum_amounts_snoc |].
    split; [rewrite sum_amounts_snoc; ring |].
    split; reflexivity.
Qed.

Lemma jval_eqb_eq : forall a b : jval, jval_eqb a b = true -> a = b.
Proof.
  fix IH 1. intros a b.
  destruct a as [| x | x | x | xs | ms]; destruct b as [| y | y | y | ys | ns];
    simpl; try discriminate.
  - reflexivity.
  - intros H. apply Bool.eqb_prop in H. subst. reflexivity.
  - intros H. apply Z.eqb_eq in H. subst. reflexivity.
  - intros H. apply String.eqb_eq in H. subst. reflexivity.
  - revert ys. induction xs as [| x xs IHxs]; intros [| y ys]; try discriminate.
    + reflexivity.
    + intros H. apply andb_prop in H. destruct H as [H1 H2].
      apply IH in H1. subst y. specialize (IHxs ys H2). inversion IHxs. reflexivity.
  - revert ns. induction ms as [| [k x] ms IHms]; intros [| [k' y] ns]; try discriminate.
    + reflexivity.
    + intros H. apply andb_prop in H. destruct H as [H12 H3].
      apply andb_prop in H12. destruct H12 as [H1 H2].
      apply String.eqb_eq in H1. apply IH in H2. subst k' y.
      specialize (IHms ns H3). inversion IHms. reflexivity.
Qed.

Lemma other_account_untouched (uid0 uid : jval) (f : user_doc -> user_doc)
    (us : list user_doc) :
  (forall u, user_id (f u) = user_id u) -> uid <> uid0 ->
  find_one (user_is uid) (update_one (user_is uid0) f us) = find_one (user_is uid) us.
Proof.
  intros Hf Hne. apply find_one_update_one_other.
  - intros x. unfold user_is. rewrite Hf. reflexivity.
  - intros x Hx. unfold user_is in *. apply jval_eqb_eq in Hx.
    destruct (jval_eqb (user_id x) uid) eqn:E; [| reflexivity].
    apply jval_eqb_eq in E. congruence.
Qed.

Lemma total_after_inc (p : user_doc -> bool) (delta : Q) (us : list user_doc)
    (u : user_doc) :
  find_one p us = Some u ->
  (sum_amounts (map balance (update_one p (inc_balance delta) us))
   == sum_amounts (map balance us) + delta)%Q.
Proof.
  induction us as [| x us IH]; simpl; [discriminate |].
  destruct (p x); intros H; simpl.
  - ring.
  - rewrite (IH H). ring.
Qed.

(** X20. A bet that is answered with a result touches one account only:
    every account with another id is as before, no account is added or
    removed, and the balances of the ledger add up to what they were,
    minus the bet, plus the win. *)
Theorem game_play_touches_one_account (c : string) (game_type : option string)
    (bet : Q) (now : Z) (random random1 : rng) (d d1 : db)
    (result : game_result) (new_balance : Q) :
  game_play {| initData := Some c; gameType := game_type; betAmount := Some bet |}
            now random d
  = (PlayOk result new_balance, d1, random1) ->
  (forall uid, uid <> extract_user_id c ->
     find_one (user_is uid) (users d1) = find_one (user_is uid) (users d))
  /\ List.length (users d1) = List.length (users d)
  /\ (sum_amounts (map balance (users d1))
      == sum_amounts (map balance (users d)) - bet + win_amount result)%Q.
Proof.
  unfold game_play. cbn [betAmount initData gameType]. intros Hplay.
  destruct (String.eqb c "" || negb (validate_telegram_data c)); [discriminate |].
  destruct (negb (truthy (extract_user_id c))); [discriminate |].
  destruct (negb (Qle_bool (1 # 10) bet && Qle_bool bet MAX_BET)); [discriminate |].
  destruct (find_one (user_is (extract_user_id c)) (users d)) as [user |] eqn:Eu;
    [| discriminate].
  destruct (Qltb (balance user) bet); [discriminate |].
  destruct (process_game _ bet random) as [result' random'] eqn:Eg.
  cbn [with_users with_games_history users games_history] in Hplay.
  rewrite !find_one_update_one in Hplay by reflexivity.
  rewrite Eu in Hplay. cbn [option_map] in Hplay.
  inversion Hplay as [[Hres Hbal Hd1 Hrandom]]. subst result'. clear Hplay.
  cbn [with_users with_games_history users].
  split; [| split].
  - intros uid Huid.
    rewrite !other_account_untouched by (reflexivity || exact Huid). reflexivity.
  - rewrite <- (length_map user_id), !update_one_ids by reflexivity.
    apply length_map.
  - rewrite (total_after_inc _ _ _ (inc_balance (- bet) user)).
    + rewrite (total_after_inc _ _ _ user Eu). ring.
    + rewrite find_one_update_one by reflexivity. rewrite Eu. reflexivity.
Qed.

End Bot.

(** * Closed instances *)

(** Conjunctions are taken apart, and each part is settled by running the
    definitions. *)
Ltac conjuncts := repeat match goal with |- _ /\ _ => split end.
Ltac by_evaluation := conjuncts; vm_compute; reflexivity.

(** ** Test vectors for the hash functions *)

Example sha256_abc :
  hex_of_bytes (Sha256.sha256 (bytes_of_string "abc"))
  = "ba7816bf8f01cfea414140de5dae2223b00361a396177a9cb410ff61f20015ad".
Proof. vm_compute. reflexivity. Qed.

Example hmac_sha256_fox :
  hex_of_bytes (hmac_sha256 (bytes_of_string "key")
                  (bytes_of_string "The quick brown fox jumps over the lazy dog"))
  = "f7bc83f430538424b13298e6aa6fb143ef4d59a14946175997479dbc2d1a3cd8".
Proof. vm_compute. reflexivity. Qed.

(** ** Credentials *)

Example sample_credential_accepted :
  validate_telegram_data Sample.token Sample.credential = true
  /\ extract_user_id PlainJson.loads Sample.credential = JInt 42.
Proof. by_evaluation. Qed.

Example sample_credential_wrong_hash_rejected :
  validate_telegram_data Sample.token Sample.credential_wrong_hash = false.
Proof. vm_compute. reflexivity. Qed.

(** Where a field name has a character below the equals sign the code
    and the order by key part: the credential with the fields k and k2
    carries the keyed hash of the text that lists k before k2; the code
    orders the whole lines, k2=2 before k=1, and rejects it. *)
Example credential_signed_by_key_rejected :
  received_hash Sample.credential_by_key
  = hex_of_bytes
      (hmac_sha256
         (hmac_sha256 (bytes_of_string "WebAppData") (bytes_of_string Sample.token))
         (bytes_of_string (data_check_string_by_key Sample.credential_by_key)))
  /\ data_check_string_by_key Sample.credential_by_key = ("k=1" ++ newline ++ "k2=2")%string
  /\ data_check_string Sample.credential_by_key = ("k2=2" ++ newline ++ "k=1")%string
  /\ validate_telegram_data Sample.token Sample.credential_by_key = false.
Proof. by_evaluation. Qed.

(** C8 as first stated fails on a tampered field.  Telegram signs the
    fields auth_date and user for a user whose first name is A=B.  Moving
    one equals sign turns the user field into a field of another name and
    value; the canonical text is the same, line for line, so the one
    signature is accepted on the tampered credential as well, which has
    no user field left and from which no user id is read. *)
Lemma tampered_credential_accepted :
  validate_telegram_data Sample.token Sample.credential_name_with_eq = true
  /\ extract_user_id PlainJson.loads Sample.credential_name_with_eq = JInt 42
  /\ received_hash Sample.credential_user_split
     = received_hash Sample.credential_name_with_eq
  /\ dict (parse_qsl Sample.credential_user_split)
     <> dict (parse_qsl Sample.credential_name_with_eq)
  /\ existsb (fun kv => String.eqb (fst kv) "user")
             (dict (parse_qsl Sample.credential_name_with_eq)) = true
  /\ existsb (fun kv => String.eqb (fst kv) "user")
             (dict (parse_qsl Sample.credential_user_split)) = false
  /\ data_check_string Sample.credential_user_split
     = data_check_string Sample.credential_name_with_eq
  /\ validate_telegram_data Sample.token Sample.credential_user_split = true
  /\ extract_user_id PlainJson.loads Sample.credential_user_split = JNull.
Proof.
  split; [vm_compute; reflexivity |]. split; [vm_compute; reflexivity |].
  split; [vm_compute; reflexivity |]. split; [vm_compute; discriminate |].
  by_evaluation.
Qed.

Lemma validate_telegram_data_signature_witness :
  received_hash Sample.credential
  = hex_of_bytes
      (hmac_sha256
         (hmac_sha256 (bytes_of_string "WebAppData") (bytes_of_string Sample.token))
         (bytes_of_string (data_check_string_by_key Sample.credential)))
  /\ validate_telegram_data Sample.token Sample.credential_wrong_hash = false
  /\ extract_user_id PlainJson.loads Sample.credential = JInt 42.
Proof.
  pose proof (validate_telegram_data_signature Sample.token PlainJson.loads
                Sample.credential) as H.
  cbv zeta in H.
  destruct H as [_ [_ [Hiff [Hwrong [_ [Hid _]]]]]].
  { vm_compute. repeat constructor. }
  split; [apply Hiff; vm_compute; reflexivity |].
  split.
  - apply Hwrong; [vm_compute; reflexivity | vm_compute; reflexivity |].
    vm_compute. discriminate.
  - apply (Hid [("id", JInt 42); ("first_name", JStr "Ann")]).
    vm_compute. reflexivity.
Defined.

(** ** Games *)

Lemma process_game_fallback_witness :
  process_game "dice" (10#1) Sample.stream_fours = slots_game (10#1) Sample.stream_fours.
Proof.
  apply (process_game_fallback "dice" (10#1) Sample.stream_fours); discriminate.
Defined.

(** ** Bets *)

Lemma game_play_balance_witness :
  exists (d' : db) (user' : user_doc),
    game_play Sample.token (100#1) PlainJson.loads
      {| initData := Some Sample.credential; gameType := Some "slots";
         betAmount := Some (10#1) |} 1700000001 Sample.stream_fours Sample.db_one_user
    = (PlayOk (fst (process_game "slots" (10#1) Sample.stream_fours)) (balance user'),
       d', snd (process_game "slots" (10#1) Sample.stream_fours))
    /\ find_one (user_is (extract_user_id PlainJson.loads Sample.credential)) (users d')
       = Some user'
    /\ balance user'
       = (balance (Sample.user42 (20#1)) - (10#1)
          + win_amount (fst (process_game "slots" (10#1) Sample.stream_fours)))%Q
    /\ win_amount (fst (process_game "slots" (10#1) Sample.stream_fours))
       = ((10#1) * multiplier (fst (process_game "slots" (10#1) Sample.stream_fours)))%Q.
Proof.
  apply (game_play_balance Sample.token (100#1) PlainJson.loads Sample.credential
           (Some "slots") (10#1) 1700000001 Sample.stream_fours Sample.db_one_user
           (Sample.user42 (20#1))).
  - discriminate.
  - vm_compute. reflexivity.
  - vm_compute. reflexivity.
  - unfold Qle. simpl. lia.
  - unfold Qle. simpl. lia.
  - vm_compute. reflexivity.
  - unfold Qle. simpl. lia.
Defined.

Example game_play_sample_balance :
  let run := game_play Sample.token (100#1) PlainJson.loads
      {| initData := Some Sample.credential; gameType := Some "slots";
         betAmount := Some (10#1) |} 1700000001 Sample.stream_fours Sample.db_one_user in
  map balance (users (snd (fst run))) = [60#1].
Proof. vm_compute. reflexivity. Qed.

(** ** The balances *)

Example balances_nonneg_after_a_bet :
  nonneg_balances
    (snd (fst (game_play Sample.token (100#1) PlainJson.loads
                 {| initData := Some Sample.credential; gameType := Some "roulette";
                    betAmount := Some (10#1) |} 1700000001 Sample.stream_count
                 Sample.db_one_user))).
Proof.
  refine (proj1 (balances_nonneg_one_at_a_time Sample.token (1#1) (1#1) (100#1)
                   PlainJson.loads Sample.db_one_user _ _ _)).
  - constructor; [| constructor]. unfold Qle. simpl. lia.
  - eapply reachable_step; [apply reachable_here | apply step_game_play].
Qed.

(** C3.  The code breaks it when two bets of one player overlap.  The
    balance is read and compared with the bet (find_one), and the debit
    is an unconditional $inc made after the next await: a second handler
    resumed in between reads the same balance.  User 42 holds 10 and
    sends two bets of 10 on the slots; both spins lose.  One after the
    other, the first bet leaves 0 and the second is refused.  Overlapping,
    both pass the check and both are debited: the balance is -10 after
    the sixth turn of the event loop and at the end, and both requests
    are answered with a result. *)
Theorem overlapping_bets_overdraw :
  let bet := {| initData := Some Sample.credential; gameType := Some "slots";
                betAmount := Some (10#1) |} in
  let first_bet := game_play_task Sample.token (100#1) PlainJson.loads bet 1700000001 in
  let second_bet := game_play_task Sample.token (100#1) PlainJson.loads bet 1700000002 in
  let w0 := {| w_db := {| users := [Sample.user42 (10#1)]; transactions := [];
                          games_history := [] |};
               w_random := Sample.stream_count |} in
  let spin1 := process_game "slots" (10#1) Sample.stream_count in
  let spin2 := process_game "slots" (10#1) (snd spin1) in
  let in_turn := run_alone second_bet (snd (run_alone first_bet w0)) in
  let turns := [0; 1; 0; 1; 0; 1; 0; 0; 0; 0; 1; 1; 1; 1]%nat in
  let overlapped := interleave turns [Running first_bet; Running second_bet] w0 in
  win_amount (fst spin1) = 0#1 /\ win_amount (fst spin2) = 0#1
  /\ fst (run_alone first_bet w0) = PlayOk (fst spin1) (0#1)
  /\ fst in_turn = PlayError 400 "Insufficient balance"
  /\ map balance (users (w_db (snd in_turn))) = [0#1]
  /\ map balance
       (users (w_db (snd (interleave (firstn 6 turns)
                            [Running first_bet; Running second_bet] w0))))
     = [-10#1]
  /\ fst overlapped
     = [Running (Return (PlayOk (fst spin1) (-10#1)));
        Running (Return (PlayOk (fst spin2) (-10#1)))]
  /\ map balance (users (w_db (snd overlapped))) = [-10#1]
  /\ List.length (games_history (w_db (snd overlapped))) = 2%nat.
Proof. cbv zeta. by_evaluation. Qed.

(** ** Withdrawals *)

Lemma process_withdraw_needs_check_witness :
  snd (process_withdraw (1#1) 42 (Some (5#1)) Sample.check_failed 1700000001
         Sample.db_one_user)
  = Sample.db_one_user
  /\ fst (process_withdraw (1#1) 42 (Some (5#1)) Sample.check_failed 1700000001
            Sample.db_one_user)
     = WithdrawGatewayError.
Proof.
  pose proof (process_withdraw_needs_check (1#1) 42 (Some (5#1)) Sample.check_failed
                1700000001 Sample.db_one_user) as H.
  cbv zeta in H. destruct H as [Hdb [Hanswer _]].
  split.
  - refine (proj1 (Hdb _)). right. right. eexists. split; reflexivity.
  - refine (proj1 (proj1 (Hanswer (5#1) (Sample.user42 (20#1)) _ _ _ _) _)).
    + reflexivity.
    + unfold Qle. simpl. lia.
    + vm_compute. reflexivity.
    + unfold Qle. simpl. lia.
    + eexists. split; reflexivity.
Defined.

(** C4 as first stated fails where the request to the gateway raises:
    the exception leaves the handler, so the withdrawal is not reported
    failed; no answer is sent at all.  Nothing is debited. *)
Lemma withdraw_request_raises_unanswered :
  let run := process_withdraw (1#1) 42 (Some (5#1)) GwRaised 1700000001
               Sample.db_one_user in
  fst run = WithdrawRaised
  /\ withdraw_answered (fst run) = false
  /\ snd run = Sample.db_one_user.
Proof. cbv zeta. by_evaluation. Qed.

(** A body that is not JSON makes [resp.json()] raise a ValueError, which
    the handler's [except ValueError] answers like a text that is not a
    number. *)
Example withdraw_body_not_json :
  process_withdraw (1#1) 42 (Some (5#1)) GwNotJson 1700000001 Sample.db_one_user
  = (WithdrawNotANumber, Sample.db_one_user).
Proof. vm_compute. reflexivity. Qed.

Example process_withdraw_sample_done :
  let run := process_withdraw (1#1) 42 (Some (5#1)) Sample.check_ok 1700000001
               Sample.db_one_user in
  fst run = WithdrawDone "https://t.me/check9"
  /\ map balance (users (snd run)) = [15#1]
  /\ List.length (transactions (snd run)) = 1%nat.
Proof. cbv zeta. by_evaluation. Qed.


(** ** Deposits *)

Lemma duplicate_reference_rejected_witness :
  snd (process_deposit (1#1) 42 (Some (5#1))
         (GwReply {| ic_ok := true; ic_invoice_id := IdStr "555";
                     ic_pay_url := "https://pay.example/555" |})
         1700000001 Sample.db_pending_str)
  = Sample.db_pending_str.
Proof.
  refine (proj1 (proj2 (duplicate_reference_rejected (1#1) 42 (Some (5#1))
                          {| ic_ok := true; ic_invoice_id := IdStr "555";
                             ic_pay_url := "https://pay.example/555" |}
                          1700000001 Sample.db_pending_str _))).
  eexists. split; [left; reflexivity | vm_compute; reflexivity].
Defined.

Lemma check_deposit_credits_caller_witness :
  let run := check_deposit 42 "check_dep_555" (Sample.paid (9#1)) Sample.db_pending_str in
  fst run = CheckCredited (9#1)
  /\ find_one (user_is (JInt 42)) (users (snd run))
     = Some (inc_balance (9#1) (Sample.user42 (20#1)))
  /\ find_one (user_is (JInt 7)) (users (snd run)) = Some (Sample.user7 (1#1)).
Proof.
  pose proof (check_deposit_credits_caller 42 "check_dep_555" "555" (9#1) []
                Sample.db_pending_str) as H.
  cbv zeta in H. cbv zeta. unfold Sample.paid.
  destruct H as [Hans [_ [Hcaller Hothers]]].
  - vm_compute. reflexivity.
  - vm_compute. reflexivity.
  - split; [exact Hans |]. split.
    + apply (Hcaller (Sample.user42 (20#1))). vm_compute. reflexivity.
    + rewrite (Hothers (JInt 7)); [vm_compute; reflexivity | discriminate].
Defined.

Lemma check_deposit_twice_when_recorded_sample :
  let reply := Sample.paid (5#1) in
  let d1 := snd (check_deposit 7 "check_dep_555" reply Sample.db_pending_str) in
  check_deposit 7 "check_dep_555" reply d1 = (CheckCredited (5#1), d1)
  /\ map balance (users d1) = [20#1; 6#1].
Proof.
  cbv zeta. split.
  - apply (check_deposit_twice_when_recorded 7 "check_dep_555" "555" (5#1) []
             Sample.db_pending_str).
    + vm_compute. reflexivity.
    + eexists. split; [left; reflexivity | vm_compute; reflexivity].
    + vm_compute. reflexivity.
  - vm_compute. reflexivity.
Qed.

(** C1. The gateway numbers its invoices.  [process_deposit] stores the
    number 123 in the pending record and puts check_dep_123 on the
    button; [check_deposit] looks the record up by the text 123, which no
    stored number equals.  The completed record is never found and never
    written: each confirmation of the one paid invoice credits again. *)
Theorem check_deposit_credits_again :
  let created := process_deposit (1#1) 42 (Some (5#1)) Sample.invoice_123 1700000001
                   Sample.db_one_user in
  let first := check_deposit 42 "check_dep_123" (Sample.paid (5#1)) (snd created) in
  let second := check_deposit 42 "check_dep_123" (Sample.paid (5#1)) (snd first) in
  fst created = DepositInvoiceCreated "check_dep_123"
  /\ map t_invoice_id (transactions (snd created)) = [Some (JInt 123)]
  /\ map balance (users (snd created)) = [20#1]
  /\ fst first = CheckCredited (5#1)
  /\ map balance (users (snd first)) = [25#1]
  /\ fst second = CheckCredited (5#1)
  /\ map balance (users (snd second)) = [30#1]
  /\ map t_status (transactions (snd second)) = ["pending"].
Proof. cbv zeta. by_evaluation. Qed.

(** The same happens for a paid invoice that has no record at all. *)
Example check_deposit_no_record_credits_again :
  let first := check_deposit 42 "check_dep_777" (Sample.paid (5#1)) Sample.db_one_user in
  let second := check_deposit 42 "check_dep_777" (Sample.paid (5#1)) (snd first) in
  map balance (users (snd first)) = [25#1]
  /\ map balance (users (snd second)) = [30#1].
Proof. cbv zeta. by_evaluation. Qed.

(** ** Instances of the further properties *)

Lemma slots_win_flag_witness :
  exists r0 r1 r2,
    details (fst (slots_game (10#1) Sample.stream_fours)) = Reels [r0; r1; r2]
    /\ (is_win (fst (slots_game (10#1) Sample.stream_fours)) = true
        <-> r0 = r1 \/ r1 = r2)
    /\ (is_win (fst (slots_game (10#1) Sample.stream_fours)) = false
        <-> (win_amount (fst (slots_game (10#1) Sample.stream_fours)) == 0)%Q).
Proof.
  apply (slots_win_flag Sample.token PlainJson.loads (10#1) Sample.stream_fours).
  unfold Qlt. simpl. lia.
Defined.

Lemma calculated_hash_shape_witness :
  String.length (received_hash Sample.credential) = 64%nat
  /\ all_chars is_lower_hex (received_hash Sample.credential) = true.
Proof.
  apply (proj1 (proj2 (proj2 (calculated_hash_shape Sample.token Sample.credential)))).
  vm_compute. reflexivity.
Defined.

Lemma validate_field_order_witness :
  data_check_string Sample.credential_reordered = data_check_string Sample.credential
  /\ validate_telegram_data Sample.token Sample.credential_reordered
     = validate_telegram_data Sample.token Sample.credential.
Proof.
  apply (validate_field_order Sample.token Sample.credential_reordered Sample.credential).
  - vm_compute. apply perm_swap.
  - vm_compute. reflexivity.
Defined.

Lemma blank_fields_ignored_witness :
  parse_qsl (Sample.credential ++ "&junk") = parse_qsl Sample.credential
  /\ validate_telegram_data Sample.token (Sample.credential ++ "&junk")
     = validate_telegram_data Sample.token Sample.credential
  /\ extract_user_id PlainJson.loads (Sample.credential ++ "&junk")
     = extract_user_id PlainJson.loads Sample.credential.
Proof.
  apply (blank_fields_ignored Sample.token PlainJson.loads Sample.credential "junk").
  - reflexivity.
  - left. reflexivity.
Defined.

Lemma decoded_user_is_signed_witness :
  In ("user=" ++ Sample.user_payload)%string
     (sorted (map (fun kv => (fst kv ++ "=" ++ snd kv)%string)
                  (dict_remove (dict (parse_qsl Sample.credential)) "hash")))
  /\ data_check_string Sample.credential
     = join newline
         (sorted (map (fun kv => (fst kv ++ "=" ++ snd kv)%string)
                      (dict_remove (dict (parse_qsl Sample.credential)) "hash")))
  /\ extract_user_id PlainJson.loads Sample.credential
     = match PlainJson.loads Sample.user_payload with
       | Some (JObj user_data) => obj_get user_data "id"
       | _ => JNull
       end.
Proof.
  apply (decoded_user_is_signed PlainJson.loads Sample.credential Sample.user_payload).
  vm_compute. right. right. left. reflexivity.
Defined.

Lemma game_play_refusals_witness :
  game_play Sample.token (100#1) PlainJson.loads
    {| initData := Some Sample.credential_wrong_hash; gameType := Some "slots";
       betAmount := Some (10#1) |} 1700000001 Sample.stream_fours Sample.db_one_user
  = (PlayError 403 "Invalid authentication", Sample.db_one_user, Sample.stream_fours).
Proof.
  refine (proj1 (proj2 (game_play_refusals Sample.token (100#1) PlainJson.loads
                          (Some Sample.credential_wrong_hash) (Some "slots")
                          (Some (10#1)) 1700000001 Sample.stream_fours
                          Sample.db_one_user)) (10#1) eq_refl _).
  right. right. exists Sample.credential_wrong_hash.
  split; [reflexivity | vm_compute; reflexivity].
Defined.

Lemma check_deposit_without_account_witness :
  let reply :=
    GwReply {| ir_ok := true;
               ir_items := [{| ii_status := "paid"; ii_amount := Some (5#1) |}] |} in
  let d1 := snd (check_deposit 99 "check_dep_555" reply Sample.db_pending_str) in
  fst (check_deposit 99 "check_dep_555" reply Sample.db_pending_str)
  = CheckCredited (5#1)
  /\ users d1 = users Sample.db_pending_str
  /\ (forall other, check_deposit other "check_dep_555" reply d1
                    = (CheckCredited (5#1), d1)).
Proof.
  apply (check_deposit_without_account 99 "check_dep_555" "555" (5#1) []
           Sample.db_pending_str).
  - vm_compute. reflexivity.
  - vm_compute. reflexivity.
  - eexists. split; [left; reflexivity | vm_compute; reflexivity].
  - vm_compute. reflexivity.
Defined.

Lemma callback_data_invoice_id_witness :
  exists invoice,
    Sample.invoice_123 = GwReply invoice
    /\ nth_error (split_on "_"%char "check_dep_123") 2
       = Some (hd EmptyString (split_on "_"%char (format_id (ic_invoice_id invoice))))
    /\ (forall z, ic_invoice_id invoice = IdInt z ->
          nth_error (split_on "_"%char "check_dep_123") 2 = Some (str_of_int z))
    /\ (forall s, ic_invoice_id invoice = IdStr s -> has_char "_"%char s = false ->
          nth_error (split_on "_"%char "check_dep_123") 2 = Some s)
    /\ (forall s, ic_invoice_id invoice = IdStr s -> has_char "_"%char s = true ->
          nth_error (split_on "_"%char "check_dep_123") 2 <> Some s).
Proof.
  apply (callback_data_invoice_id (1#1) 42 (Some (5#1)) Sample.invoice_123 1700000001
           Sample.db_one_user "check_dep_123").
  vm_compute. reflexivity.
Defined.

Lemma process_withdraw_done_witness :
  let run := process_withdraw (1#1) 42 (Some (20#1)) Sample.check_ok 1700000001
               Sample.db_one_user in
  fst run = WithdrawDone "https://t.me/check9"
  /\ find_one (user_is (JInt 42)) (users (snd run))
     = Some (inc_balance (- (20#1)) (Sample.user42 (20#1))).
Proof.
  pose proof (process_withdraw_done (1#1) 42 (20#1)
                {| cc_ok := true; cc_check_id := JInt 9;
                   cc_bot_check_url := "https://t.me/check9" |}
                1700000001 Sample.db_one_user (Sample.user42 (20#1))) as H.
  cbv zeta in H. cbv zeta. unfold Sample.check_ok.
  destruct H as [Hdone [Hfound _]].
  - vm_compute. reflexivity.
  - unfold Qle. simpl. lia.
  - unfold Qle. simpl. lia.
  - reflexivity.
  - intros t [].
  - split; [exact Hdone | exact Hfound].
Defined.

Lemma process_withdraw_after_withdrawal_witness :
  let first := process_withdraw (1#1) 42 (Some (5#1)) Sample.check_ok 1700000001
                 Sample.db_one_user in
  let run := process_withdraw (1#1) 42 (Some (5#1)) Sample.check_ok 1700000002
               (snd first) in
  fst run = WithdrawRaised
  /\ find_one (user_is (JInt 42)) (users (snd run))
     = Some (inc_balance (- (5#1)) (inc_balance (- (5#1)) (Sample.user42 (20#1))))
  /\ transactions (snd run) = transactions (snd first).
Proof.
  cbv zeta. unfold Sample.check_ok.
  apply (process_withdraw_after_withdrawal (1#1) 42 (5#1)
           {| cc_ok := true; cc_check_id := JInt 9;
              cc_bot_check_url := "https://t.me/check9" |}
           1700000002).
  - vm_compute. reflexivity.
  - unfold Qle. simpl. lia.
  - unfold Qle. simpl. lia.
  - reflexivity.
  - eexists. split; [vm_compute; left; reflexivity | reflexivity].
Defined.

Lemma webapp_init_counts_the_bet_witness :
  let played :=
    game_play Sample.token (100#1) PlainJson.loads
      {| initData := Some Sample.credential; gameType := Some "slots";
         betAmount := Some (10#1) |} 1700000001 Sample.stream_fours Sample.db_one_user in
  exists shown0 name0 games0 bet0 win0 name1 bet1 win1,
    fst (webapp_init Sample.token PlainJson.loads Sample.str_of_scalar
           (Some Sample.credential) Sample.clock_fixed Sample.db_one_user)
    = WebappOk shown0 name0 games0 bet0 win0
    /\ fst (webapp_init Sample.token PlainJson.loads Sample.str_of_scalar
              (Some Sample.credential) Sample.clock_fixed (snd (fst played)))
       = WebappOk (60#1) name1 (S games0) bet1 win1
    /\ (bet1 == bet0 + (10#1))%Q
    /\ (win1 == win0 + win_amount (fst (process_game "slots" (10#1) Sample.stream_fours)))%Q.
Proof.
  cbv zeta.
  apply (webapp_init_counts_the_bet Sample.token (100#1) PlainJson.loads
           Sample.str_of_scalar Sample.credential (Some "slots") (10#1) 1700000001
           Sample.stream_fours (snd (process_game "slots" (10#1) Sample.stream_fours))).
  - vm_compute. reflexivity.
  - vm_compute. reflexivity.
Defined.

Lemma stats_counts_started_deposits_witness :
  exists before after,
    stats [1] 1 1700000500 Sample.db_one_user = Some before
    /\ stats [1] 1 1700000500
         (snd (process_deposit (1#1) 42 (Some (5#1)) Sample.invoice_123 1700000001
                 Sample.db_one_user))
       = Some after
    /\ (sr_deposits after == sr_deposits before + (5#1))%Q
    /\ (sr_withdraws after == sr_withdraws before)%Q
    /\ sr_transactions after = S (sr_transactions before)
    /\ users (snd (process_deposit (1#1) 42 (Some (5#1)) Sample.invoice_123 1700000001
                     Sample.db_one_user))
       = users Sample.db_one_user.
Proof.
  apply (proj2 (stats_counts_started_deposits (1#1) [1] 1 42 (5#1)
                  {| ic_ok := true; ic_invoice_id := IdInt 123;
                     ic_pay_url := "https://pay.example/123" |}
                  1700000001 1700000500 Sample.db_one_user
                  (snd (process_deposit (1#1) 42 (Some (5#1)) Sample.invoice_123
                          1700000001 Sample.db_one_user))
                  "check_dep_123")).
  - left. reflexivity.
  - vm_compute. reflexivity.
  - vm_compute. discriminate.
Defined.


Lemma game_play_touches_one_account_witness :
  let played :=
    game_play Sample.token (100#1) PlainJson.loads
      {| initData := Some Sample.credential; gameType := Some "slots";
         betAmount := Some (10#1) |} 1700000001 Sample.stream_fours
      Sample.db_pending_str in
  (forall uid, uid <> extract_user_id PlainJson.loads Sample.credential ->
     find_one (user_is uid) (users (snd (fst played)))
     = find_one (user_is uid) (users Sample.db_pending_str))
  /\ List.length (users (snd (fst played))) = List.length (users Sample.db_pending_str)
  /\ (sum_amounts (map balance (users (snd (fst played))))
      == sum_amounts (map balance (users Sample.db_pending_str)) - (10#1)
         + win_amount (fst (process_game "slots" (10#1) Sample.stream_fours)))%Q.
Proof.
  cbv zeta.
  apply (game_play_touches_one_account Sample.token (100#1) PlainJson.loads
           Sample.credential (Some "slots") (10#1) 1700000001 Sample.stream_fours
           (snd (process_game "slots" (10#1) Sample.stream_fours))
           Sample.db_pending_str _ _ (60#1)).
  vm_compute. reflexivity.
Defined.

(** Two start-up calls of a newcomer overlap: both find no account, the
    first insert creates it and the second is refused by the unique index
    on the user id, so that its handler raises. *)
Example newcomer_created_once :
  let newcomer := webapp_init_task Sample.token PlainJson.loads Sample.str_of_scalar
                    (Some Sample.credential) Sample.clock_fixed in
  let w0 := {| w_db := Sample.empty_db; w_random := Sample.stream_count |} in
  let run := interleave [0; 1; 0; 1; 0; 1; 0; 1; 0; 1]%nat
               [Running newcomer; Running newcomer] w0 in
  map user_id (users (w_db (snd run))) = [JInt 42]
  /\ fst run
     = [Running (Return (Some (WebappOk 0 (Some "user_42") 0 0 0)));
        Running (Return (@None webapp_response))].
Proof. cbv zeta. by_evaluation. Qed.

Lemma accounts_stay_distinct_witness :
  let newcomer := webapp_init_task Sample.token PlainJson.loads Sample.str_of_scalar
                    (Some Sample.credential) Sample.clock_fixed in
  let w0 := {| w_db := Sample.empty_db; w_random := Sample.stream_count |} in
  let d' := w_db (snd (interleave [0; 1; 0; 1; 0; 1; 0; 1; 0; 1]%nat
                         [Running newcomer; Running newcomer] w0)) in
  ids_distinct (users d').
Proof.
  cbv zeta.
  refine (proj1 (proj2 (accounts_stay_distinct Sample.token (1#1) (1#1) (100#1)
                          PlainJson.loads Sample.str_of_scalar
                          _ _ _ _ _))).
  - repeat constructor.
  - unfold ids_distinct. simpl. constructor.
Defined.
